(** * Scuttle: the decision engine of the tsunami agents

    A shallow embedding of [examples/archetypes/base.py], [tryhard.py],
    [gambler.py] and [farmer.py], and of the decision functions of
    [examples/play_tsunami.py].

    Numbers.  The Python code computes on JSON numbers (ints and floats) with
    [math.sqrt], [/] and comparisons.  They are embedded as the real numbers
    [R]: every comparison of the source is a boolean test on [R], every
    division is the partial operation [Py.div] that raises
    [ZeroDivisionError] on a zero divisor, rounding is not modelled.

    Exceptions.  A Python call that can raise is a computation in the
    [result] monad; [run_agent] catches every exception at the loop boundary,
    which [run_agent_cycle] models by keeping the requests made so far.

    Requests.  [observe] and [send_input] are HTTP calls that return or raise.
    A cycle of [run_agent] takes the answer of the server as an argument:
    which requests return, and in [run_agent_from] what [observe] gave.  A
    request that raises ends the cycle where it stands, as the [try] block
    does. *)

From Stdlib Require Import Reals Lra List String Ascii ZArith Bool Lia.
Import ListNotations.
Open Scope R_scope.

(* ------------------------------------------------------------------ *)
(** ** Python values *)

Module Py.

(** Boolean comparisons on numbers: [x < y], [x <= y], [x > y], [x >= y],
    [x == y]. *)
Definition ltb (x y : R) : bool := if Rlt_dec x y then true else false.
Definition leb (x y : R) : bool := if Rle_dec x y then true else false.
Definition gtb (x y : R) : bool := ltb y x.
Definition geb (x y : R) : bool := leb y x.
Definition eqb (x y : R) : bool := if Req_dec_T x y then true else false.

(** The exceptions the decision code can raise. *)
Inductive Error : Set :=
| ZeroDivisionError
| ValueError.

Inductive result (A : Type) : Type :=
| Ok (a : A)
| Raise (e : Error).
Arguments Ok {A} a.
Arguments Raise {A} e.

Definition bind {A B : Type} (c : result A) (k : A -> result B) : result B :=
  match c with
  | Ok a => k a
  | Raise e => Raise e
  end.

(** [x / y] on floats. *)
Definition div (x y : R) : result R :=
  if eqb y 0 then Raise ZeroDivisionError else Ok (x / y).

(** A list comprehension [[b for b in l if p(b)]] whose test can raise:
    elements are tested from left to right and the first exception escapes. *)
Fixpoint filterM {A : Type} (p : A -> result bool) (l : list A)
  : result (list A) :=
  match l with
  | [] => Ok []
  | x :: l' =>
      bind (p x) (fun keep =>
      bind (filterM p l') (fun rest =>
      Ok (if keep then x :: rest else rest)))
  end.

(** [min(l, key=key)] and [max(l, key=key)]: CPython scans from the left and
    replaces the running choice only on a strict improvement, so the first
    extremal element wins; an empty argument raises [ValueError]. *)
Fixpoint min_from {A : Type} (key : A -> R) (best : A) (l : list A) : A :=
  match l with
  | [] => best
  | x :: l' => min_from key (if ltb (key x) (key best) then x else best) l'
  end.

Fixpoint max_from {A : Type} (key : A -> R) (best : A) (l : list A) : A :=
  match l with
  | [] => best
  | x :: l' => max_from key (if gtb (key x) (key best) then x else best) l'
  end.

Definition min {A : Type} (key : A -> R) (l : list A) : result A :=
  match l with
  | [] => Raise ValueError
  | x :: l' => Ok (min_from key x l')
  end.

Definition max {A : Type} (key : A -> R) (l : list A) : result A :=
  match l with
  | [] => Raise ValueError
  | x :: l' => Ok (max_from key x l')
  end.

(** [x in l] and [l.index(x)] on lists of strings; [None] stands for the
    [ValueError] of [index]. *)
Definition contains (x : string) (l : list string) : bool :=
  existsb (String.eqb x) l.

Fixpoint index (x : string) (l : list string) : option nat :=
  match l with
  | [] => None
  | y :: l' => if String.eqb y x then Some O else option_map S (index x l')
  end.

(** Truthiness of a list: [if l] and [if not l]. *)
Definition truthy {A : Type} (l : list A) : bool :=
  match l with
  | [] => false
  | _ :: _ => true
  end.

End Py.

Import Py.

Notation "x <- c ;; k" := (Py.bind c (fun x => k))
  (at level 61, c at next level, right associativity).

(* ------------------------------------------------------------------ *)
(** ** base.py: data and shared helpers *)

(** A position is the list [[x, y, z]]; [pos[0]], [pos[1]], [pos[2]]. *)
Record Position : Set := mkPosition { px : R; py : R; pz : R }.

(** A world entity as [observe] returns it: the dictionary keys the decision
    code reads.  An absent key is [None]. *)
Record Entity : Set := mkEntity {
  name : option string;          (* e.get('name', '') *)
  position : Position;           (* e['position'] *)
  IsBrainrot : option bool;      (* e.get('attributes', {}).get('IsBrainrot', False) *)
  attr_Zone : option string;     (* e.get('attributes', {}).get('Zone') *)
  Zone : option string;          (* e.get('Zone') *)
  color : list R                 (* e.get('color', []) *)
}.

(** A deposited resource of [PlacedBrainrots]: [b['value']], [b['index']]. *)
Record Placed : Set := mkPlaced { value : R; placed_index : Z }.

(** The player's attribute dictionary; [run_agent] reads each key with
    [attrs.get(key, default)].  [PlacedBrainrots] is taken after JSON
    decoding. *)
Record Attrs : Set := mkAttrs {
  CarriedCount : option R;
  CarryCapacity : option R;
  Money : option R;
  SpeedLevel : option R;
  NextSpeedCost : option R;
  BaseCenterX : option R;
  BaseCenterZ : option R;
  PlacedBrainrots : option (list Placed);
  BaseMaxBrainrots : option R
}.

(** The dictionary a policy returns. *)
Inductive Action : Set :=
| Wait (event : string)
| Collect (rarity : string) (event : string)
| MoveTo (target : Position) (rarity : string) (event : string).

Definition BASE_ZONE_X : R := 350.
Definition COLLECTION_RANGE : R := 5.
Definition SPEED_SHOP : Position := mkPosition 490.0 2.5 84.0.
Definition RARITY_ORDER : list string :=
  ["Secret"; "Legendary"; "Epic"; "Rare"; "Uncommon"; "Common"]%string.

Definition PLAYER_SPEED_BASE : R := 16.
Definition PLAYER_SPEED_PER_LEVEL : R := 5.5.
Definition TSUNAMI_SPEED : R := 50.0.

(** 3D Euclidean distance. *)
Definition distance (pos1 pos2 : Position) : R :=
  sqrt ((px pos1 - px pos2) ^ 2 + (py pos1 - py pos2) ^ 2
        + (pz pos1 - pz pos2) ^ 2).

(** [a or b] on optional strings: [None] and the empty string are falsy. *)
Definition or_else (a b : option string) : option string :=
  match a with
  | Some s => if String.eqb s EmptyString then b else a
  | None => b
  end.

(** Rarity from the Zone attribute (preferred) or the color fallback. *)
Definition get_rarity (brainrot : Entity) : string :=
  let zone := or_else (attr_Zone brainrot) (Zone brainrot) in
  let by_color :=
    match color brainrot with
    | r :: g :: b :: _ =>
        if ltb (Rabs (r - 1.0)) 0.01 && ltb (Rabs (g - 1.0)) 0.01
           && ltb (Rabs (b - 1.0)) 0.01 then "Secret"
        else if ltb (Rabs (r - 1.0)) 0.01 && ltb (Rabs (g - 1.0)) 0.01
           && ltb (Rabs (b - 0.19607843)) 0.01 then "Legendary"
        else if ltb (Rabs (r - 1.0)) 0.01 && ltb (Rabs (g - 0.5882353)) 0.01
           && ltb (Rabs (b - 0.19607843)) 0.01 then "Epic"
        else if ltb (Rabs (r - 0.7058824)) 0.01
           && ltb (Rabs (g - 0.39215687)) 0.01
           && ltb (Rabs (b - 1.0)) 0.01 then "Rare"
        else if ltb (Rabs (r - 0.39215687)) 0.01
           && ltb (Rabs (g - 0.5882353)) 0.01
           && ltb (Rabs (b - 1.0)) 0.01 then "Uncommon"
        else "Common"
    | _ => "Common"
    end%string in
  match zone with
  | Some z =>
      if negb (String.eqb z EmptyString) && contains z RARITY_ORDER then z
      else by_color
  | None => by_color
  end.

(** Lower = higher priority (0 = Secret). *)
Definition rarity_priority (rarity : string) : Z :=
  match Py.index rarity RARITY_ORDER with
  | Some i => Z.of_nat i
  | None => Z.of_nat (List.length RARITY_ORDER)
  end.

Definition is_in_base_zone (pos : Position) : bool :=
  gtb (px pos) BASE_ZONE_X.

(* ------------------------------------------------------------------ *)
(** ** tryhard.py: the Aggressive-Safe policy *)

Module Tryhard.

(** The strategy object: [self.safety_modifier], read from the config. *)
Record Strategy : Set := mkStrategy { safety_modifier : R }.

Definition upgrade_threshold : R := 1.0.

Definition _player_speed (speed_level : R) : R :=
  PLAYER_SPEED_BASE + (speed_level - 1) * PLAYER_SPEED_PER_LEVEL.

Definition _base_safety_margin (speed_level : R) : R :=
  if geb speed_level 10 then 3
  else if geb speed_level 8 then 4
  else if geb speed_level 5 then 5
  else 6.

Definition can_reach_before_tsunami (self : Strategy)
    (player_pos brainrot_pos deposit_pos : Position)
    (tsunami_x speed_level : R) : result bool :=
  let speed := _player_speed speed_level in
  let dist_to_brainrot := distance player_pos brainrot_pos in
  let dist_brainrot_to_deposit := distance brainrot_pos deposit_pos in
  q1 <- Py.div dist_to_brainrot speed ;;
  let ticks_to_collect := q1 + 1.0 in
  ticks_to_return <- Py.div dist_brainrot_to_deposit speed ;;
  let total_ticks_needed := ticks_to_collect + ticks_to_return in
  let ticks_until_tsunami := (px deposit_pos - tsunami_x) / TSUNAMI_SPEED in
  let safety_margin := _base_safety_margin speed_level * safety_modifier self in
  Ok (ltb total_ticks_needed (ticks_until_tsunami - safety_margin)).

Definition _move_or_collect (pos : Position) (brainrot : Entity)
    (rarity event : string) : Action :=
  let dist := distance pos (position brainrot) in
  if ltb dist 5 then Collect rarity ("collected " ++ rarity)
  else MoveTo (position brainrot) rarity event.

(** The [for rarity in RARITY_ORDER] loops, on the rest of the order. *)
Fixpoint furthest_loop (pos : Position) (candidates : list Entity)
    (order : list string) : result (option (Entity * string)) :=
  match order with
  | [] => Ok None
  | rarity :: order' =>
      let group := filter (fun b => String.eqb (get_rarity b) rarity) candidates in
      if truthy group then
        furthest <- Py.max (fun b => distance pos (position b)) group ;;
        Ok (Some (furthest, rarity))
      else furthest_loop pos candidates order'
  end.

Definition _furthest_by_rarity (pos : Position) (candidates : list Entity)
  : result (option (Entity * string)) :=
  furthest_loop pos candidates RARITY_ORDER.

Fixpoint nearest_loop (pos : Position) (candidates : list Entity)
    (order : list string) : result (option (Entity * string)) :=
  match order with
  | [] => Ok None
  | rarity :: order' =>
      let group := filter (fun b => String.eqb (get_rarity b) rarity) candidates in
      if truthy group then
        nearest <- Py.min (fun b => distance pos (position b)) group ;;
        Ok (Some (nearest, rarity))
      else nearest_loop pos candidates order'
  end.

Definition _find_nearest_valuable (pos : Position) (candidates : list Entity)
  : result (option (Entity * string)) :=
  nearest_loop pos candidates RARITY_ORDER.

(** The comprehension [valid] of [find_target]: alive and outside the base
    zone. *)
Definition valid (brainrots : list Entity) : list Entity :=
  filter (fun b => gtb (py (position b)) (-100)
                   && negb (is_in_base_zone (position b))) brainrots.

(** The comprehension [reachable] of [find_target]. *)
Definition reachable (self : Strategy) (pos : Position)
    (brainrots : list Entity) (tsunami_x : R) (base_center : Position)
    (speed_level : R) : result (list Entity) :=
  filterM (fun b => can_reach_before_tsunami self pos (position b)
                      base_center tsunami_x speed_level)
          (valid brainrots).

Definition AGGRESSIVE_THRESHOLD : R := 2500.

Definition find_target (self : Strategy) (pos : Position)
    (brainrots : list Entity) (tsunami_x : R) (base_center : Position)
    (speed_level money : R) (attrs : Attrs) : result (option Action) :=
  let valid := valid brainrots in
  let tsunami_active := gtb tsunami_x (-400) in
  reachable <- reachable self pos brainrots tsunami_x base_center speed_level ;;
  if tsunami_active && negb (truthy reachable)
     && ltb (distance pos base_center) 20
  then Ok (Some (Wait "waiting for wave reset"))
  else
    let tsunami_passed := gtb tsunami_x (px base_center) in
    target <-
      (if geb money AGGRESSIVE_THRESHOLD && tsunami_passed
          && ltb (distance pos base_center) 20
       then _find_nearest_valuable pos valid
       else Ok None) ;;
    match target with
    | Some (b, rarity) =>
        Ok (Some (_move_or_collect pos b rarity
                    "aggressive mode - nearest valuable"))
    | None =>
        target <- _furthest_by_rarity pos reachable ;;
        match target with
        | Some (b, rarity) =>
            Ok (Some (_move_or_collect pos b rarity ("targeting " ++ rarity)))
        | None =>
            if truthy valid then
              nearest <- Py.min (fun b => distance pos (position b)) valid ;;
              let rarity := get_rarity nearest in
              Ok (Some (_move_or_collect pos nearest rarity
                          "risky nearest fallback"))
            else Ok None
        end
    end.

End Tryhard.

(* ------------------------------------------------------------------ *)
(** ** gambler.py: the Risk-Seeking policy *)

Module Gambler.

Record Strategy : Set := mkStrategy { safety_modifier : R }.

Definition upgrade_threshold : R := 1.0.

Definition _player_speed (speed_level : R) : R :=
  PLAYER_SPEED_BASE + (speed_level - 1) * PLAYER_SPEED_PER_LEVEL.

Definition _ticks_to_return (brainrot_pos deposit_pos : Position)
    (speed_level : R) : result R :=
  let speed := _player_speed speed_level in
  Py.div (distance brainrot_pos deposit_pos) speed.

Definition _ticks_available (deposit_pos : Position) (tsunami_x : R) : R :=
  (px deposit_pos - tsunami_x) / TSUNAMI_SPEED.

(** Very loose safety: only the return trip is checked. *)
Definition is_safe_enough (self : Strategy) (brainrot_pos deposit_pos : Position)
    (tsunami_x speed_level : R) : result bool :=
  ticks_to_return <- _ticks_to_return brainrot_pos deposit_pos speed_level ;;
  let ticks_available := _ticks_available deposit_pos tsunami_x in
  Ok (ltb ticks_to_return (ticks_available - safety_modifier self)).

Definition _move_or_collect (pos : Position) (brainrot : Entity)
    (rarity event : string) : Action :=
  let dist := distance pos (position brainrot) in
  if ltb dist 5 then Collect rarity ("collected " ++ rarity)
  else MoveTo (position brainrot) rarity event.

Definition valid (brainrots : list Entity) : list Entity :=
  filter (fun b => gtb (py (position b)) (-100)
                   && negb (is_in_base_zone (position b))) brainrots.

(** One iteration of the loop that looks for the highest-value brainrot; the
    loop state is [(best, best_priority)].  [RARITY_ORDER.index] is guarded
    by [rarity in RARITY_ORDER]. *)
Definition best_step (st : option (Entity * string) * Z) (b : Entity)
  : option (Entity * string) * Z :=
  let '(best, best_priority) := st in
  let rarity := get_rarity b in
  let priority :=
    if contains rarity RARITY_ORDER then
      match Py.index rarity RARITY_ORDER with
      | Some i => Z.of_nat i
      | None => Z.of_nat (List.length RARITY_ORDER)
      end
    else Z.of_nat (List.length RARITY_ORDER) in
  if (priority <? best_priority)%Z then (Some (b, rarity), priority)
  else (best, best_priority).

Definition best_of (valid : list Entity) : option (Entity * string) :=
  fst (fold_left best_step valid (None, Z.of_nat (List.length RARITY_ORDER))).

Definition find_target (self : Strategy) (pos : Position)
    (brainrots : list Entity) (tsunami_x : R) (base_center : Position)
    (speed_level money : R) (attrs : Attrs) : result (option Action) :=
  let valid := valid brainrots in
  if negb (truthy valid) then Ok None
  else
    match best_of valid with
    | None => Ok None
    | Some best =>
        let best_rarity := snd best in
        let same_rarity :=
          filter (fun b => String.eqb (get_rarity b) best_rarity) valid in
        target <- Py.min (fun b => distance pos (position b)) same_rarity ;;
        safe <- is_safe_enough self (position target) base_center tsunami_x
                  speed_level ;;
        if negb safe then
          fallback <- Py.min (fun b => distance pos (position b)) valid ;;
          safe' <- is_safe_enough self (position fallback) base_center
                     tsunami_x speed_level ;;
          if safe' then
            let rarity := get_rarity fallback in
            Ok (Some (_move_or_collect pos fallback rarity
                        "gambler fallback - nearest"))
          else
            let rarity := get_rarity target in
            Ok (Some (_move_or_collect pos target rarity
                        "YOLO gambler - ignoring danger"))
        else
          Ok (Some (_move_or_collect pos target best_rarity
                      ("chasing " ++ best_rarity)))
    end.

End Gambler.

(* ------------------------------------------------------------------ *)
(** ** farmer.py: the Zone-Restricted policy *)

Module Farmer.

Record Strategy : Set := mkStrategy {
  safety_modifier : R;
  venture_limit_x : R;
  min_rarity_priority : Z
}.

Definition upgrade_threshold : R := 1.0.

Definition _player_speed (speed_level : R) : R :=
  PLAYER_SPEED_BASE + (speed_level - 1) * PLAYER_SPEED_PER_LEVEL.

(** Conservative safety: return trip with large margin. *)
Definition is_safe (self : Strategy) (brainrot_pos deposit_pos : Position)
    (tsunami_x speed_level : R) : result bool :=
  let speed := _player_speed speed_level in
  ticks_to_return <- Py.div (distance brainrot_pos deposit_pos) speed ;;
  let ticks_available := (px deposit_pos - tsunami_x) / TSUNAMI_SPEED in
  Ok (ltb ticks_to_return (ticks_available - safety_modifier self * 3)).

Definition _move_or_collect (pos : Position) (brainrot : Entity)
    (rarity event : string) : Action :=
  let dist := distance pos (position brainrot) in
  if ltb dist 5 then Collect rarity ("collected " ++ rarity)
  else MoveTo (position brainrot) rarity event.

(** The first comprehension [valid]: alive, outside the base zone, within the
    venture zone. *)
Definition in_zone (self : Strategy) (brainrots : list Entity) : list Entity :=
  filter (fun b => gtb (py (position b)) (-100)
                   && negb (is_in_base_zone (position b))
                   && gtb (px (position b)) (venture_limit_x self)) brainrots.

(** The test of the second comprehension; [RARITY_ORDER.index] raises
    [ValueError] on a string that is not in the order. *)
Definition meets_rarity (self : Strategy) (b : Entity) : result bool :=
  match Py.index (get_rarity b) RARITY_ORDER with
  | Some i => Ok (Z.of_nat i >=? min_rarity_priority self)%Z
  | None => Raise ValueError
  end.

(** [valid] after the minimum rarity filter. *)
Definition valid (self : Strategy) (brainrots : list Entity)
  : result (list Entity) :=
  if (min_rarity_priority self >? 0)%Z
  then filterM (meets_rarity self) (in_zone self brainrots)
  else Ok (in_zone self brainrots).

Definition find_target (self : Strategy) (pos : Position)
    (brainrots : list Entity) (tsunami_x : R) (base_center : Position)
    (speed_level money : R) (attrs : Attrs) : result (option Action) :=
  valid <- valid self brainrots ;;
  if negb (truthy valid) then Ok None
  else
    safe <- filterM (fun b => is_safe self (position b) base_center tsunami_x
                                speed_level) valid ;;
    let pool := if truthy safe then safe else valid in
    target <- Py.min (fun b => distance pos (position b)) pool ;;
    let rarity := get_rarity target in
    Ok (Some (_move_or_collect pos target rarity
                ("farming " ++ rarity ++ " in zone"))).

End Farmer.

(* ------------------------------------------------------------------ *)
(** ** base.py: one cycle of [run_agent] *)

(** The [strategy] object handed to [run_agent]: one of the three classes. *)
Inductive Policy : Set :=
| TryhardStrategy (self : Tryhard.Strategy)
| GamblerStrategy (self : Gambler.Strategy)
| FarmerStrategy (self : Farmer.Strategy).

(** [strategy.find_target(...)]. *)
Definition find_target (strategy : Policy) (pos : Position)
    (brainrots : list Entity) (tsunami_x : R) (base_center : Position)
    (speed_level money : R) (attrs : Attrs) : result (option Action) :=
  match strategy with
  | TryhardStrategy self =>
      Tryhard.find_target self pos brainrots tsunami_x base_center
        speed_level money attrs
  | GamblerStrategy self =>
      Gambler.find_target self pos brainrots tsunami_x base_center
        speed_level money attrs
  | FarmerStrategy self =>
      Farmer.find_target self pos brainrots tsunami_x base_center
        speed_level money attrs
  end.

(** [strategy.upgrade_threshold]. *)
Definition upgrade_threshold (strategy : Policy) : R :=
  match strategy with
  | TryhardStrategy _ => Tryhard.upgrade_threshold
  | GamblerStrategy _ => Gambler.upgrade_threshold
  | FarmerStrategy _ => Farmer.upgrade_threshold
  end.

(** A call [send_input(api_key, type, data)].  The call returns the decoded
    answer of the server, which [run_agent] drops, or it raises: a refused
    connection, a timeout, an answer that is not JSON.  Below, a parameter
    [send_input : Input -> bool] says which calls of the cycle return. *)
Inductive Input : Set :=
| Send_MoveTo (target : Position)
| Send_Collect
| Send_Deposit
| Send_BuySpeed
| Send_Destroy (index : Z).

(** What [observe] returns: [state['player']] and
    [state['world']['entities']]. *)
Record State : Set := mkState {
  player_position : option Position;   (* player.get('position', [0, 0, 0]) *)
  player_attributes : Attrs;           (* player.get('attributes', {}) *)
  entities : list Entity
}.

(** The variables [run_agent] keeps from one cycle to the next.  The
    counters [cycles] and [chat_counter] only drive printing and the chat
    side channel and are left out. *)
Record Loop : Set := mkLoop {
  last_position : option Position;
  stuck_cycles : Z
}.

(** [d.get(key, default)]. *)
Definition get {A : Type} (o : option A) (default : A) : A :=
  match o with
  | Some a => a
  | None => default
  end.

Definition STUCK_THRESHOLD : Z := 5.

(** Destroy the lowest-value brainrot from base to make room: the requests
    the call makes, and whether it returns ([false] when an exception leaves
    it, which is the case when its request raises). *)
Definition destroy_lowest_value (send_input : Input -> bool)
    (placed_brainrots : list Placed) : list Input * bool :=
  if negb (truthy placed_brainrots) then ([], true)
  else
    match Py.min value placed_brainrots with
    | Raise _ => ([], false)
    | Ok lowest =>
        ([Send_Destroy (placed_index lowest)],
         send_input (Send_Destroy (placed_index lowest)))
    end.

(** The hazard front of a snapshot: the least x among the entities whose
    name starts with [TsunamiWave], [-500] when there is none. *)
Definition tsunami_x_of (entities : list Entity) : result R :=
  let tsunami_waves :=
    filter (fun e => String.prefix "TsunamiWave" (get (name e) EmptyString))
           entities in
  if truthy tsunami_waves
  then Py.min (fun x => x) (map (fun w => px (position w)) tsunami_waves)
  else Ok (-500).

(** The values [run_agent] reads from an observation, with their defaults. *)
Definition pos_of (state : State) : Position :=
  get (player_position state) (mkPosition 0 0 0).
Definition carrying_of (attrs : Attrs) : R := get (CarriedCount attrs) 0.
Definition capacity_of (attrs : Attrs) : R := get (CarryCapacity attrs) 1.
Definition money_of (attrs : Attrs) : R := get (Money attrs) 0.
Definition speed_level_of (attrs : Attrs) : R := get (SpeedLevel attrs) 1.
Definition next_speed_cost_of (attrs : Attrs) : R :=
  get (NextSpeedCost attrs) 999999.
Definition base_center_of (attrs : Attrs) : Position :=
  mkPosition (get (BaseCenterX attrs) 375) 0.25 (get (BaseCenterZ attrs) 0).
Definition brainrots_of (state : State) : list Entity :=
  filter (fun e => get (IsBrainrot e) false) (entities state).
Definition placed_of (attrs : Attrs) : list Placed :=
  get (PlacedBrainrots attrs) [].
Definition base_max_of (attrs : Attrs) : R := get (BaseMaxBrainrots attrs) 10.

(** [last_position and distance(pos, last_position) < 1.0]. *)
Definition stuck (loop : Loop) (state : State) : bool :=
  match last_position loop with
  | Some last => ltb (distance (pos_of state) last) 1.0
  | None => false
  end.

(** The stuck branch sends [MoveTo] and skips the rest of the cycle when the
    incremented counter reaches the threshold. *)
Definition stuck_abort (loop : Loop) (state : State) : bool :=
  stuck loop state && (stuck_cycles loop + 1 >=? STUCK_THRESHOLD)%Z.

(** The guard of the speed upgrade. *)
Definition upgrade_due (strategy : Policy) (attrs : Attrs) : bool :=
  eqb (carrying_of attrs) 0 && gtb (next_speed_cost_of attrs) 0
  && geb (money_of attrs) (next_speed_cost_of attrs * upgrade_threshold strategy)
  && ltb (speed_level_of attrs) 10.

(** The body of the [while] loop for one observation: the loop variables
    after the cycle and the requests made with [send_input], in order.  An
    exception is caught at the end of the body, so the statements after the
    one that raised are skipped: a request that raises is the last of its
    cycle, and the assignments that follow it are not done.  [PlacedBrainrots]
    is taken as the decoded list. *)
Definition run_agent_cycle (send_input : Input -> bool) (strategy : Policy)
    (loop : Loop) (state : State) : Loop * list Input :=
  let pos := pos_of state in
  let attrs := player_attributes state in
  let carrying := carrying_of attrs in
  let capacity := capacity_of attrs in
  let money := money_of attrs in
  let speed_level := speed_level_of attrs in
  let base_center := base_center_of attrs in
  let brainrots := brainrots_of state in
  match tsunami_x_of (entities state) with
  | Raise _ => (loop, [])
  | Ok tsunami_x =>
      (* 2. Stuck detection *)
      if stuck_abort loop state then
        (* stuck_cycles += 1; send_input(MoveTo base); stuck_cycles = 0 *)
        (mkLoop (last_position loop)
                (if send_input (Send_MoveTo base_center) then 0
                 else stuck_cycles loop + 1)%Z,
         [Send_MoveTo base_center])
      else
        let loop' :=
          mkLoop (Some pos)
                 (if stuck loop state then stuck_cycles loop + 1 else 0)%Z in
        (* 3. If full -> deposit *)
        if geb carrying capacity then
          if ltb (distance pos base_center) 20 then
            let placed := placed_of attrs in
            let base_max := base_max_of attrs in
            let (destroyed, returned) :=
              if geb (INR (List.length placed)) base_max
              then destroy_lowest_value send_input placed else ([], true) in
            if returned then (loop', destroyed ++ [Send_Deposit])
            else (loop', destroyed)
          else (loop', [Send_MoveTo base_center])
        (* 4. Speed upgrade check *)
        else if upgrade_due strategy attrs then
          if gtb (distance pos SPEED_SHOP) 20
          then (loop', [Send_MoveTo SPEED_SHOP])
          else (loop', [Send_BuySpeed])
        (* 5. Find target via archetype strategy *)
        else
          match find_target strategy pos brainrots tsunami_x base_center
                  speed_level money attrs with
          | Raise _ => (loop', [])
          | Ok None => (loop', [Send_MoveTo base_center])
          | Ok (Some (MoveTo target _ _)) => (loop', [Send_MoveTo target])
          | Ok (Some (Collect _ _)) => (loop', [Send_Collect])
          | Ok (Some (Wait _)) => (loop', [])
          end
  end.

(** The candidate pool of each policy after its own filters. *)
Definition pool (strategy : Policy) (brainrots : list Entity)
  : result (list Entity) :=
  match strategy with
  | TryhardStrategy _ => Ok (Tryhard.valid brainrots)
  | GamblerStrategy _ => Ok (Gambler.valid brainrots)
  | FarmerStrategy self => Farmer.valid self brainrots
  end.

(* ------------------------------------------------------------------ *)
(** ** Concrete snapshots

    The map is laid out along the x axis: every position below has
    [y = 0.25] and [z = 0], like the base center [run_agent] builds. *)

Module Scenario.

Definition at_x (x : R) : Position := mkPosition x 0.25 0.

(** A live brainrot at [x] whose Zone attribute is [zone]. *)
Definition brainrot (x : R) (zone : string) : Entity :=
  mkEntity None (at_x x) (Some true) (Some zone) None [].

Definition base : Position := at_x 375.

Definition no_attrs : Attrs :=
  mkAttrs None None None None None None None None None.

(** Scenario 1 of the specification: hazard inactive, a Legendary at
    distance 40 and a Common at distance 5 from the player, both reachable. *)
Definition legendary_far : Entity := brainrot 300 "Legendary".
Definition common_near : Entity := brainrot 335 "Common".
Definition tryhard1 : Tryhard.Strategy := Tryhard.mkStrategy 1.

(** The hazard has swept past the base, the player stands 5 units from the
    base center with money above the aggressive threshold, one Common is
    left on the map. *)
Definition common_left : Entity := brainrot 340 "Common".

(** Risk-Seeking, hazard inactive, player at x = 100: the Legendary nearest
    to the player is too far from the base to pass the check, a second
    Legendary and a Common pass it. *)
Definition gambler1 : Gambler.Strategy := Gambler.mkStrategy 0.5.
Definition legendary_unsafe : Entity := brainrot 90 "Legendary".
Definition legendary_safe : Entity := brainrot 115 "Legendary".
Definition common_safe : Entity := brainrot 105 "Common".

(** Zone-Restricted with venture limit x = 300 and minimum rarity
    priority 1: a Legendary inside the zone and a Common beyond the limit. *)
Definition farmer1 : Farmer.Strategy := Farmer.mkStrategy 2 300 1.
Definition legendary_in_zone : Entity := brainrot 320 "Legendary".
Definition common_beyond : Entity := brainrot 200 "Common".

(** A hazard-wave entity at [x]. *)
Definition wave (x : R) (n : string) : Entity :=
  mkEntity (Some n) (at_x x) None None None [].

(** The player stands 5 units from the base center with a full load, the
    base holds two resources and its cap is two. *)
Definition full_attrs : Attrs :=
  mkAttrs (Some 3) (Some 3) None None None None None
          (Some [mkPlaced 10 0; mkPlaced 5 1]) (Some 2).
Definition full_at_base : State := mkState (Some (at_x 370)) full_attrs [].

(** The loop variables of a player that has not moved for four cycles, and
    of a first cycle. *)
Definition stuck_four : Loop := mkLoop (Some (at_x 370)) 4.
Definition first_cycle : Loop := mkLoop None 0.

(** A server that answers every request, one whose answer to [Destroy]
    makes [send_input] raise, and one that answers no [MoveTo]. *)
Definition all_return : Input -> bool := fun _ => true.
Definition destroy_raises : Input -> bool :=
  fun i => match i with Send_Destroy _ => false | _ => true end.
Definition move_raises : Input -> bool :=
  fun i => match i with Send_MoveTo _ => false | _ => true end.

End Scenario.

(* ------------------------------------------------------------------ *)
(** ** Specification sentences that the code does not satisfy, as stated *)

Module AsStated.

(** Aggressive-Safe: with money above the threshold, the hazard past the
    base center and the player near the base, the target is the nearest
    valid candidate of any rarity. *)
Definition aggressive_targets_nearest_valid (self : Tryhard.Strategy)
    (pos : Position) (brainrots : list Entity) (tsunami_x : R)
    (base_center : Position) (speed_level money : R) (attrs : Attrs) : Prop :=
  money > 2500 -> tsunami_x > px base_center ->
  distance pos base_center < 20 ->
  exists b event,
    In b (Tryhard.valid brainrots) /\
    Tryhard.find_target self pos brainrots tsunami_x base_center speed_level
      money attrs
    = Ok (Some (Tryhard._move_or_collect pos b (get_rarity b) event)) /\
    forall c, In c (Tryhard.valid brainrots) ->
      distance pos (position b) <= distance pos (position c).

(** Risk-Seeking: the safety check compares the whole round trip,
    ticksToCollect plus ticksToReturn, with ticksUntilHazard minus the
    margin. *)
Definition gambler_check_is_round_trip (self : Gambler.Strategy)
    (player_pos brainrot_pos deposit_pos : Position)
    (tsunami_x speed_level : R) : Prop :=
  Gambler.is_safe_enough self brainrot_pos deposit_pos tsunami_x speed_level
  = Ok true
  <->
  (distance player_pos brainrot_pos / Gambler._player_speed speed_level + 1)
  + distance brainrot_pos deposit_pos / Gambler._player_speed speed_level
  < (px deposit_pos - tsunami_x) / TSUNAMI_SPEED - Gambler.safety_modifier self.

(** Risk-Seeking: when some valid candidate of the highest tier present passes
    the safety check, the target is of that tier. *)
Definition gambler_targets_top_tier_if_one_is_safe (self : Gambler.Strategy)
    (pos : Position) (brainrots : list Entity) (tsunami_x : R)
    (base_center : Position) (speed_level money : R) (attrs : Attrs) : Prop :=
  forall s,
    In s (Gambler.valid brainrots) ->
    (forall c, In c (Gambler.valid brainrots) ->
       (rarity_priority (get_rarity s) <= rarity_priority (get_rarity c))%Z) ->
    Gambler.is_safe_enough self (position s) base_center tsunami_x speed_level
    = Ok true ->
    exists b event,
      In b (Gambler.valid brainrots) /\
      Gambler.find_target self pos brainrots tsunami_x base_center speed_level
        money attrs
      = Ok (Some (Gambler._move_or_collect pos b (get_rarity b) event)) /\
      get_rarity b = get_rarity s.

(** State machine: in every cycle with a full load, the player within 10
    units of the base center and the base at its cap, [Destroy] of the
    lowest-value placed resource is sent first and [Deposit] second. *)
Definition full_at_cap_destroys_then_deposits (send_input : Input -> bool)
    (strategy : Policy) (loop : Loop) (state : State) : Prop :=
  let attrs := player_attributes state in
  carrying_of attrs = capacity_of attrs ->
  distance (pos_of state) (base_center_of attrs) < 10 ->
  INR (List.length (placed_of attrs)) = base_max_of attrs ->
  exists lowest rest,
    In lowest (placed_of attrs) /\
    (forall p, In p (placed_of attrs) -> value lowest <= value p) /\
    snd (run_agent_cycle send_input strategy loop state)
    = Send_Destroy (placed_index lowest) :: Send_Deposit :: rest.

End AsStated.

(* ------------------------------------------------------------------ *)
(** ** base.py: the remaining helpers *)

(** 2D distance ignoring Y axis. *)
Definition dist_xz (pos1 pos2 : Position) : R :=
  sqrt ((px pos1 - px pos2) ^ 2 + (pz pos1 - pz pos2) ^ 2).

(** The chat log shared by all agents.  Every method runs under the lock,
    so a log is the content of its deque, oldest message first, and a method
    is a function on it. *)
Module ChatLog.

(** An entry [{"streamer": ..., "message": ...}]. *)
Record Message : Set := mkMessage { streamer : string; message : string }.

(** [self._messages = deque(maxlen=maxlen)]. *)
Record t : Set := mkChatLog { maxlen : nat; _messages : list Message }.

Definition init (maxlen : nat) : t := mkChatLog maxlen [].

(** [deque.append] on a bounded deque: the item goes to the right end and,
    if the deque is then longer than [maxlen], the leftmost item is
    dropped. *)
Definition append (maxlen : nat) (d : list Message) (x : Message)
  : list Message :=
  let d' := d ++ [x] in
  if (maxlen <? List.length d')%nat then tl d' else d'.

Definition add (self : t) (streamer message : string) : t :=
  mkChatLog (maxlen self)
            (append (maxlen self) (_messages self) (mkMessage streamer message)).

(** The slice [l[start:]]: a negative [start] counts from the end, and the
    bound is clipped to the list. *)
Definition slice_from {A : Type} (l : list A) (start : Z) : list A :=
  let len := Z.of_nat (List.length l) in
  let first := if (start <? 0)%Z then Z.max (len + start) 0
               else Z.min start len in
  skipn (Z.to_nat first) l.

(** [msgs[-n:] if len(msgs) >= n else msgs]. *)
Definition recent (self : t) (n : Z) : list Message :=
  let msgs := _messages self in
  if (Z.of_nat (List.length msgs) >=? n)%Z then slice_from msgs (- n)
  else msgs.

End ChatLog.

(** Global shared chat log. *)
Definition CHAT_LOG : ChatLog.t := ChatLog.init 25.

(** What the server answers in one round of the loop: the state [observe]
    returns, [None] when that call raises, and which calls of [send_input]
    return. *)
Record Round : Type := mkRound {
  observed : option State;
  answered : Input -> bool
}.

(** The [while] loop of [run_agent] over the successive rounds, until the
    stop event is set: the loop variables at the end and the requests made
    in each cycle.  When [observe] raises, the cycle ends before anything is
    assigned or sent. *)
Fixpoint run_agent_from (strategy : Policy) (loop : Loop)
    (rounds : list Round) : Loop * list (list Input) :=
  match rounds with
  | [] => (loop, [])
  | round :: rest =>
      let (loop', sent) :=
        match observed round with
        | Some state => run_agent_cycle (answered round) strategy loop state
        | None => (loop, [])
        end in
      let (loop'', more) := run_agent_from strategy loop' rest in
      (loop'', sent :: more)
  end.

(** [last_position = None], [stuck_cycles = 0] before the loop. *)
Definition run_agent (strategy : Policy) (rounds : list Round)
  : Loop * list (list Input) :=
  run_agent_from strategy (mkLoop None 0) rounds.

(* ------------------------------------------------------------------ *)
(** ** play_tsunami.py: the single-agent bot *)

Module PlayTsunami.

(** Rarity from color. *)
Definition get_rarity (brainrot : Entity) : string :=
  match color brainrot with
  | r :: g :: b :: _ =>
      if ltb (Rabs (r - 1.0)) 0.01 && ltb (Rabs (g - 1.0)) 0.01
         && ltb (Rabs (b - 1.0)) 0.01 then "Secret"
      else if ltb (Rabs (r - 1.0)) 0.01 && ltb (Rabs (g - 1.0)) 0.01
         && ltb (Rabs (b - 0.19607843)) 0.01 then "Legendary"
      else if ltb (Rabs (r - 1.0)) 0.01 && ltb (Rabs (g - 0.5882353)) 0.01
         && ltb (Rabs (b - 0.19607843)) 0.01 then "Epic"
      else if ltb (Rabs (r - 0.7058824)) 0.01
         && ltb (Rabs (g - 0.39215687)) 0.01
         && ltb (Rabs (b - 1.0)) 0.01 then "Rare"
      else if ltb (Rabs (r - 0.39215687)) 0.01
         && ltb (Rabs (g - 0.5882353)) 0.01
         && ltb (Rabs (b - 1.0)) 0.01 then "Uncommon"
      else "Common"
  | _ => "Common"
  end%string.

(** Check if position is in the base zone (X > 350). *)
Definition is_in_base_zone (pos : Position) : bool := gtb (px pos) 350.

(** Can we reach a brainrot and return to deposit before the tsunami. *)
Definition can_reach_before_tsunami
    (player_pos brainrot_pos deposit_pos : Position)
    (tsunami_x speed_level : R) : result bool :=
  let PLAYER_SPEED := 16 + (speed_level - 1) * 5.5 in
  let TSUNAMI_SPEED := 50.0 in
  let dist_to_brainrot := distance player_pos brainrot_pos in
  let dist_brainrot_to_deposit := distance brainrot_pos deposit_pos in
  q1 <- Py.div dist_to_brainrot PLAYER_SPEED ;;
  let ticks_to_collect := q1 + 1.0 in
  ticks_to_return <- Py.div dist_brainrot_to_deposit PLAYER_SPEED ;;
  let total_ticks_needed := ticks_to_collect + ticks_to_return in
  let ticks_until_tsunami := (px deposit_pos - tsunami_x) / TSUNAMI_SPEED in
  let safety_margin :=
    if geb speed_level 10 then 3
    else if geb speed_level 8 then 4
    else if geb speed_level 5 then 5
    else 6 in
  Ok (ltb total_ticks_needed (ticks_until_tsunami - safety_margin)).

(** The [for rarity in RARITY_ORDER] loop, on the rest of the order. *)
Fixpoint furthest_loop (player_pos : Position) (reachable : list Entity)
    (order : list string) : result (option (Entity * string)) :=
  match order with
  | [] => Ok None
  | rarity :: order' =>
      let group := filter (fun b => String.eqb (get_rarity b) rarity) reachable in
      if truthy group then
        furthest <- Py.max (fun b => distance player_pos (position b)) group ;;
        Ok (Some (furthest, rarity))
      else furthest_loop player_pos reachable order'
  end.

(** Find the furthest reachable brainrot by rarity priority.  The answer
    [(None, None)] is [None]. *)
Definition find_furthest_reachable_brainrot (player_pos : Position)
    (brainrots : list Entity) (tsunami_x : R) (deposit_pos : Position)
    (speed_level : R) : result (option (Entity * string)) :=
  let valid :=
    filter (fun b => gtb (py (position b)) (-100)
                     && negb (is_in_base_zone (position b))) brainrots in
  reachable <-
    filterM (fun b => can_reach_before_tsunami player_pos (position b)
                        deposit_pos tsunami_x speed_level) valid ;;
  if negb (truthy reachable) then
    if truthy valid then
      nearest <- Py.min (fun b => distance player_pos (position b)) valid ;;
      Ok (Some (nearest, get_rarity nearest))
    else Ok None
  else furthest_loop player_pos reachable RARITY_ORDER.

End PlayTsunami.

(* ------------------------------------------------------------------ *)
(** ** Further concrete snapshots *)

Module Cases.

(** A player at the speed shop with money for the next level. *)
Definition shopper_attrs : Attrs :=
  mkAttrs None None (Some 500) None (Some 100) None None None None.
Definition at_shop : State := mkState (Some SPEED_SHOP) shopper_attrs [].

(** A player that stays at x = 100 on an empty map. *)
Definition idle : State := mkState (Some (Scenario.at_x 100)) Scenario.no_attrs [].

(** A round in which that player is observed and the server answers no
    [MoveTo]. *)
Definition idle_round : Round := mkRound (Some idle) Scenario.move_raises.

(** A brainrot at [x] without Zone attribute, with the color [c]. *)
Definition colored (x : R) (c : list R) : Entity :=
  mkEntity None (Scenario.at_x x) (Some true) None None c.

End Cases.

(* ================================================================== *)
(** * Properties *)

(** ** Comparisons, division and the list primitives *)

Lemma ltb_true_iff (x y : R) : ltb x y = true <-> x < y.
Proof. unfold ltb; destruct (Rlt_dec x y); split; congruence || tauto. Qed.

Lemma ltb_false_iff (x y : R) : ltb x y = false <-> y <= x.
Proof.
  unfold ltb; destruct (Rlt_dec x y); split; intros; try congruence; lra.
Qed.

Lemma leb_true_iff (x y : R) : leb x y = true <-> x <= y.
Proof. unfold leb; destruct (Rle_dec x y); split; congruence || tauto. Qed.

Lemma leb_false_iff (x y : R) : leb x y = false <-> y < x.
Proof.
  unfold leb; destruct (Rle_dec x y); split; intros; try congruence; lra.
Qed.

Lemma gtb_true_iff (x y : R) : gtb x y = true <-> x > y.
Proof. unfold gtb; rewrite ltb_true_iff; lra. Qed.

Lemma gtb_false_iff (x y : R) : gtb x y = false <-> x <= y.
Proof. unfold gtb; rewrite ltb_false_iff; lra. Qed.

Lemma geb_true_iff (x y : R) : geb x y = true <-> x >= y.
Proof. unfold geb; rewrite leb_true_iff; lra. Qed.

Lemma geb_false_iff (x y : R) : geb x y = false <-> x < y.
Proof. unfold geb; rewrite leb_false_iff; lra. Qed.

Lemma eqb_true_iff (x y : R) : eqb x y = true <-> x = y.
Proof. unfold eqb; destruct (Req_dec_T x y); split; congruence || tauto. Qed.

Lemma eqb_false_iff (x y : R) : eqb x y = false <-> x <> y.
Proof. unfold eqb; destruct (Req_dec_T x y); split; congruence || tauto. Qed.

Lemma div_ok (x y : R) : y <> 0 -> Py.div x y = Ok (x / y).
Proof.
  intros Hy; unfold Py.div.
  apply eqb_false_iff in Hy; now rewrite Hy.
Qed.

Lemma div_raise (x : R) : Py.div x 0 = Raise ZeroDivisionError.
Proof.
  unfold Py.div.
  assert (H : eqb 0 0 = true) by now apply eqb_true_iff.
  now rewrite H.
Qed.

(** A comprehension whose test never raises is an ordinary [filter]. *)
Lemma filterM_ok {A : Type} (p : A -> result bool) (q : A -> bool)
    (l : list A) :
  (forall x, In x l -> p x = Ok (q x)) -> filterM p l = Ok (filter q l).
Proof.
  induction l as [|x l IH]; intros H; simpl.
  - reflexivity.
  - rewrite (H x) by now left.
    simpl. rewrite IH by (intros y Hy; apply H; now right).
    reflexivity.
Qed.

(** What a comprehension keeps comes from its argument and passed the test. *)
Lemma filterM_In {A : Type} (p : A -> result bool) (l out : list A) (x : A) :
  filterM p l = Ok out -> In x out -> In x l /\ p x = Ok true.
Proof.
  revert out; induction l as [|y l IH]; intros out H Hin; simpl in H.
  - injection H as <-. destruct Hin.
  - destruct (p y) as [keep|e] eqn:Hp; simpl in H; [|discriminate].
    destruct (filterM p l) as [rest|e] eqn:Hr; simpl in H; [|discriminate].
    injection H as <-.
    destruct keep.
    + destruct Hin as [<-|Hin].
      * split; [now left|assumption].
      * destruct (IH rest eq_refl Hin); split; [now right|assumption].
    + destruct (IH rest eq_refl Hin); split; [now right|assumption].
Qed.

Lemma min_from_In {A : Type} (key : A -> R) (l : list A) (best : A) :
  In (min_from key best l) (best :: l).
Proof.
  revert best; induction l as [|x l IH]; intros best; simpl.
  - now left.
  - specialize (IH (if ltb (key x) (key best) then x else best)).
    destruct (ltb (key x) (key best)); simpl in IH; tauto.
Qed.

Lemma min_from_le_best {A : Type} (key : A -> R) (l : list A) (best : A) :
  key (min_from key best l) <= key best.
Proof.
  revert best; induction l as [|y l IH]; intros best; simpl; [lra|].
  destruct (ltb (key y) (key best)) eqn:Hlt.
  - apply ltb_true_iff in Hlt. specialize (IH y). lra.
  - apply IH.
Qed.

Lemma min_from_le {A : Type} (key : A -> R) (l : list A) (best x : A) :
  In x (best :: l) -> key (min_from key best l) <= key x.
Proof.
  intros [<-|Hin]; [apply min_from_le_best|].
  revert best; induction l as [|y l IH]; intros best; simpl; [destruct Hin|].
  destruct Hin as [->|Hin]; [|now apply IH].
  pose proof (min_from_le_best key l (if ltb (key x) (key best) then x else best)) as H.
  destruct (ltb (key x) (key best)) eqn:Hlt; [assumption|].
  apply ltb_false_iff in Hlt. lra.
Qed.

Lemma max_from_In {A : Type} (key : A -> R) (l : list A) (best : A) :
  In (max_from key best l) (best :: l).
Proof.
  revert best; induction l as [|x l IH]; intros best; simpl.
  - now left.
  - specialize (IH (if gtb (key x) (key best) then x else best)).
    destruct (gtb (key x) (key best)); simpl in IH; tauto.
Qed.

Lemma max_from_ge_best {A : Type} (key : A -> R) (l : list A) (best : A) :
  key best <= key (max_from key best l).
Proof.
  revert best; induction l as [|y l IH]; intros best; simpl; [lra|].
  destruct (gtb (key y) (key best)) eqn:Hgt.
  - apply gtb_true_iff in Hgt. specialize (IH y). lra.
  - apply IH.
Qed.

Lemma max_from_ge {A : Type} (key : A -> R) (l : list A) (best x : A) :
  In x (best :: l) -> key x <= key (max_from key best l).
Proof.
  intros [<-|Hin]; [apply max_from_ge_best|].
  revert best; induction l as [|y l IH]; intros best; simpl; [destruct Hin|].
  destruct Hin as [->|Hin]; [|now apply IH].
  pose proof (max_from_ge_best key l (if gtb (key x) (key best) then x else best)) as H.
  destruct (gtb (key x) (key best)) eqn:Hgt; [assumption|].
  apply gtb_false_iff in Hgt. lra.
Qed.

(** [min] and [max] of a non-empty list return an extremal member. *)
Lemma min_spec {A : Type} (key : A -> R) (l : list A) :
  l <> [] ->
  exists m, Py.min key l = Ok m /\ In m l /\
            forall x, In x l -> key m <= key x.
Proof.
  destruct l as [|b l]; [congruence|intros _].
  exists (min_from key b l); repeat split.
  - apply min_from_In.
  - apply min_from_le.
Qed.

Lemma max_spec {A : Type} (key : A -> R) (l : list A) :
  l <> [] ->
  exists m, Py.max key l = Ok m /\ In m l /\
            forall x, In x l -> key x <= key m.
Proof.
  destruct l as [|b l]; [congruence|intros _].
  exists (max_from key b l); repeat split.
  - apply max_from_In.
  - apply max_from_ge.
Qed.

Lemma truthy_true_iff {A : Type} (l : list A) : truthy l = true <-> l <> [].
Proof. destruct l; simpl; split; congruence. Qed.

Lemma truthy_false_iff {A : Type} (l : list A) : truthy l = false <-> l = [].
Proof. destruct l; simpl; split; congruence. Qed.

Lemma contains_In (x : string) (l : list string) :
  contains x l = true <-> In x l.
Proof.
  unfold contains; rewrite existsb_exists; split.
  - intros [y [Hy Heq]]. apply String.eqb_eq in Heq. now subst.
  - intros H. exists x. split; [assumption|apply String.eqb_refl].
Qed.

Lemma index_In (x : string) (l : list string) :
  In x l -> exists i, Py.index x l = Some i /\ (i < List.length l)%nat.
Proof.
  induction l as [|y l IH]; simpl; [tauto|].
  intros H. destruct (String.eqb y x) eqn:E.
  - exists O; split; [reflexivity|lia].
  - destruct H as [H|H]; [subst; rewrite String.eqb_refl in E; discriminate|].
    destruct (IH H) as [i [Hi Hlt]]. exists (S i). rewrite Hi. split; [reflexivity|lia].
Qed.

(** ** base.py *)

Lemma distance_nonneg (p q : Position) : 0 <= distance p q.
Proof. unfold distance; apply sqrt_pos. Qed.

(** Along the x axis the distance is the absolute difference. *)
Lemma distance_x (x1 x2 y z : R) :
  distance (mkPosition x1 y z) (mkPosition x2 y z) = Rabs (x1 - x2).
Proof.
  unfold distance; cbn [px py pz].
  replace ((x1 - x2) ^ 2 + (y - y) ^ 2 + (z - z) ^ 2) with ((x1 - x2)²)
    by (unfold Rsqr; ring).
  apply sqrt_Rsqr_abs.
Qed.

(** [get_rarity] always answers with a member of [RARITY_ORDER]. *)
Lemma get_rarity_in_order (b : Entity) : In (get_rarity b) RARITY_ORDER.
Proof.
  unfold get_rarity.
  assert (Hc : In (match color b with
    | r :: g :: b0 :: _ =>
        if ltb (Rabs (r - 1.0)) 0.01 && ltb (Rabs (g - 1.0)) 0.01
           && ltb (Rabs (b0 - 1.0)) 0.01 then "Secret"
        else if ltb (Rabs (r - 1.0)) 0.01 && ltb (Rabs (g - 1.0)) 0.01
           && ltb (Rabs (b0 - 0.19607843)) 0.01 then "Legendary"
        else if ltb (Rabs (r - 1.0)) 0.01 && ltb (Rabs (g - 0.5882353)) 0.01
           && ltb (Rabs (b0 - 0.19607843)) 0.01 then "Epic"
        else if ltb (Rabs (r - 0.7058824)) 0.01
           && ltb (Rabs (g - 0.39215687)) 0.01
           && ltb (Rabs (b0 - 1.0)) 0.01 then "Rare"
        else if ltb (Rabs (r - 0.39215687)) 0.01
           && ltb (Rabs (g - 0.5882353)) 0.01
           && ltb (Rabs (b0 - 1.0)) 0.01 then "Uncommon"
        else "Common"
    | _ => "Common"
    end%string) RARITY_ORDER).
  { destruct (color b) as [|r [|g [|b0 rest]]]; try (simpl; tauto).
    repeat match goal with
           | |- context [if ?c then _ else _] => destruct c
           end; simpl; tauto. }
  destruct (or_else (attr_Zone b) (Zone b)) as [z|]; [|exact Hc].
  destruct (negb (String.eqb z EmptyString) && contains z RARITY_ORDER) eqn:E;
    [|exact Hc].
  apply andb_true_iff in E. now apply contains_In.
Qed.

Lemma rarity_priority_index (r : string) (i : nat) :
  Py.index r RARITY_ORDER = Some i -> rarity_priority r = Z.of_nat i.
Proof. unfold rarity_priority; now intros ->. Qed.

Lemma get_rarity_index (b : Entity) :
  exists i, Py.index (get_rarity b) RARITY_ORDER = Some i /\ (i < 6)%nat.
Proof. apply (index_In _ _ (get_rarity_in_order b)). Qed.

(** ** The rarity loops of tryhard.py *)

Lemma same_rarity_nil (candidates : list Entity) (rarity : string) (c : Entity) :
  filter (fun b => String.eqb (get_rarity b) rarity) candidates = [] ->
  In c candidates -> get_rarity c <> rarity.
Proof.
  intros Hnil Hin Heq.
  assert (H : In c (filter (fun b => String.eqb (get_rarity b) rarity) candidates)).
  { apply filter_In; split; [assumption|]. subst. apply String.eqb_refl. }
  rewrite Hnil in H; destruct H.
Qed.

Lemma index_cons_neq (x y : string) (l : list string) :
  y <> x -> Py.index x (y :: l) = option_map S (Py.index x l).
Proof.
  intros H; simpl. destruct (String.eqb y x) eqn:E; [|reflexivity].
  apply String.eqb_eq in E; contradiction.
Qed.

(** The first tier of [order] with a candidate is chosen, and within it the
    farthest candidate. *)
Lemma furthest_loop_spec (pos : Position) (candidates : list Entity)
    (order : list string) (c0 : Entity) :
  In c0 candidates -> In (get_rarity c0) order ->
  exists b i,
    Tryhard.furthest_loop pos candidates order = Ok (Some (b, get_rarity b)) /\
    In b candidates /\
    Py.index (get_rarity b) order = Some i /\
    (forall c j, In c candidates -> Py.index (get_rarity c) order = Some j ->
                 (i <= j)%nat) /\
    (forall c, In c candidates -> get_rarity c = get_rarity b ->
               distance pos (position c) <= distance pos (position b)).
Proof.
  intros Hc0; induction order as [|rarity order IH]; intros Hin; [destruct Hin|].
  simpl Tryhard.furthest_loop.
  destruct (filter (fun b => String.eqb (get_rarity b) rarity) candidates)
    as [|g0 group] eqn:Hg.
  - simpl truthy. cbv iota.
    assert (Hne : forall c, In c candidates -> get_rarity c <> rarity)
      by (intros c Hc; now apply (same_rarity_nil candidates)).
    destruct Hin as [Heq|Hin]; [symmetry in Heq; now apply Hne in Heq|].
    destruct (IH Hin) as [b [i [Hres [Hb [Hi [Hfirst Hfar]]]]]].
    exists b, (S i); repeat split; try assumption.
    + rewrite index_cons_neq by (intros E; apply (Hne b Hb); now symmetry).
      now rewrite Hi.
    + intros c j Hc Hj.
      rewrite index_cons_neq in Hj by (intros E; apply (Hne c Hc); now symmetry).
      destruct (Py.index (get_rarity c) order) as [j'|] eqn:Hj'; [|discriminate].
      injection Hj as <-. specialize (Hfirst c j' Hc Hj'). lia.
  - simpl truthy. cbv iota.
    destruct (max_spec (fun b => distance pos (position b)) (g0 :: group))
      as [m [Hm [Hmin Hmax]]]; [congruence|].
    rewrite Hm. simpl Py.bind.
    rewrite <- Hg in Hmin, Hmax.
    apply filter_In in Hmin. destruct Hmin as [Hmc Hmr].
    apply String.eqb_eq in Hmr.
    exists m, O; repeat split.
    + now rewrite Hmr.
    + assumption.
    + simpl. rewrite Hmr. now rewrite String.eqb_refl.
    + intros; lia.
    + intros c Hc Hr. apply Hmax. apply filter_In; split; [assumption|].
      rewrite Hr, Hmr. apply String.eqb_refl.
Qed.

(** The first tier of [order] with a candidate is chosen, and within it the
    nearest candidate. *)
Lemma nearest_loop_spec (pos : Position) (candidates : list Entity)
    (order : list string) (c0 : Entity) :
  In c0 candidates -> In (get_rarity c0) order ->
  exists b i,
    Tryhard.nearest_loop pos candidates order = Ok (Some (b, get_rarity b)) /\
    In b candidates /\
    Py.index (get_rarity b) order = Some i /\
    (forall c j, In c candidates -> Py.index (get_rarity c) order = Some j ->
                 (i <= j)%nat) /\
    (forall c, In c candidates -> get_rarity c = get_rarity b ->
               distance pos (position b) <= distance pos (position c)).
Proof.
  intros Hc0; induction order as [|rarity order IH]; intros Hin; [destruct Hin|].
  simpl Tryhard.nearest_loop.
  destruct (filter (fun b => String.eqb (get_rarity b) rarity) candidates)
    as [|g0 group] eqn:Hg.
  - simpl truthy. cbv iota.
    assert (Hne : forall c, In c candidates -> get_rarity c <> rarity)
      by (intros c Hc; now apply (same_rarity_nil candidates)).
    destruct Hin as [Heq|Hin]; [symmetry in Heq; now apply Hne in Heq|].
    destruct (IH Hin) as [b [i [Hres [Hb [Hi [Hfirst Hnear]]]]]].
    exists b, (S i); repeat split; try assumption.
    + rewrite index_cons_neq by (intros E; apply (Hne b Hb); now symmetry).
      now rewrite Hi.
    + intros c j Hc Hj.
      rewrite index_cons_neq in Hj by (intros E; apply (Hne c Hc); now symmetry).
      destruct (Py.index (get_rarity c) order) as [j'|] eqn:Hj'; [|discriminate].
      injection Hj as <-. specialize (Hfirst c j' Hc Hj'). lia.
  - simpl truthy. cbv iota.
    destruct (min_spec (fun b => distance pos (position b)) (g0 :: group))
      as [m [Hm [Hmin Hle]]]; [congruence|].
    rewrite Hm. simpl Py.bind.
    rewrite <- Hg in Hmin, Hle.
    apply filter_In in Hmin. destruct Hmin as [Hmc Hmr].
    apply String.eqb_eq in Hmr.
    exists m, O; repeat split.
    + now rewrite Hmr.
    + assumption.
    + simpl. rewrite Hmr. now rewrite String.eqb_refl.
    + intros; lia.
    + intros c Hc Hr. apply Hle. apply filter_In; split; [assumption|].
      rewrite Hr, Hmr. apply String.eqb_refl.
Qed.

(** Without candidates the loops find nothing. *)
Lemma furthest_loop_nil (pos : Position) (order : list string) :
  Tryhard.furthest_loop pos [] order = Ok None.
Proof. induction order; simpl; auto. Qed.

Lemma nearest_loop_nil (pos : Position) (order : list string) :
  Tryhard.nearest_loop pos [] order = Ok None.
Proof. induction order; simpl; auto. Qed.

(** ** Evaluation of concrete snapshots *)

Lemma distance_at_x (x1 x2 : R) :
  distance (Scenario.at_x x1) (Scenario.at_x x2) = Rabs (x1 - x2).
Proof. apply distance_x. Qed.

Lemma position_brainrot (x : R) (zone : string) :
  position (Scenario.brainrot x zone) = Scenario.at_x x.
Proof. reflexivity. Qed.

Lemma px_at_x (x : R) : px (Scenario.at_x x) = x.
Proof. reflexivity. Qed.

Lemma py_at_x (x : R) : py (Scenario.at_x x) = 0.25.
Proof. reflexivity. Qed.

Lemma get_rarity_legendary (x : R) :
  get_rarity (Scenario.brainrot x "Legendary") = "Legendary"%string.
Proof. reflexivity. Qed.

Lemma get_rarity_common (x : R) :
  get_rarity (Scenario.brainrot x "Common") = "Common"%string.
Proof. reflexivity. Qed.

(** Decide the tests of a goal whose numbers and strings are literals. *)
Ltac abs_eval :=
  repeat match goal with
  | |- context [Rabs ?x] =>
      first [ rewrite (Rabs_pos_eq x) by lra | rewrite (Rabs_left x) by lra ]
  end.

Ltac cmp_eval :=
  repeat match goal with
  | |- context [ltb ?x ?y] =>
      first [ rewrite (proj2 (ltb_true_iff x y)) by lra
            | rewrite (proj2 (ltb_false_iff x y)) by lra ]
  | |- context [gtb ?x ?y] =>
      first [ rewrite (proj2 (gtb_true_iff x y)) by lra
            | rewrite (proj2 (gtb_false_iff x y)) by lra ]
  | |- context [geb ?x ?y] =>
      first [ rewrite (proj2 (geb_true_iff x y)) by lra
            | rewrite (proj2 (geb_false_iff x y)) by lra ]
  | |- context [eqb ?x ?y] =>
      first [ rewrite (proj2 (eqb_true_iff x y)) by lra
            | rewrite (proj2 (eqb_false_iff x y)) by lra ]
  end.

Ltac str_eval :=
  rewrite ?get_rarity_legendary, ?get_rarity_common;
  repeat match goal with
  | |- context [String.eqb ?a ?b] =>
      let v := eval vm_compute in (String.eqb a b) in
      progress change (String.eqb a b) with v
  | |- context [String.prefix ?a ?b] =>
      let v := eval vm_compute in (String.prefix a b) in
      progress change (String.prefix a b) with v
  | |- context [Py.index ?a ?l] =>
      let v := eval vm_compute in (Py.index a l) in
      progress change (Py.index a l) with v
  | |- context [Z.geb ?a ?b] =>
      let v := eval vm_compute in (Z.geb a b) in
      progress change (Z.geb a b) with v
  | |- context [Z.gtb ?a ?b] =>
      let v := eval vm_compute in (Z.gtb a b) in
      progress change (Z.gtb a b) with v
  end.

Ltac geo_eval :=
  rewrite ?position_brainrot, ?distance_at_x, ?px_at_x, ?py_at_x;
  abs_eval.

Ltac py_step :=
  cbv zeta; geo_eval; cmp_eval; str_eval;
  cbn [andb negb orb filter filterM Py.bind truthy map fst snd
       Py.min Py.max min_from max_from
       Tryhard.furthest_loop Tryhard.nearest_loop
       Tryhard.safety_modifier Gambler.safety_modifier
       Farmer.safety_modifier Farmer.venture_limit_x
       Farmer.min_rarity_priority].

Ltac py_eval :=
  unfold Tryhard.find_target, Tryhard.reachable, Tryhard.valid,
    Tryhard._furthest_by_rarity, Tryhard._find_nearest_valuable,
    Tryhard.can_reach_before_tsunami, Tryhard._player_speed,
    Tryhard._base_safety_margin, Tryhard._move_or_collect,
    Tryhard.AGGRESSIVE_THRESHOLD,
    Gambler.find_target, Gambler.valid, Gambler.is_safe_enough,
    Gambler._ticks_to_return, Gambler._ticks_available,
    Gambler._player_speed, Gambler._move_or_collect,
    Farmer.find_target, Farmer.valid, Farmer.in_zone, Farmer.is_safe,
    Farmer.meets_rarity,
    Farmer._player_speed, Farmer._move_or_collect,
    is_in_base_zone, BASE_ZONE_X, RARITY_ORDER,
    PLAYER_SPEED_BASE, PLAYER_SPEED_PER_LEVEL, TSUNAMI_SPEED, Py.div;
  repeat progress py_step.

(** ** tryhard.py *)

Lemma tryhard_speed_pos (speed_level : R) :
  1 <= speed_level -> 16 <= Tryhard._player_speed speed_level.
Proof.
  intros H; unfold Tryhard._player_speed, PLAYER_SPEED_BASE, PLAYER_SPEED_PER_LEVEL.
  nra.
Qed.

Lemma tryhard_margin_bounds (speed_level : R) :
  3 <= Tryhard._base_safety_margin speed_level <= 6.
Proof.
  unfold Tryhard._base_safety_margin.
  destruct (geb speed_level 10); [lra|].
  destruct (geb speed_level 8); [lra|].
  destruct (geb speed_level 5); lra.
Qed.

(** With a non-zero speed the reachability test is the comparison of the
    round trip with the time left minus the margin. *)
Lemma can_reach_ok (self : Tryhard.Strategy) (p b d : Position) (tx lvl : R) :
  Tryhard._player_speed lvl <> 0 ->
  Tryhard.can_reach_before_tsunami self p b d tx lvl =
  Ok (ltb (distance p b / Tryhard._player_speed lvl + 1.0
           + distance b d / Tryhard._player_speed lvl)
          ((px d - tx) / TSUNAMI_SPEED
           - Tryhard._base_safety_margin lvl * Tryhard.safety_modifier self)).
Proof.
  intros Hs; unfold Tryhard.can_reach_before_tsunami.
  cbv zeta. rewrite !div_ok by assumption. reflexivity.
Qed.

Lemma can_reach_true (self : Tryhard.Strategy) (p b d : Position) (tx lvl : R) :
  Tryhard.can_reach_before_tsunami self p b d tx lvl = Ok true ->
  Tryhard._player_speed lvl <> 0 /\
  distance p b / Tryhard._player_speed lvl + 1.0
    + distance b d / Tryhard._player_speed lvl
  < (px d - tx) / TSUNAMI_SPEED
    - Tryhard._base_safety_margin lvl * Tryhard.safety_modifier self.
Proof.
  intros H.
  destruct (Req_dec_T (Tryhard._player_speed lvl) 0) as [E|E].
  - unfold Tryhard.can_reach_before_tsunami in H. cbv zeta in H.
    rewrite E, div_raise in H. discriminate.
  - split; [assumption|].
    rewrite can_reach_ok in H by assumption.
    injection H as H. now apply ltb_true_iff.
Qed.

(** The round trip takes at least the interaction delay. *)
Lemma round_trip_ge_1 (p b d : Position) (speed : R) :
  0 < speed -> 1 <= distance p b / speed + 1.0 + distance b d / speed.
Proof.
  intros Hs.
  pose proof (distance_nonneg p b) as H1.
  pose proof (distance_nonneg b d) as H2.
  assert (0 <= distance p b / speed) by (apply Rle_mult_inv_pos; assumption).
  assert (0 <= distance b d / speed) by (apply Rle_mult_inv_pos; assumption).
  lra.
Qed.

(** Once the hazard is past the base nothing is reachable under a
    non-negative margin. *)
Lemma passed_not_reachable (self : Tryhard.Strategy) (p b d : Position)
    (tx lvl : R) :
  0 <= Tryhard.safety_modifier self -> 1 <= lvl -> tx > px d ->
  Tryhard.can_reach_before_tsunami self p b d tx lvl <> Ok true.
Proof.
  intros Hsm Hlvl Htx H.
  apply can_reach_true in H. destruct H as [_ H].
  pose proof (tryhard_speed_pos lvl Hlvl) as Hs.
  pose proof (round_trip_ge_1 p b d (Tryhard._player_speed lvl)) as Ht.
  pose proof (tryhard_margin_bounds lvl) as Hm.
  assert (Hu : (px d - tx) / TSUNAMI_SPEED < 0).
  { unfold TSUNAMI_SPEED. lra. }
  assert (0 <= Tryhard._base_safety_margin lvl * Tryhard.safety_modifier self)
    by (apply Rmult_le_pos; lra).
  lra.
Qed.

(** With a positive speed the comprehension [reachable] never raises. *)
Lemma reachable_ok (self : Tryhard.Strategy) (pos : Position)
    (brainrots : list Entity) (tx : R) (base : Position) (lvl : R) :
  Tryhard._player_speed lvl <> 0 ->
  exists reach,
    Tryhard.reachable self pos brainrots tx base lvl = Ok reach /\
    forall b, In b reach -> In b (Tryhard.valid brainrots).
Proof.
  intros Hs. unfold Tryhard.reachable.
  erewrite filterM_ok by (intros x _; apply can_reach_ok; assumption).
  eexists; split; [reflexivity|].
  intros b Hb. now apply filter_In in Hb.
Qed.

Lemma move_or_collect_not_wait (pos : Position) (b : Entity)
    (rarity event ev : string) :
  Tryhard._move_or_collect pos b rarity event <> Wait ev.
Proof.
  unfold Tryhard._move_or_collect; cbv zeta.
  destruct (ltb (distance pos (position b)) 5); discriminate.
Qed.

(** C1.  Aggressive-Safe, with a non-negative safety modifier and a speed
    level of at least 1 (the data model): whenever some valid candidate is
    reachable under the tiered margin, [find_target] targets a reachable
    candidate of the highest-priority rarity tier that has a reachable
    member, and no reachable candidate of that tier is farther from the
    player. *)
Theorem tryhard_targets_farthest_of_best_reachable_tier
    (self : Tryhard.Strategy) (pos : Position) (brainrots : list Entity)
    (tsunami_x : R) (base_center : Position) (speed_level money : R)
    (attrs : Attrs) (reach : list Entity) (c0 : Entity) :
  0 <= Tryhard.safety_modifier self ->
  1 <= speed_level ->
  Tryhard.reachable self pos brainrots tsunami_x base_center speed_level
    = Ok reach ->
  In c0 reach ->
  exists b,
    In b reach /\
    Tryhard.find_target self pos brainrots tsunami_x base_center speed_level
      money attrs
    = Ok (Some (Tryhard._move_or_collect pos b (get_rarity b)
                  ("targeting " ++ get_rarity b))) /\
    (forall c, In c reach ->
       (rarity_priority (get_rarity b) <= rarity_priority (get_rarity c))%Z) /\
    (forall c, In c reach -> get_rarity c = get_rarity b ->
       distance pos (position c) <= distance pos (position b)).
Proof.
  intros Hsm Hlvl Hreach Hc0.
  destruct (furthest_loop_spec pos reach RARITY_ORDER c0 Hc0
              (get_rarity_in_order c0))
    as [b [i [Hloop [Hb [Hi [Hfirst Hfar]]]]]].
  exists b. split; [assumption|]. split; [|split].
  - unfold Tryhard.find_target. cbv zeta. rewrite Hreach. cbn [Py.bind].
    assert (Ht : truthy reach = true) by (destruct reach; [destruct Hc0|reflexivity]).
    rewrite Ht. cbn [negb]. rewrite andb_false_r. cbn [andb].
    assert (Hp : gtb tsunami_x (px base_center) = false).
    { destruct (gtb tsunami_x (px base_center)) eqn:E; [|reflexivity].
      apply gtb_true_iff in E.
      destruct (filterM_In _ _ _ _ Hreach Hc0) as [_ Hcan].
      now apply passed_not_reachable in Hcan. }
    rewrite Hp, andb_false_r. cbn [andb Py.bind].
    unfold Tryhard._furthest_by_rarity. rewrite Hloop. reflexivity.
  - intros c Hc.
    destruct (get_rarity_index c) as [j [Hj _]].
    rewrite (rarity_priority_index _ _ Hi), (rarity_priority_index _ _ Hj).
    specialize (Hfirst c j Hc Hj). lia.
  - exact Hfar.
Qed.

Lemma scenario1_reachable :
  Tryhard.reachable Scenario.tryhard1 (Scenario.at_x 340)
    [Scenario.legendary_far; Scenario.common_near] (-500) Scenario.base 1
  = Ok [Scenario.legendary_far; Scenario.common_near].
Proof.
  unfold Scenario.legendary_far, Scenario.common_near, Scenario.base,
    Scenario.tryhard1.
  py_eval. reflexivity.
Qed.

Lemma tryhard_targets_farthest_of_best_reachable_tier_witness :
  (0 <= Tryhard.safety_modifier Scenario.tryhard1 /\
   1 <= 1 /\
   Tryhard.reachable Scenario.tryhard1 (Scenario.at_x 340)
     [Scenario.legendary_far; Scenario.common_near] (-500) Scenario.base 1
   = Ok [Scenario.legendary_far; Scenario.common_near] /\
   In Scenario.legendary_far [Scenario.legendary_far; Scenario.common_near]) /\
  exists b,
    In b [Scenario.legendary_far; Scenario.common_near] /\
    Tryhard.find_target Scenario.tryhard1 (Scenario.at_x 340)
      [Scenario.legendary_far; Scenario.common_near] (-500) Scenario.base 1
      0 Scenario.no_attrs
    = Ok (Some (Tryhard._move_or_collect (Scenario.at_x 340) b (get_rarity b)
                  ("targeting " ++ get_rarity b))) /\
    (forall c, In c [Scenario.legendary_far; Scenario.common_near] ->
       (rarity_priority (get_rarity b) <= rarity_priority (get_rarity c))%Z) /\
    (forall c, In c [Scenario.legendary_far; Scenario.common_near] ->
       get_rarity c = get_rarity b ->
       distance (Scenario.at_x 340) (position c)
       <= distance (Scenario.at_x 340) (position b)).
Proof.
  assert (H0 : 0 <= Tryhard.safety_modifier Scenario.tryhard1)
    by (simpl; lra).
  assert (H1 : 1 <= 1) by lra.
  assert (H3 : In Scenario.legendary_far
                 [Scenario.legendary_far; Scenario.common_near])
    by (simpl; auto).
  split.
  - repeat split; [exact H0 | exact H1 | exact scenario1_reachable | exact H3].
  - exact (tryhard_targets_farthest_of_best_reachable_tier
             Scenario.tryhard1 (Scenario.at_x 340)
             [Scenario.legendary_far; Scenario.common_near] (-500)
             Scenario.base 1 0 Scenario.no_attrs
             [Scenario.legendary_far; Scenario.common_near]
             Scenario.legendary_far H0 H1 scenario1_reachable H3).
Defined.

(** Scenario 1: the Legendary at distance 40 is targeted, not the Common at
    distance 5. *)
Example scenario1_targets_legendary :
  Tryhard.find_target Scenario.tryhard1 (Scenario.at_x 340)
    [Scenario.legendary_far; Scenario.common_near] (-500) Scenario.base 1
    0 Scenario.no_attrs
  = Ok (Some (MoveTo (Scenario.at_x 300) "Legendary" "targeting Legendary")).
Proof.
  unfold Scenario.legendary_far, Scenario.common_near, Scenario.base,
    Scenario.tryhard1.
  py_eval. reflexivity.
Qed.

(** What escapes a comprehension that did not raise. *)
Lemma filterM_complete {A : Type} (p : A -> result bool) (l out : list A)
    (x : A) :
  filterM p l = Ok out -> In x l -> p x = Ok true -> In x out.
Proof.
  revert out; induction l as [|y l IH]; intros out H Hin Hp; [destruct Hin|].
  simpl in H.
  destruct (p y) as [keep|e] eqn:Hy; simpl in H; [|discriminate].
  destruct (filterM p l) as [rest|e] eqn:Hr; simpl in H; [|discriminate].
  injection H as <-.
  destruct Hin as [->|Hin].
  - rewrite Hp in Hy. injection Hy as <-. now left.
  - specialize (IH rest eq_refl Hin Hp). destruct keep; [now right|assumption].
Qed.

Lemma filterM_no_raise {A : Type} (p : A -> result bool) (l out : list A)
    (x : A) :
  filterM p l = Ok out -> In x l -> exists keep, p x = Ok keep.
Proof.
  revert out; induction l as [|y l IH]; intros out H Hin; [destruct Hin|].
  simpl in H.
  destruct (p y) as [keep|e] eqn:Hy; simpl in H; [|discriminate].
  destruct (filterM p l) as [rest|e] eqn:Hr; simpl in H; [|discriminate].
  destruct Hin as [->|Hin]; [now exists keep|].
  now apply (IH rest).
Qed.

Lemma can_reach_no_raise (self : Tryhard.Strategy) (p b d : Position)
    (tx lvl : R) (keep : bool) :
  Tryhard.can_reach_before_tsunami self p b d tx lvl = Ok keep ->
  Tryhard._player_speed lvl <> 0.
Proof.
  intros H E. unfold Tryhard.can_reach_before_tsunami in H. cbv zeta in H.
  rewrite E, div_raise in H. discriminate.
Qed.

(** C7.  For a fixed player position, candidate, deposit point, hazard x and
    speed level, and two safety margins [m1 <= m2] (the tiered base margin
    times the safety modifier of each strategy): what is reachable under
    [m2] is reachable under [m1], for one candidate and for the whole
    reachable set. *)
Theorem reachable_shrinks_as_margin_grows
    (self1 self2 : Tryhard.Strategy) (pos : Position)
    (brainrots : list Entity) (tsunami_x : R) (base_center : Position)
    (speed_level : R) :
  Tryhard._base_safety_margin speed_level * Tryhard.safety_modifier self1
  <= Tryhard._base_safety_margin speed_level * Tryhard.safety_modifier self2 ->
  (forall brainrot_pos,
     Tryhard.can_reach_before_tsunami self2 pos brainrot_pos base_center
       tsunami_x speed_level = Ok true ->
     Tryhard.can_reach_before_tsunami self1 pos brainrot_pos base_center
       tsunami_x speed_level = Ok true) /\
  (forall reach2,
     Tryhard.reachable self2 pos brainrots tsunami_x base_center speed_level
       = Ok reach2 ->
     exists reach1,
       Tryhard.reachable self1 pos brainrots tsunami_x base_center speed_level
         = Ok reach1 /\
       forall b, In b reach2 -> In b reach1).
Proof.
  intros Hm.
  assert (Hone : forall brainrot_pos,
     Tryhard.can_reach_before_tsunami self2 pos brainrot_pos base_center
       tsunami_x speed_level = Ok true ->
     Tryhard.can_reach_before_tsunami self1 pos brainrot_pos base_center
       tsunami_x speed_level = Ok true).
  { intros bp H. apply can_reach_true in H. destruct H as [Hs H].
    rewrite can_reach_ok by assumption. f_equal.
    apply ltb_true_iff. lra. }
  split; [exact Hone|].
  intros reach2 H2. unfold Tryhard.reachable in *.
  destruct (Tryhard.valid brainrots) as [|v0 vs] eqn:Hv.
  - simpl in H2. injection H2 as <-. exists []. split; [reflexivity|tauto].
  - destruct (filterM_no_raise _ _ _ v0 H2 (or_introl eq_refl)) as [k Hk].
    apply can_reach_no_raise in Hk.
    erewrite filterM_ok by (intros x _; apply can_reach_ok; assumption).
    eexists; split; [reflexivity|].
    intros b Hb.
    destruct (filterM_In _ _ _ _ H2 Hb) as [Hin Hcan].
    apply Hone in Hcan. rewrite can_reach_ok in Hcan by assumption.
    injection Hcan as Hcan.
    apply filter_In; split; assumption.
Qed.

Lemma reachable_shrinks_as_margin_grows_witness :
  Tryhard._base_safety_margin 1 * Tryhard.safety_modifier (Tryhard.mkStrategy 1)
  <= Tryhard._base_safety_margin 1 * Tryhard.safety_modifier (Tryhard.mkStrategy 2)
  /\
  ((forall brainrot_pos,
     Tryhard.can_reach_before_tsunami (Tryhard.mkStrategy 2) (Scenario.at_x 340)
       brainrot_pos Scenario.base (-500) 1 = Ok true ->
     Tryhard.can_reach_before_tsunami (Tryhard.mkStrategy 1) (Scenario.at_x 340)
       brainrot_pos Scenario.base (-500) 1 = Ok true) /\
   (forall reach2,
     Tryhard.reachable (Tryhard.mkStrategy 2) (Scenario.at_x 340)
       [Scenario.legendary_far; Scenario.common_near] (-500) Scenario.base 1
       = Ok reach2 ->
     exists reach1,
       Tryhard.reachable (Tryhard.mkStrategy 1) (Scenario.at_x 340)
         [Scenario.legendary_far; Scenario.common_near] (-500) Scenario.base 1
         = Ok reach1 /\
       forall b, In b reach2 -> In b reach1)).
Proof.
  assert (H : Tryhard._base_safety_margin 1
                * Tryhard.safety_modifier (Tryhard.mkStrategy 1)
              <= Tryhard._base_safety_margin 1
                * Tryhard.safety_modifier (Tryhard.mkStrategy 2)).
  { unfold Tryhard._base_safety_margin. cmp_eval. simpl. lra. }
  split; [exact H|].
  exact (reachable_shrinks_as_margin_grows (Tryhard.mkStrategy 1)
           (Tryhard.mkStrategy 2) (Scenario.at_x 340)
           [Scenario.legendary_far; Scenario.common_near] (-500)
           Scenario.base 1 H).
Defined.

(** The hypothesis of the witness is not vacuous: under the larger margin the
    Common at distance 5 is reachable. *)
Example margin2_reaches_common :
  Tryhard.can_reach_before_tsunami (Tryhard.mkStrategy 2) (Scenario.at_x 340)
    (Scenario.at_x 335) Scenario.base (-500) 1 = Ok true.
Proof. unfold Scenario.base. py_eval. reflexivity. Qed.

Lemma filter_none {A : Type} (f : A -> bool) (l : list A) :
  (forall x, In x l -> f x = false) -> filter f l = [].
Proof.
  induction l as [|x l IH]; intros H; simpl; [reflexivity|].
  rewrite (H x) by now left. apply IH. intros y Hy. apply H. now right.
Qed.

(** Below the activity threshold the hazard-wait rule is off. *)
Lemma tryhard_no_wait_when_inactive (self : Tryhard.Strategy) (pos : Position)
    (brainrots : list Entity) (tsunami_x : R) (base_center : Position)
    (speed_level money : R) (attrs : Attrs) (ev : string) :
  tsunami_x <= -400 ->
  Tryhard.find_target self pos brainrots tsunami_x base_center speed_level
    money attrs <> Ok (Some (Wait ev)).
Proof.
  intros Hx. unfold Tryhard.find_target. cbv zeta.
  destruct (Tryhard.reachable self pos brainrots tsunami_x base_center
              speed_level) as [reach|e]; cbn [Py.bind]; [|discriminate].
  rewrite (proj2 (gtb_false_iff tsunami_x (-400)) Hx). cbn [andb].
  destruct (if geb money Tryhard.AGGRESSIVE_THRESHOLD
               && gtb tsunami_x (px base_center)
               && ltb (distance pos base_center) 20
            then Tryhard._find_nearest_valuable pos (Tryhard.valid brainrots)
            else Ok None) as [[[b r]|]|e]; cbn [Py.bind]; try discriminate.
  - intros H. injection H as H. now apply move_or_collect_not_wait in H.
  - destruct (Tryhard._furthest_by_rarity pos reach) as [[[b r]|]|e];
      cbn [Py.bind]; try discriminate.
    + intros H. injection H as H. now apply move_or_collect_not_wait in H.
    + destruct (truthy (Tryhard.valid brainrots)); [|discriminate].
      destruct (Py.min (fun b => distance pos (position b))
                  (Tryhard.valid brainrots)) as [n|e];
        cbn [Py.bind]; [|discriminate].
      intros H. injection H as H. now apply move_or_collect_not_wait in H.
Qed.

(** With waves on the map the hazard front is the least of their x. *)
Example two_waves_front :
  tsunami_x_of [Scenario.wave 120 "TsunamiWave_1"; Scenario.common_near;
                Scenario.wave 80 "TsunamiWave_2"] = Ok 80.
Proof.
  unfold tsunami_x_of, Scenario.wave, Scenario.common_near, Scenario.brainrot.
  cbv zeta. cbn [filter name get]. str_eval.
  cbn [truthy map position px Scenario.at_x Py.min min_from].
  cmp_eval. reflexivity.
Qed.

(** C8.  A snapshot without hazard-wave entities resolves the hazard front to
    the sentinel [-500] without raising; that value is not above the
    activity threshold of Aggressive-Safe, whose [find_target] then never
    answers [Wait]. *)
Theorem no_wave_resolves_to_inactive_sentinel (state : State) :
  (forall e, In e (entities state) ->
     String.prefix "TsunamiWave" (get (name e) EmptyString) = false) ->
  tsunami_x_of (entities state) = Ok (-500) /\
  gtb (-500) (-400) = false /\
  forall self pos brainrots base_center speed_level money attrs ev,
    Tryhard.find_target self pos brainrots (-500) base_center speed_level
      money attrs <> Ok (Some (Wait ev)).
Proof.
  intros Hnone. split; [|split].
  - unfold tsunami_x_of. cbv zeta. rewrite (filter_none _ _ Hnone). reflexivity.
  - apply gtb_false_iff. lra.
  - intros. apply tryhard_no_wait_when_inactive. lra.
Qed.

Lemma no_wave_resolves_to_inactive_sentinel_witness :
  (forall e, In e [Scenario.legendary_far; Scenario.common_near] ->
     String.prefix "TsunamiWave" (get (name e) EmptyString) = false) /\
  tsunami_x_of [Scenario.legendary_far; Scenario.common_near] = Ok (-500) /\
  gtb (-500) (-400) = false /\
  forall self pos brainrots base_center speed_level money attrs ev,
    Tryhard.find_target self pos brainrots (-500) base_center speed_level
      money attrs <> Ok (Some (Wait ev)).
Proof.
  assert (H : forall e, In e [Scenario.legendary_far; Scenario.common_near] ->
     String.prefix "TsunamiWave" (get (name e) EmptyString) = false).
  { intros e [<-|[<-|[]]]; reflexivity. }
  split; [exact H|].
  exact (no_wave_resolves_to_inactive_sentinel
           (mkState None Scenario.no_attrs
              [Scenario.legendary_far; Scenario.common_near]) H).
Defined.

(** The first tier of [RARITY_ORDER] present among the candidates is chosen,
    and within it the candidate nearest to the player. *)
Lemma find_nearest_valuable_spec (pos : Position) (candidates : list Entity)
    (c0 : Entity) :
  In c0 candidates ->
  exists b,
    Tryhard._find_nearest_valuable pos candidates = Ok (Some (b, get_rarity b)) /\
    In b candidates /\
    (forall c, In c candidates ->
       (rarity_priority (get_rarity b) <= rarity_priority (get_rarity c))%Z) /\
    (forall c, In c candidates -> get_rarity c = get_rarity b ->
       distance pos (position b) <= distance pos (position c)).
Proof.
  intros Hc0.
  destruct (nearest_loop_spec pos candidates RARITY_ORDER c0 Hc0
              (get_rarity_in_order c0))
    as [b [i [Hloop [Hb [Hi [Hfirst Hnear]]]]]].
  exists b. repeat split; try assumption.
  intros c Hc.
  destruct (get_rarity_index c) as [j [Hj _]].
  rewrite (rarity_priority_index _ _ Hi), (rarity_priority_index _ _ Hj).
  specialize (Hfirst c j Hc Hj). lia.
Qed.

(** Under a non-negative margin and a speed level of at least 1, nothing is
    reachable once the hazard is past the base center. *)
Lemma passed_reachable_nil (self : Tryhard.Strategy) (pos : Position)
    (brainrots : list Entity) (tsunami_x : R) (base_center : Position)
    (speed_level : R) :
  0 <= Tryhard.safety_modifier self -> 1 <= speed_level ->
  tsunami_x > px base_center ->
  Tryhard.reachable self pos brainrots tsunami_x base_center speed_level
  = Ok [].
Proof.
  intros Hsm Hlvl Hpassed.
  pose proof (tryhard_speed_pos speed_level Hlvl) as Hs.
  destruct (reachable_ok self pos brainrots tsunami_x base_center speed_level)
    as [reach [Hreach _]]; [lra|].
  rewrite Hreach. destruct reach as [|b reach]; [reflexivity|].
  destruct (filterM_In _ _ _ b Hreach (or_introl eq_refl)) as [_ Hb].
  now apply passed_not_reachable in Hb.
Qed.

(** The hazard-wait rule is tested before the aggressive rule and covers
    it. *)
Lemma passed_near_base_waits (self : Tryhard.Strategy) (pos : Position)
    (brainrots : list Entity) (tsunami_x : R) (base_center : Position)
    (speed_level money : R) (attrs : Attrs) :
  0 <= Tryhard.safety_modifier self -> 1 <= speed_level ->
  -400 <= px base_center ->
  tsunami_x > px base_center ->
  distance pos base_center < 20 ->
  Tryhard.find_target self pos brainrots tsunami_x base_center speed_level
    money attrs
  = Ok (Some (Wait "waiting for wave reset")).
Proof.
  intros Hsm Hlvl Hbase Hpassed Hnear.
  unfold Tryhard.find_target. cbv zeta.
  rewrite (passed_reachable_nil self pos brainrots tsunami_x base_center
             speed_level Hsm Hlvl Hpassed).
  cbn [Py.bind truthy negb].
  assert (Hactive : tsunami_x > -400) by lra.
  rewrite (proj2 (gtb_true_iff tsunami_x (-400)) Hactive).
  rewrite (proj2 (ltb_true_iff (distance pos base_center) 20) Hnear).
  reflexivity.
Qed.

(** C3, a defect of the code.  Aggressive-Safe under the data model (a
    non-negative safety modifier, a speed level of at least 1, the base
    center at x >= -400; the base zone is x > 350): whenever the hazard is
    past the base center and the player is within the near-base radius,
    [find_target] answers [Wait], whatever the money and the candidates.  The
    hazard-wait rule, tested first, fires in every snapshot that satisfies
    the guard of the aggressive rule of lines 57-64, which is therefore
    never applied: with money above the threshold the nearest valid
    candidate is not targeted, nothing is. *)
Theorem tryhard_aggressive_rule_shadowed_by_wait
    (self : Tryhard.Strategy) (pos : Position) (brainrots : list Entity)
    (tsunami_x : R) (base_center : Position) (speed_level money : R)
    (attrs : Attrs) :
  0 <= Tryhard.safety_modifier self -> 1 <= speed_level ->
  -400 <= px base_center ->
  tsunami_x > px base_center ->
  distance pos base_center < 20 ->
  Tryhard.find_target self pos brainrots tsunami_x base_center speed_level
    money attrs
  = Ok (Some (Wait "waiting for wave reset")) /\
  (money > 2500 ->
   ~ AsStated.aggressive_targets_nearest_valid self pos brainrots tsunami_x
       base_center speed_level money attrs).
Proof.
  intros Hsm Hlvl Hbase Hpassed Hnear.
  pose proof (passed_near_base_waits self pos brainrots tsunami_x base_center
                speed_level money attrs Hsm Hlvl Hbase Hpassed Hnear) as Hwait.
  split; [exact Hwait|].
  intros Hmoney H.
  destruct (H Hmoney Hpassed Hnear) as [b [ev [_ [Hfind _]]]].
  rewrite Hwait in Hfind. injection Hfind as Hfind.
  symmetry in Hfind. now apply move_or_collect_not_wait in Hfind.
Qed.

Lemma common_left_waits :
  Tryhard.find_target Scenario.tryhard1 (Scenario.at_x 370)
    [Scenario.common_left] 400 Scenario.base 1 3000 Scenario.no_attrs
  = Ok (Some (Wait "waiting for wave reset")).
Proof.
  unfold Scenario.common_left, Scenario.base, Scenario.tryhard1.
  py_eval. reflexivity.
Qed.

(** The snapshot that shows it: the hazard at x = 400, past the base center
    at x = 375, money 3000, the player 5 units from the base center and a
    valid Common 30 units away. *)
Lemma tryhard_aggressive_rule_shadowed_by_wait_witness :
  (0 <= Tryhard.safety_modifier Scenario.tryhard1 /\ 1 <= 1 /\
   -400 <= px Scenario.base /\ 400 > px Scenario.base /\
   distance (Scenario.at_x 370) Scenario.base < 20 /\ 3000 > 2500 /\
   In Scenario.common_left (Tryhard.valid [Scenario.common_left])) /\
  Tryhard.find_target Scenario.tryhard1 (Scenario.at_x 370)
    [Scenario.common_left] 400 Scenario.base 1 3000 Scenario.no_attrs
  = Ok (Some (Wait "waiting for wave reset")) /\
  (3000 > 2500 ->
   ~ AsStated.aggressive_targets_nearest_valid Scenario.tryhard1
       (Scenario.at_x 370) [Scenario.common_left] 400 Scenario.base 1 3000
       Scenario.no_attrs).
Proof.
  assert (H1 : 0 <= Tryhard.safety_modifier Scenario.tryhard1) by (simpl; lra).
  assert (H2 : 1 <= 1) by lra.
  assert (H3 : -400 <= px Scenario.base) by (simpl; lra).
  assert (H4 : 400 > px Scenario.base) by (simpl; lra).
  assert (H5 : distance (Scenario.at_x 370) Scenario.base < 20).
  { unfold Scenario.base. geo_eval. lra. }
  assert (H6 : 3000 > 2500) by lra.
  assert (H7 : In Scenario.common_left (Tryhard.valid [Scenario.common_left])).
  { unfold Scenario.common_left. py_eval. now left. }
  exact (conj (conj H1 (conj H2 (conj H3 (conj H4 (conj H5 (conj H6 H7))))))
           (tryhard_aggressive_rule_shadowed_by_wait Scenario.tryhard1
              (Scenario.at_x 370) [Scenario.common_left] 400 Scenario.base 1
              3000 Scenario.no_attrs H1 H2 H3 H4 H5)).
Defined.

(** C3 fails as stated: with the hazard at x = 400, past the base center at
    x = 375, money 3000 and the player 5 units from the base center, the
    policy answers [Wait] and targets nothing, although a valid Common is on
    the map. *)
Lemma aggressive_mode_shadowed_by_wait :
  ~ AsStated.aggressive_targets_nearest_valid Scenario.tryhard1
      (Scenario.at_x 370) [Scenario.common_left] 400 Scenario.base 1 3000
      Scenario.no_attrs.
Proof.
  unfold AsStated.aggressive_targets_nearest_valid. intros H.
  destruct H as [b [ev [_ [H _]]]].
  - lra.
  - simpl. lra.
  - unfold Scenario.base. geo_eval. lra.
  - rewrite common_left_waits in H. injection H as H.
    symmetry in H. now apply move_or_collect_not_wait in H.
Qed.

(** ** gambler.py *)

Lemma gambler_safe_true (self : Gambler.Strategy) (b d : Position)
    (tx lvl : R) :
  Gambler.is_safe_enough self b d tx lvl = Ok true <->
  Gambler._player_speed lvl <> 0 /\
  distance b d / Gambler._player_speed lvl
  < (px d - tx) / TSUNAMI_SPEED - Gambler.safety_modifier self.
Proof.
  unfold Gambler.is_safe_enough, Gambler._ticks_to_return,
    Gambler._ticks_available. cbv zeta.
  destruct (Req_dec_T (Gambler._player_speed lvl) 0) as [E|E].
  - rewrite E, div_raise. cbn [Py.bind]. split; [discriminate|tauto].
  - rewrite div_ok by assumption. cbn [Py.bind]. split.
    + intros H. injection H as H. apply ltb_true_iff in H. tauto.
    + intros [_ H]. f_equal. now apply ltb_true_iff.
Qed.

(** C2, as the code has it.  The Risk-Seeking safety check passes exactly
    when the speed is not zero and ticksToReturn, the distance from the
    target to the deposit point divided by the speed, is below
    ticksUntilHazard minus the safety modifier; the trip from the player to
    the target is not part of it. *)
Theorem gambler_check_is_return_trip_only (self : Gambler.Strategy)
    (brainrot_pos deposit_pos : Position) (tsunami_x speed_level : R) :
  Gambler.is_safe_enough self brainrot_pos deposit_pos tsunami_x speed_level
  = Ok true
  <->
  Gambler._player_speed speed_level <> 0 /\
  distance brainrot_pos deposit_pos / Gambler._player_speed speed_level
  < (px deposit_pos - tsunami_x) / TSUNAMI_SPEED - Gambler.safety_modifier self.
Proof. apply gambler_safe_true. Qed.

(** C2 fails as stated: a target 32 units from the deposit point with the
    hazard 150 units behind it passes the check (2 < 3 - 0.5), while the
    round trip of a player standing on the target, 1 + 2 ticks, is not below
    2.5. *)
Lemma gambler_check_ignores_ticks_to_collect :
  ~ AsStated.gambler_check_is_round_trip Scenario.gambler1
      (Scenario.at_x 343) (Scenario.at_x 343) Scenario.base 225 1.
Proof.
  unfold AsStated.gambler_check_is_round_trip. intros [H _].
  assert (Hsafe : Gambler.is_safe_enough Scenario.gambler1 (Scenario.at_x 343)
                    Scenario.base 225 1 = Ok true).
  { unfold Scenario.base, Scenario.gambler1. py_eval. reflexivity. }
  specialize (H Hsafe). revert H.
  unfold Scenario.base, Scenario.gambler1, Gambler._player_speed,
    PLAYER_SPEED_BASE, PLAYER_SPEED_PER_LEVEL, TSUNAMI_SPEED.
  geo_eval. cbn [Gambler.safety_modifier]. lra.
Qed.

(** The priority computed in the loop of [find_target] is
    [rarity_priority]. *)
Lemma gambler_priority (r : string) :
  (if contains r RARITY_ORDER then
     match Py.index r RARITY_ORDER with
     | Some i => Z.of_nat i
     | None => Z.of_nat (List.length RARITY_ORDER)
     end
   else Z.of_nat (List.length RARITY_ORDER)) = rarity_priority r.
Proof.
  unfold rarity_priority.
  destruct (contains r RARITY_ORDER) eqn:E; [reflexivity|].
  destruct (Py.index r RARITY_ORDER) as [i|] eqn:Hi; [|reflexivity].
  exfalso.
  assert (Hin : In r RARITY_ORDER).
  { clear E. revert i Hi. induction RARITY_ORDER as [|y l IH]; intros i Hi;
      [discriminate|].
    simpl in Hi. destruct (String.eqb y r) eqn:Ey.
    - apply String.eqb_eq in Ey. now left.
    - destruct (Py.index r l) as [j|]; [|discriminate]. right. now apply (IH j). }
  apply contains_In in Hin. congruence.
Qed.

Lemma rarity_priority_lt_6 (b : Entity) :
  (rarity_priority (get_rarity b) < 6)%Z.
Proof.
  destruct (get_rarity_index b) as [i [Hi Hlt]].
  rewrite (rarity_priority_index _ _ Hi). lia.
Qed.

(** The loop keeps the first candidate of the least priority number. *)
Lemma best_fold_spec (l : list Entity) (best : option (Entity * string))
    (bp : Z) :
  exists best' bp',
    fold_left Gambler.best_step l (best, bp) = (best', bp') /\
    (bp' <= bp)%Z /\
    (forall c, In c l -> (bp' <= rarity_priority (get_rarity c))%Z) /\
    ((best' = best /\ bp' = bp) \/
     exists b, In b l /\ best' = Some (b, get_rarity b) /\
               bp' = rarity_priority (get_rarity b)).
Proof.
  revert best bp; induction l as [|x l IH]; intros best bp.
  - exists best, bp. simpl. repeat split; try lia; tauto.
  - cbn [fold_left]. unfold Gambler.best_step at 2. cbv zeta.
    rewrite gambler_priority.
    destruct (rarity_priority (get_rarity x) <? bp)%Z eqn:E.
    + apply Z.ltb_lt in E.
      destruct (IH (Some (x, get_rarity x)) (rarity_priority (get_rarity x)))
        as [best' [bp' [Hf [Hle [Hall Hcase]]]]].
      exists best', bp'. split; [exact Hf|]. split; [lia|]. split.
      * intros c [<-|Hc]; [lia|now apply Hall].
      * right. destruct Hcase as [[-> ->]|[b [Hb [-> ->]]]].
        -- exists x. split; [now left|]. split; reflexivity.
        -- exists b. split; [now right|]. split; reflexivity.
    + apply Z.ltb_ge in E.
      destruct (IH best bp) as [best' [bp' [Hf [Hle [Hall Hcase]]]]].
      exists best', bp'. split; [exact Hf|]. split; [lia|]. split.
      * intros c [<-|Hc]; [lia|now apply Hall].
      * destruct Hcase as [[-> ->]|[b [Hb [-> ->]]]].
        -- left. split; reflexivity.
        -- right. exists b. split; [now right|]. split; reflexivity.
Qed.

Lemma best_of_spec (valid : list Entity) (c0 : Entity) :
  In c0 valid ->
  exists b,
    Gambler.best_of valid = Some (b, get_rarity b) /\ In b valid /\
    forall c, In c valid ->
      (rarity_priority (get_rarity b) <= rarity_priority (get_rarity c))%Z.
Proof.
  intros Hc0. unfold Gambler.best_of.
  destruct (best_fold_spec valid None (Z.of_nat (List.length RARITY_ORDER)))
    as [best' [bp' [Hf [Hle [Hall Hcase]]]]].
  rewrite Hf. cbn [fst].
  destruct Hcase as [[-> ->]|[b [Hb [-> ->]]]].
  - specialize (Hall c0 Hc0). pose proof (rarity_priority_lt_6 c0).
    simpl in Hall. lia.
  - exists b. repeat split; assumption.
Qed.

(** C4, as the code has it.  Risk-Seeking: when the candidates of the highest
    rarity tier present among the valid candidates that are nearest to the
    player pass the safety check, [find_target] targets such a candidate:
    the target is of the highest tier present and the nearest of that
    tier. *)
Theorem gambler_targets_top_tier_when_its_nearest_is_safe
    (self : Gambler.Strategy) (pos : Position) (brainrots : list Entity)
    (tsunami_x : R) (base_center : Position) (speed_level money : R)
    (attrs : Attrs) (c0 : Entity) :
  In c0 (Gambler.valid brainrots) ->
  (forall t,
     In t (Gambler.valid brainrots) ->
     (forall c, In c (Gambler.valid brainrots) ->
        (rarity_priority (get_rarity t) <= rarity_priority (get_rarity c))%Z) ->
     (forall c, In c (Gambler.valid brainrots) ->
        get_rarity c = get_rarity t ->
        distance pos (position t) <= distance pos (position c)) ->
     Gambler.is_safe_enough self (position t) base_center tsunami_x speed_level
     = Ok true) ->
  exists b,
    In b (Gambler.valid brainrots) /\
    (forall c, In c (Gambler.valid brainrots) ->
       (rarity_priority (get_rarity b) <= rarity_priority (get_rarity c))%Z) /\
    (forall c, In c (Gambler.valid brainrots) ->
       get_rarity c = get_rarity b ->
       distance pos (position b) <= distance pos (position c)) /\
    Gambler.find_target self pos brainrots tsunami_x base_center speed_level
      money attrs
    = Ok (Some (Gambler._move_or_collect pos b (get_rarity b)
                  ("chasing " ++ get_rarity b))).
Proof.
  intros Hc0 Hsafe.
  destruct (best_of_spec (Gambler.valid brainrots) c0 Hc0)
    as [b0 [Hbest [Hb0 Htop]]].
  destruct (min_spec (fun b => distance pos (position b))
              (filter (fun b => String.eqb (get_rarity b) (get_rarity b0))
                      (Gambler.valid brainrots)))
    as [t [Hmin [Ht Hnear]]].
  { intros E.
    assert (H : In b0 (filter (fun b => String.eqb (get_rarity b) (get_rarity b0))
                         (Gambler.valid brainrots)))
      by (apply filter_In; split; [assumption|apply String.eqb_refl]).
    rewrite E in H. destruct H. }
  apply filter_In in Ht. destruct Ht as [Htv Htr]. apply String.eqb_eq in Htr.
  assert (Htop' : forall c, In c (Gambler.valid brainrots) ->
            (rarity_priority (get_rarity t) <= rarity_priority (get_rarity c))%Z)
    by (rewrite Htr; exact Htop).
  assert (Hnear' : forall c, In c (Gambler.valid brainrots) ->
            get_rarity c = get_rarity t ->
            distance pos (position t) <= distance pos (position c)).
  { intros c Hc Hr. apply Hnear. apply filter_In; split; [assumption|].
    rewrite Hr, Htr. apply String.eqb_refl. }
  exists t. split; [assumption|]. split; [assumption|]. split; [assumption|].
  unfold Gambler.find_target. cbv zeta.
  assert (Hne : truthy (Gambler.valid brainrots) = true).
  { apply truthy_true_iff. intros E. rewrite E in Hc0. destruct Hc0. }
  rewrite Hne. cbn [negb]. rewrite Hbest. cbn [snd].
  rewrite Hmin. cbn [Py.bind].
  rewrite (Hsafe t Htv Htop' Hnear'). cbn [Py.bind negb].
  now rewrite Htr.
Qed.

Lemma gambler_valid_safe_pair :
  Gambler.valid [Scenario.legendary_safe; Scenario.common_safe]
  = [Scenario.legendary_safe; Scenario.common_safe].
Proof.
  unfold Scenario.legendary_safe, Scenario.common_safe. py_eval. reflexivity.
Qed.

Lemma legendary_safe_passes :
  Gambler.is_safe_enough Scenario.gambler1 (position Scenario.legendary_safe)
    Scenario.base (-500) 1 = Ok true.
Proof.
  unfold Scenario.legendary_safe, Scenario.base, Scenario.gambler1.
  py_eval. reflexivity.
Qed.

Lemma common_safe_passes :
  Gambler.is_safe_enough Scenario.gambler1 (position Scenario.common_safe)
    Scenario.base (-500) 1 = Ok true.
Proof.
  unfold Scenario.common_safe, Scenario.base, Scenario.gambler1.
  py_eval. reflexivity.
Qed.

Lemma gambler_targets_top_tier_when_its_nearest_is_safe_witness :
  (In Scenario.legendary_safe
      (Gambler.valid [Scenario.legendary_safe; Scenario.common_safe]) /\
   (forall t,
      In t (Gambler.valid [Scenario.legendary_safe; Scenario.common_safe]) ->
      (forall c,
         In c (Gambler.valid [Scenario.legendary_safe; Scenario.common_safe]) ->
         (rarity_priority (get_rarity t) <= rarity_priority (get_rarity c))%Z) ->
      (forall c,
         In c (Gambler.valid [Scenario.legendary_safe; Scenario.common_safe]) ->
         get_rarity c = get_rarity t ->
         distance (Scenario.at_x 100) (position t)
         <= distance (Scenario.at_x 100) (position c)) ->
      Gambler.is_safe_enough Scenario.gambler1 (position t) Scenario.base
        (-500) 1 = Ok true)) /\
  exists b,
    In b (Gambler.valid [Scenario.legendary_safe; Scenario.common_safe]) /\
    (forall c,
       In c (Gambler.valid [Scenario.legendary_safe; Scenario.common_safe]) ->
       (rarity_priority (get_rarity b) <= rarity_priority (get_rarity c))%Z) /\
    (forall c,
       In c (Gambler.valid [Scenario.legendary_safe; Scenario.common_safe]) ->
       get_rarity c = get_rarity b ->
       distance (Scenario.at_x 100) (position b)
       <= distance (Scenario.at_x 100) (position c)) /\
    Gambler.find_target Scenario.gambler1 (Scenario.at_x 100)
      [Scenario.legendary_safe; Scenario.common_safe] (-500) Scenario.base 1
      0 Scenario.no_attrs
    = Ok (Some (Gambler._move_or_collect (Scenario.at_x 100) b (get_rarity b)
                  ("chasing " ++ get_rarity b))).
Proof.
  assert (H1 : In Scenario.legendary_safe
                 (Gambler.valid [Scenario.legendary_safe; Scenario.common_safe])).
  { rewrite gambler_valid_safe_pair. now left. }
  assert (H2 : forall t,
      In t (Gambler.valid [Scenario.legendary_safe; Scenario.common_safe]) ->
      (forall c,
         In c (Gambler.valid [Scenario.legendary_safe; Scenario.common_safe]) ->
         (rarity_priority (get_rarity t) <= rarity_priority (get_rarity c))%Z) ->
      (forall c,
         In c (Gambler.valid [Scenario.legendary_safe; Scenario.common_safe]) ->
         get_rarity c = get_rarity t ->
         distance (Scenario.at_x 100) (position t)
         <= distance (Scenario.at_x 100) (position c)) ->
      Gambler.is_safe_enough Scenario.gambler1 (position t) Scenario.base
        (-500) 1 = Ok true).
  { rewrite gambler_valid_safe_pair. intros t [<-|[<-|[]]] _ _.
    - exact legendary_safe_passes.
    - exact common_safe_passes. }
  split; [split; [exact H1|exact H2]|].
  exact (gambler_targets_top_tier_when_its_nearest_is_safe
           Scenario.gambler1 (Scenario.at_x 100)
           [Scenario.legendary_safe; Scenario.common_safe] (-500)
           Scenario.base 1 0 Scenario.no_attrs Scenario.legendary_safe H1 H2).
Defined.

Lemma gambler_valid_trio :
  Gambler.valid
    [Scenario.legendary_unsafe; Scenario.legendary_safe; Scenario.common_safe]
  = [Scenario.legendary_unsafe; Scenario.legendary_safe; Scenario.common_safe].
Proof.
  unfold Scenario.legendary_unsafe, Scenario.legendary_safe,
    Scenario.common_safe.
  py_eval. reflexivity.
Qed.

(** The nearest Legendary fails the check, so the nearest candidate of any
    rarity, a Common, is targeted. *)
Lemma gambler_falls_back_to_common :
  Gambler.find_target Scenario.gambler1 (Scenario.at_x 100)
    [Scenario.legendary_unsafe; Scenario.legendary_safe; Scenario.common_safe]
    (-500) Scenario.base 1 0 Scenario.no_attrs
  = Ok (Some (MoveTo (Scenario.at_x 105) "Common" "gambler fallback - nearest")).
Proof.
  unfold Gambler.find_target. cbv zeta. rewrite gambler_valid_trio.
  assert (Hbest : Gambler.best_of
            [Scenario.legendary_unsafe; Scenario.legendary_safe;
             Scenario.common_safe]
          = Some (Scenario.legendary_unsafe, "Legendary"%string))
    by reflexivity.
  rewrite Hbest.
  unfold Scenario.legendary_unsafe, Scenario.legendary_safe,
    Scenario.common_safe, Scenario.base, Scenario.gambler1.
  py_eval. reflexivity.
Qed.

(** C4 fails as stated: a Legendary 15 units from the player passes the
    safety check, but the Legendary nearest to the player (10 units) does
    not, and the policy targets the Common 5 units away. *)
Lemma gambler_drops_tier_despite_safe_legendary :
  ~ AsStated.gambler_targets_top_tier_if_one_is_safe Scenario.gambler1
      (Scenario.at_x 100)
      [Scenario.legendary_unsafe; Scenario.legendary_safe; Scenario.common_safe]
      (-500) Scenario.base 1 0 Scenario.no_attrs.
Proof.
  unfold AsStated.gambler_targets_top_tier_if_one_is_safe. intros H.
  destruct (H Scenario.legendary_safe) as [b [ev [_ [Hfind Hr]]]].
  - rewrite gambler_valid_trio. right; now left.
  - rewrite gambler_valid_trio.
    intros c [<-|[<-|[<-|[]]]]; vm_compute; discriminate.
  - exact legendary_safe_passes.
  - rewrite gambler_falls_back_to_common in Hfind.
    injection Hfind as Hfind. revert Hfind.
    unfold Gambler._move_or_collect. cbv zeta. rewrite Hr.
    destruct (ltb (distance (Scenario.at_x 100) (position b)) 5);
      intros E; [discriminate|].
    injection E as _ E _. discriminate.
Qed.

(** ** farmer.py *)

Lemma farmer_move_or_collect_target (pos p : Position) (b : Entity)
    (rarity event r e : string) :
  Farmer._move_or_collect pos b rarity event = MoveTo p r e ->
  p = position b.
Proof.
  unfold Farmer._move_or_collect. cbv zeta.
  destruct (ltb (distance pos (position b)) 5); [discriminate|].
  intros H. now injection H as <- _ _.
Qed.

(** What survives the filters of Zone-Restricted. *)
Lemma farmer_valid_spec (self : Farmer.Strategy) (brainrots v : list Entity)
    (b : Entity) :
  Farmer.valid self brainrots = Ok v -> In b v ->
  In b brainrots /\
  py (position b) > -100 /\
  is_in_base_zone (position b) = false /\
  px (position b) > Farmer.venture_limit_x self /\
  ((Farmer.min_rarity_priority self > 0)%Z ->
   (rarity_priority (get_rarity b) >= Farmer.min_rarity_priority self)%Z).
Proof.
  intros Hv Hb. unfold Farmer.valid in Hv.
  assert (Hzone : In b (Farmer.in_zone self brainrots) ->
            In b brainrots /\ py (position b) > -100 /\
            is_in_base_zone (position b) = false /\
            px (position b) > Farmer.venture_limit_x self).
  { unfold Farmer.in_zone. intros H. apply filter_In in H.
    destruct H as [Hin H]. apply andb_true_iff in H. destruct H as [H H3].
    apply andb_true_iff in H. destruct H as [H1 H2].
    apply gtb_true_iff in H1, H3. apply negb_true_iff in H2. tauto. }
  destruct (Farmer.min_rarity_priority self >? 0)%Z eqn:Em.
  - destruct (filterM_In _ _ _ _ Hv Hb) as [Hin Hmeets].
    destruct (Hzone Hin) as [H0 [H1 [H2 H3]]].
    repeat split; try assumption.
    intros _. unfold Farmer.meets_rarity in Hmeets.
    destruct (Py.index (get_rarity b) RARITY_ORDER) as [i|] eqn:Hi;
      [|discriminate].
    injection Hmeets as Hmeets. rewrite (rarity_priority_index _ _ Hi).
    apply Z.geb_le in Hmeets. lia.
  - injection Hv as <-.
    destruct (Hzone Hb) as [H0 [H1 [H2 H3]]].
    repeat split; try assumption.
    intros Hpos. rewrite Z.gtb_ltb in Em. apply Z.ltb_ge in Em. lia.
Qed.

(** Whatever [find_target] answers is built from a member of the filtered
    pool. *)
Lemma farmer_find_target_some (self : Farmer.Strategy) (pos : Position)
    (brainrots : list Entity) (tx : R) (base : Position) (lvl money : R)
    (attrs : Attrs) (act : Action) :
  Farmer.find_target self pos brainrots tx base lvl money attrs
  = Ok (Some act) ->
  exists v b,
    Farmer.valid self brainrots = Ok v /\ In b v /\
    act = Farmer._move_or_collect pos b (get_rarity b)
            ("farming " ++ get_rarity b ++ " in zone").
Proof.
  unfold Farmer.find_target.
  destruct (Farmer.valid self brainrots) as [v|e]; cbn [Py.bind];
    [|discriminate].
  destruct (truthy v) eqn:Hv; cbn [negb]; [|discriminate].
  destruct (filterM _ v) as [safe|e] eqn:Hs; cbn [Py.bind]; [|discriminate].
  cbv zeta.
  destruct (Py.min (fun b => distance pos (position b))
              (if truthy safe then safe else v)) as [t|e] eqn:Hmin;
    cbn [Py.bind]; [|discriminate].
  intros H. injection H as <-.
  exists v, t. split; [reflexivity|]. split; [|reflexivity].
  assert (Hin : In t (if truthy safe then safe else v)).
  { destruct (if truthy safe then safe else v) as [|x l]; [discriminate|].
    simpl in Hmin. injection Hmin as <-. apply min_from_In. }
  destruct (truthy safe); [|assumption].
  now destruct (filterM_In _ _ _ _ Hs Hin).
Qed.

(** C5.  Zone-Restricted: whenever [find_target] answers with an action, the
    action is built from a live candidate of the snapshot whose x is above
    the venture limit, that lies outside the base zone, and whose rarity
    priority is at least the configured minimum when that minimum is
    positive; the position of a [MoveTo] is that candidate's position. *)
Theorem farmer_target_within_venture_zone (self : Farmer.Strategy)
    (pos : Position) (brainrots : list Entity) (tsunami_x : R)
    (base_center : Position) (speed_level money : R) (attrs : Attrs)
    (action : Action) :
  Farmer.find_target self pos brainrots tsunami_x base_center speed_level
    money attrs = Ok (Some action) ->
  exists b,
    In b brainrots /\
    action = Farmer._move_or_collect pos b (get_rarity b)
               ("farming " ++ get_rarity b ++ " in zone") /\
    (forall p r e, action = MoveTo p r e -> p = position b) /\
    px (position b) > Farmer.venture_limit_x self /\
    is_in_base_zone (position b) = false /\
    ((Farmer.min_rarity_priority self > 0)%Z ->
     (rarity_priority (get_rarity b) >= Farmer.min_rarity_priority self)%Z).
Proof.
  intros H.
  destruct (farmer_find_target_some _ _ _ _ _ _ _ _ _ H)
    as [v [b [Hv [Hb Hact]]]].
  destruct (farmer_valid_spec self brainrots v b Hv Hb)
    as [Hin [_ [Hbase [Hx Hr]]]].
  exists b. repeat split; try assumption.
  intros p r e Hm. rewrite Hact in Hm.
  now apply farmer_move_or_collect_target in Hm.
Qed.

Lemma farmer_targets_legendary_in_zone :
  Farmer.find_target Scenario.farmer1 (Scenario.at_x 340)
    [Scenario.legendary_in_zone; Scenario.common_beyond] (-500) Scenario.base
    1 0 Scenario.no_attrs
  = Ok (Some (MoveTo (Scenario.at_x 320) "Legendary"
                "farming Legendary in zone")).
Proof.
  unfold Scenario.legendary_in_zone, Scenario.common_beyond, Scenario.base,
    Scenario.farmer1.
  py_eval. reflexivity.
Qed.

Lemma farmer_target_within_venture_zone_witness :
  Farmer.find_target Scenario.farmer1 (Scenario.at_x 340)
    [Scenario.legendary_in_zone; Scenario.common_beyond] (-500) Scenario.base
    1 0 Scenario.no_attrs
  = Ok (Some (MoveTo (Scenario.at_x 320) "Legendary"
                "farming Legendary in zone")) /\
  exists b,
    In b [Scenario.legendary_in_zone; Scenario.common_beyond] /\
    MoveTo (Scenario.at_x 320) "Legendary" "farming Legendary in zone"
    = Farmer._move_or_collect (Scenario.at_x 340) b (get_rarity b)
        ("farming " ++ get_rarity b ++ " in zone") /\
    (forall p r e,
       MoveTo (Scenario.at_x 320) "Legendary" "farming Legendary in zone"
       = MoveTo p r e -> p = position b) /\
    px (position b) > Farmer.venture_limit_x Scenario.farmer1 /\
    is_in_base_zone (position b) = false /\
    ((Farmer.min_rarity_priority Scenario.farmer1 > 0)%Z ->
     (rarity_priority (get_rarity b)
      >= Farmer.min_rarity_priority Scenario.farmer1)%Z).
Proof.
  split; [exact farmer_targets_legendary_in_zone|].
  exact (farmer_target_within_venture_zone Scenario.farmer1 (Scenario.at_x 340)
           [Scenario.legendary_in_zone; Scenario.common_beyond] (-500)
           Scenario.base 1 0 Scenario.no_attrs
           (MoveTo (Scenario.at_x 320) "Legendary" "farming Legendary in zone")
           farmer_targets_legendary_in_zone).
Defined.

(** ** No policy answers [None] on a non-empty pool *)

Lemma nonempty_In {A : Type} (l : list A) : l <> [] -> exists x, In x l.
Proof. destruct l as [|x l]; [congruence|]. intros _. exists x. now left. Qed.

Lemma tryhard_find_target_answers (self : Tryhard.Strategy) (pos : Position)
    (brainrots : list Entity) (tx : R) (base : Position) (lvl money : R)
    (attrs : Attrs) :
  1 <= lvl -> Tryhard.valid brainrots <> [] ->
  exists action,
    Tryhard.find_target self pos brainrots tx base lvl money attrs
    = Ok (Some action).
Proof.
  intros Hlvl Hv.
  assert (Hs : Tryhard._player_speed lvl <> 0)
    by (pose proof (tryhard_speed_pos lvl Hlvl); lra).
  destruct (reachable_ok self pos brainrots tx base lvl Hs) as [reach [Hr _]].
  destruct (nonempty_In _ Hv) as [c0 Hc0].
  unfold Tryhard.find_target. cbv zeta. rewrite Hr. cbn [Py.bind].
  destruct (gtb tx (-400) && negb (truthy reach)
            && ltb (distance pos base) 20); [eexists; reflexivity|].
  destruct (geb money Tryhard.AGGRESSIVE_THRESHOLD && gtb tx (px base)
            && ltb (distance pos base) 20).
  - destruct (find_nearest_valuable_spec pos _ c0 Hc0) as [b [Hf _]].
    rewrite Hf. cbn [Py.bind]. eexists; reflexivity.
  - cbn [Py.bind]. unfold Tryhard._furthest_by_rarity.
    destruct reach as [|r0 reach].
    + rewrite furthest_loop_nil. cbn [Py.bind].
      rewrite (proj2 (truthy_true_iff _) Hv).
      destruct (min_spec (fun b => distance pos (position b)) _ Hv)
        as [m [Hm _]].
      rewrite Hm. cbn [Py.bind]. eexists; reflexivity.
    + destruct (furthest_loop_spec pos (r0 :: reach) RARITY_ORDER r0
                  (or_introl eq_refl) (get_rarity_in_order r0))
        as [b [i [Hf _]]].
      rewrite Hf. cbn [Py.bind]. eexists; reflexivity.
Qed.

Lemma gambler_speed_pos (speed_level : R) :
  1 <= speed_level -> 16 <= Gambler._player_speed speed_level.
Proof.
  intros H; unfold Gambler._player_speed, PLAYER_SPEED_BASE, PLAYER_SPEED_PER_LEVEL.
  nra.
Qed.

Lemma gambler_safe_ok (self : Gambler.Strategy) (b d : Position) (tx lvl : R) :
  Gambler._player_speed lvl <> 0 ->
  exists k, Gambler.is_safe_enough self b d tx lvl = Ok k.
Proof.
  intros Hs. unfold Gambler.is_safe_enough, Gambler._ticks_to_return.
  cbv zeta. rewrite div_ok by assumption. cbn [Py.bind]. eexists; reflexivity.
Qed.

Lemma gambler_find_target_answers (self : Gambler.Strategy) (pos : Position)
    (brainrots : list Entity) (tx : R) (base : Position) (lvl money : R)
    (attrs : Attrs) :
  1 <= lvl -> Gambler.valid brainrots <> [] ->
  exists action,
    Gambler.find_target self pos brainrots tx base lvl money attrs
    = Ok (Some action).
Proof.
  intros Hlvl Hv.
  assert (Hs : Gambler._player_speed lvl <> 0)
    by (pose proof (gambler_speed_pos lvl Hlvl); lra).
  destruct (nonempty_In _ Hv) as [c0 Hc0].
  destruct (best_of_spec _ c0 Hc0) as [b0 [Hbest [Hb0 _]]].
  unfold Gambler.find_target. cbv zeta.
  rewrite (proj2 (truthy_true_iff _) Hv). cbn [negb].
  rewrite Hbest. cbn [snd].
  destruct (min_spec (fun b => distance pos (position b))
              (filter (fun b => String.eqb (get_rarity b) (get_rarity b0))
                      (Gambler.valid brainrots)))
    as [t [Hmin _]].
  { intros E.
    assert (H : In b0 (filter (fun b => String.eqb (get_rarity b) (get_rarity b0))
                         (Gambler.valid brainrots)))
      by (apply filter_In; split; [assumption|apply String.eqb_refl]).
    rewrite E in H. destruct H. }
  rewrite Hmin. cbn [Py.bind].
  destruct (gambler_safe_ok self (position t) base tx lvl Hs) as [k Hk].
  rewrite Hk. cbn [Py.bind].
  destruct k; cbn [negb]; [eexists; reflexivity|].
  destruct (min_spec (fun b => distance pos (position b)) _ Hv) as [f [Hf _]].
  rewrite Hf. cbn [Py.bind].
  destruct (gambler_safe_ok self (position f) base tx lvl Hs) as [k' Hk'].
  rewrite Hk'. cbn [Py.bind].
  destruct k'; eexists; reflexivity.
Qed.

Lemma farmer_speed_pos (speed_level : R) :
  1 <= speed_level -> 16 <= Farmer._player_speed speed_level.
Proof.
  intros H; unfold Farmer._player_speed, PLAYER_SPEED_BASE, PLAYER_SPEED_PER_LEVEL.
  nra.
Qed.

(** The filters of Zone-Restricted never raise. *)
Lemma farmer_valid_ok (self : Farmer.Strategy) (brainrots : list Entity) :
  exists v, Farmer.valid self brainrots = Ok v.
Proof.
  unfold Farmer.valid.
  destruct (Farmer.min_rarity_priority self >? 0)%Z; [|eexists; reflexivity].
  erewrite (filterM_ok _
    (fun b => (rarity_priority (get_rarity b)
               >=? Farmer.min_rarity_priority self)%Z)).
  - eexists; reflexivity.
  - intros b _. unfold Farmer.meets_rarity.
    destruct (get_rarity_index b) as [i [Hi _]].
    rewrite Hi, (rarity_priority_index _ _ Hi). reflexivity.
Qed.

Lemma farmer_find_target_answers (self : Farmer.Strategy) (pos : Position)
    (brainrots : list Entity) (tx : R) (base : Position) (lvl money : R)
    (attrs : Attrs) (v : list Entity) :
  1 <= lvl -> Farmer.valid self brainrots = Ok v -> v <> [] ->
  exists action,
    Farmer.find_target self pos brainrots tx base lvl money attrs
    = Ok (Some action).
Proof.
  intros Hlvl Hv Hne.
  assert (Hs : Farmer._player_speed lvl <> 0)
    by (pose proof (farmer_speed_pos lvl Hlvl); lra).
  unfold Farmer.find_target. rewrite Hv. cbn [Py.bind].
  rewrite (proj2 (truthy_true_iff _) Hne). cbn [negb].
  erewrite (filterM_ok _
    (fun b => ltb (distance (position b) base / Farmer._player_speed lvl)
                  ((px base - tx) / TSUNAMI_SPEED
                   - Farmer.safety_modifier self * 3))).
  2:{ intros b _. unfold Farmer.is_safe. cbv zeta.
      rewrite div_ok by assumption. reflexivity. }
  cbn [Py.bind]. cbv zeta.
  match goal with
  | |- context [Py.min ?key ?l] =>
      destruct (min_spec key l) as [m [Hm _]]
  end.
  { destruct (truthy (filter _ v)) eqn:E; [now apply truthy_true_iff|assumption]. }
  rewrite Hm. cbn [Py.bind]. eexists; reflexivity.
Qed.

(** Without any assumption on the speed, a non-empty pool excludes the
    answer [None]: the call answers with an action or raises. *)
Lemma tryhard_find_target_not_none (self : Tryhard.Strategy) (pos : Position)
    (brainrots : list Entity) (tx : R) (base : Position) (lvl money : R)
    (attrs : Attrs) :
  Tryhard.valid brainrots <> [] ->
  Tryhard.find_target self pos brainrots tx base lvl money attrs <> Ok None.
Proof.
  intros Hv.
  destruct (nonempty_In _ Hv) as [c0 Hc0].
  unfold Tryhard.find_target. cbv zeta.
  destruct (Tryhard.reachable self pos brainrots tx base lvl) as [reach|e];
    cbn [Py.bind]; [|discriminate].
  destruct (gtb tx (-400) && negb (truthy reach)
            && ltb (distance pos base) 20); [discriminate|].
  destruct (geb money Tryhard.AGGRESSIVE_THRESHOLD && gtb tx (px base)
            && ltb (distance pos base) 20).
  - destruct (find_nearest_valuable_spec pos _ c0 Hc0) as [b [Hf _]].
    rewrite Hf. cbn [Py.bind]. discriminate.
  - cbn [Py.bind].
    destruct (Tryhard._furthest_by_rarity pos reach) as [[[b r]|]|e];
      cbn [Py.bind]; try discriminate.
    rewrite (proj2 (truthy_true_iff _) Hv).
    destruct (min_spec (fun b => distance pos (position b)) _ Hv)
      as [m [Hm _]].
    rewrite Hm. cbn [Py.bind]. discriminate.
Qed.

Lemma gambler_find_target_not_none (self : Gambler.Strategy) (pos : Position)
    (brainrots : list Entity) (tx : R) (base : Position) (lvl money : R)
    (attrs : Attrs) :
  Gambler.valid brainrots <> [] ->
  Gambler.find_target self pos brainrots tx base lvl money attrs <> Ok None.
Proof.
  intros Hv.
  destruct (nonempty_In _ Hv) as [c0 Hc0].
  destruct (best_of_spec _ c0 Hc0) as [b0 [Hbest _]].
  unfold Gambler.find_target. cbv zeta.
  rewrite (proj2 (truthy_true_iff _) Hv). cbn [negb].
  rewrite Hbest. cbn [snd].
  destruct (Py.min _ (filter _ (Gambler.valid brainrots))) as [t|e];
    cbn [Py.bind]; [|discriminate].
  destruct (Gambler.is_safe_enough self (position t) base tx lvl) as [k|e];
    cbn [Py.bind]; [|discriminate].
  destruct k; cbn [negb]; [discriminate|].
  destruct (Py.min _ (Gambler.valid brainrots)) as [f|e];
    cbn [Py.bind]; [|discriminate].
  destruct (Gambler.is_safe_enough self (position f) base tx lvl) as [k'|e];
    cbn [Py.bind]; [|discriminate].
  destruct k'; discriminate.
Qed.

Lemma farmer_find_target_not_none (self : Farmer.Strategy) (pos : Position)
    (brainrots : list Entity) (tx : R) (base : Position) (lvl money : R)
    (attrs : Attrs) (v : list Entity) :
  Farmer.valid self brainrots = Ok v -> v <> [] ->
  Farmer.find_target self pos brainrots tx base lvl money attrs <> Ok None.
Proof.
  intros Hv Hne.
  unfold Farmer.find_target. rewrite Hv. cbn [Py.bind].
  rewrite (proj2 (truthy_true_iff _) Hne). cbn [negb].
  destruct (filterM _ v) as [safe|e]; cbn [Py.bind]; [|discriminate].
  cbv zeta.
  destruct (Py.min _ (if truthy safe then safe else v)) as [t|e];
    cbn [Py.bind]; discriminate.
Qed.

(** C10.  Each policy's pool of candidates that survive its filters is
    computed without raising.  [find_target] answers [None] only when that
    pool is empty; with a speed level of at least 1 (the data model) and a
    non-empty pool it answers with an action.  A cycle of the state machine
    that reaches the policy and gets [None] requests [MoveTo] the base center
    and nothing else, whether the request returns or raises. *)
Theorem find_target_none_only_on_empty_pool (strategy : Policy)
    (pos : Position) (brainrots : list Entity) (tsunami_x : R)
    (base_center : Position) (speed_level money : R) (attrs : Attrs) :
  (exists v,
     pool strategy brainrots = Ok v /\
     (find_target strategy pos brainrots tsunami_x base_center speed_level
        money attrs = Ok None -> v = []) /\
     (1 <= speed_level -> v <> [] ->
      exists action,
        find_target strategy pos brainrots tsunami_x base_center speed_level
          money attrs = Ok (Some action))) /\
  (forall send_input loop state tx,
     tsunami_x_of (entities state) = Ok tx ->
     stuck_abort loop state = false ->
     geb (carrying_of (player_attributes state))
         (capacity_of (player_attributes state)) = false ->
     upgrade_due strategy (player_attributes state) = false ->
     find_target strategy (pos_of state) (brainrots_of state) tx
       (base_center_of (player_attributes state))
       (speed_level_of (player_attributes state))
       (money_of (player_attributes state)) (player_attributes state)
     = Ok None ->
     snd (run_agent_cycle send_input strategy loop state)
     = [Send_MoveTo (base_center_of (player_attributes state))]).
Proof.
  split.
  - destruct strategy as [self|self|self]; cbn [pool find_target].
    + eexists; split; [reflexivity|]. split.
      * intros Hnone. destruct (Tryhard.valid brainrots) eqn:E; [reflexivity|].
        exfalso. revert Hnone. apply tryhard_find_target_not_none.
        rewrite E. discriminate.
      * intros Hlvl Hv. now apply tryhard_find_target_answers.
    + eexists; split; [reflexivity|]. split.
      * intros Hnone. destruct (Gambler.valid brainrots) eqn:E; [reflexivity|].
        exfalso. revert Hnone. apply gambler_find_target_not_none.
        rewrite E. discriminate.
      * intros Hlvl Hv. now apply gambler_find_target_answers.
    + destruct (farmer_valid_ok self brainrots) as [v Hv].
      exists v; split; [assumption|]. split.
      * intros Hnone. destruct v as [|x v]; [reflexivity|].
        exfalso. revert Hnone.
        apply (farmer_find_target_not_none _ _ _ _ _ _ _ _ _ Hv). discriminate.
      * intros Hlvl Hne.
        exact (farmer_find_target_answers self pos brainrots tsunami_x
                 base_center speed_level money attrs v Hlvl Hv Hne).
  - intros send_input loop state tx Htx Hstuck Hfull Hup Hnone.
    unfold run_agent_cycle. cbv zeta.
    rewrite Htx, Hstuck, Hfull, Hup, Hnone. reflexivity.
Qed.

(** A Risk-Seeking snapshot with two candidates: the pool is not empty and
    an action is answered. *)
Lemma find_target_none_only_on_empty_pool_witness :
  (1 <= 1 /\
   Gambler.valid [Scenario.legendary_safe; Scenario.common_safe] <> []) /\
  exists action,
    find_target (GamblerStrategy Scenario.gambler1) (Scenario.at_x 100)
      [Scenario.legendary_safe; Scenario.common_safe] (-500) Scenario.base
      1 0 Scenario.no_attrs = Ok (Some action).
Proof.
  assert (H1 : 1 <= 1) by lra.
  assert (H2 : Gambler.valid [Scenario.legendary_safe; Scenario.common_safe]
               <> [])
    by (rewrite gambler_valid_safe_pair; discriminate).
  split; [exact (conj H1 H2)|].
  destruct (find_target_none_only_on_empty_pool
              (GamblerStrategy Scenario.gambler1) (Scenario.at_x 100)
              [Scenario.legendary_safe; Scenario.common_safe] (-500)
              Scenario.base 1 0 Scenario.no_attrs)
    as [[v [Hv [_ Hsome]]] _].
  cbn [pool] in Hv. injection Hv as <-.
  exact (Hsome H1 H2).
Defined.

(** An empty map: the policy answers [None] and the cycle sends the player
    back to the base center. *)
Example empty_map_moves_to_base (send_input : Input -> bool) :
  snd (run_agent_cycle send_input (GamblerStrategy Scenario.gambler1)
         Scenario.first_cycle
         (mkState (Some (Scenario.at_x 100)) Scenario.no_attrs []))
  = [Send_MoveTo Scenario.base].
Proof.
  unfold run_agent_cycle, stuck_abort, stuck, upgrade_due, carrying_of,
    capacity_of, money_of, speed_level_of, next_speed_cost_of,
    upgrade_threshold, Gambler.upgrade_threshold.
  cbn [tsunami_x_of entities filter truthy player_attributes get
       Scenario.no_attrs CarriedCount CarryCapacity Money SpeedLevel
       NextSpeedCost Scenario.first_cycle last_position andb].
  cmp_eval. cbn [andb]. reflexivity.
Qed.

(** ** base.py: the deposit rule *)

Lemma tsunami_x_of_ok (es : list Entity) : exists tx, tsunami_x_of es = Ok tx.
Proof.
  unfold tsunami_x_of. cbv zeta.
  destruct (filter _ es) as [|w ws]; cbn [truthy map Py.min];
    eexists; reflexivity.
Qed.

(** C6, as the code has it.  In a cycle in which the stuck override does not
    fire, the carried count has reached the capacity, the player is within
    20 units of the base center, the placed resources have reached the base
    cap and there is at least one of them: the cycle requests [Destroy] with
    the index of a lowest-value placed resource; when that request returns
    it requests [Deposit] next, and when it raises the cycle ends without
    [Deposit].  Nothing else is requested. *)
Theorem full_at_cap_destroys_lowest_then_deposits
    (send_input : Input -> bool) (strategy : Policy) (loop : Loop)
    (state : State) :
  stuck_abort loop state = false ->
  carrying_of (player_attributes state)
  >= capacity_of (player_attributes state) ->
  distance (pos_of state) (base_center_of (player_attributes state)) < 20 ->
  INR (List.length (placed_of (player_attributes state)))
  >= base_max_of (player_attributes state) ->
  placed_of (player_attributes state) <> [] ->
  exists lowest,
    In lowest (placed_of (player_attributes state)) /\
    (forall p, In p (placed_of (player_attributes state)) ->
       value lowest <= value p) /\
    snd (run_agent_cycle send_input strategy loop state)
    = if send_input (Send_Destroy (placed_index lowest))
      then [Send_Destroy (placed_index lowest); Send_Deposit]
      else [Send_Destroy (placed_index lowest)].
Proof.
  intros Hstuck Hfull Hnear Hcap Hne.
  destruct (min_spec value _ Hne) as [lowest [Hmin [Hin Hle]]].
  exists lowest. split; [assumption|]. split; [assumption|].
  destruct (tsunami_x_of_ok (entities state)) as [tx Htx].
  unfold run_agent_cycle. cbv zeta. rewrite Htx, Hstuck.
  rewrite (proj2 (geb_true_iff _ _) Hfull).
  rewrite (proj2 (ltb_true_iff _ _) Hnear).
  rewrite (proj2 (geb_true_iff _ _) Hcap).
  unfold destroy_lowest_value.
  rewrite (proj2 (truthy_true_iff _) Hne). cbn [negb].
  rewrite Hmin.
  destruct (send_input (Send_Destroy (placed_index lowest))); reflexivity.
Qed.

(** The full player of Scenario 2 with a server that answers every request:
    [Destroy], then [Deposit]. *)
Lemma full_at_cap_destroys_lowest_then_deposits_witness :
  (stuck_abort Scenario.first_cycle Scenario.full_at_base = false /\
   carrying_of (player_attributes Scenario.full_at_base)
   >= capacity_of (player_attributes Scenario.full_at_base) /\
   distance (pos_of Scenario.full_at_base)
     (base_center_of (player_attributes Scenario.full_at_base)) < 20 /\
   INR (List.length (placed_of (player_attributes Scenario.full_at_base)))
   >= base_max_of (player_attributes Scenario.full_at_base) /\
   placed_of (player_attributes Scenario.full_at_base) <> []) /\
  exists lowest,
    In lowest (placed_of (player_attributes Scenario.full_at_base)) /\
    (forall p, In p (placed_of (player_attributes Scenario.full_at_base)) ->
       value lowest <= value p) /\
    snd (run_agent_cycle Scenario.all_return
           (TryhardStrategy Scenario.tryhard1)
           Scenario.first_cycle Scenario.full_at_base)
    = [Send_Destroy (placed_index lowest); Send_Deposit].
Proof.
  assert (H1 : stuck_abort Scenario.first_cycle Scenario.full_at_base = false)
    by reflexivity.
  assert (H2 : carrying_of (player_attributes Scenario.full_at_base)
               >= capacity_of (player_attributes Scenario.full_at_base))
    by (unfold carrying_of, capacity_of; simpl; lra).
  assert (H3 : distance (pos_of Scenario.full_at_base)
                 (base_center_of (player_attributes Scenario.full_at_base))
               < 20).
  { change (pos_of Scenario.full_at_base) with (Scenario.at_x 370).
    change (base_center_of (player_attributes Scenario.full_at_base))
      with (Scenario.at_x 375).
    geo_eval. lra. }
  assert (H4 : INR (List.length
                      (placed_of (player_attributes Scenario.full_at_base)))
               >= base_max_of (player_attributes Scenario.full_at_base))
    by (unfold placed_of, base_max_of; simpl; lra).
  assert (H5 : placed_of (player_attributes Scenario.full_at_base) <> [])
    by discriminate.
  split.
  - exact (conj H1 (conj H2 (conj H3 (conj H4 H5)))).
  - exact (full_at_cap_destroys_lowest_then_deposits Scenario.all_return
             (TryhardStrategy Scenario.tryhard1) Scenario.first_cycle
             Scenario.full_at_base H1 H2 H3 H4 H5).
Defined.

(** In that cycle the resource of value 5, at index 1, is destroyed; when
    the [Destroy] request raises, no [Deposit] follows. *)
Example full_at_base_destroys_index_1 (send_input : Input -> bool) :
  snd (run_agent_cycle send_input (TryhardStrategy Scenario.tryhard1)
         Scenario.first_cycle Scenario.full_at_base)
  = if send_input (Send_Destroy 1) then [Send_Destroy 1; Send_Deposit]
    else [Send_Destroy 1].
Proof.
  unfold run_agent_cycle, stuck_abort, stuck, carrying_of, capacity_of,
    placed_of, base_max_of, destroy_lowest_value.
  change (pos_of Scenario.full_at_base) with (Scenario.at_x 370).
  change (base_center_of (player_attributes Scenario.full_at_base))
    with (Scenario.at_x 375).
  cbn [tsunami_x_of entities filter truthy player_attributes get
       Scenario.full_at_base Scenario.full_attrs CarriedCount CarryCapacity
       PlacedBrainrots BaseMaxBrainrots Scenario.first_cycle last_position
       andb List.length INR negb Py.min min_from value Py.bind].
  geo_eval. cmp_eval. cbn [negb placed_index].
  destruct (send_input (Send_Destroy 1)); reflexivity.
Qed.

Example failed_destroy_skips_deposit :
  snd (run_agent_cycle Scenario.destroy_raises
         (TryhardStrategy Scenario.tryhard1)
         Scenario.first_cycle Scenario.full_at_base)
  = [Send_Destroy 1].
Proof. now rewrite full_at_base_destroys_index_1. Qed.

Lemma stuck_four_aborts (send_input : Input -> bool) :
  snd (run_agent_cycle send_input (TryhardStrategy Scenario.tryhard1)
         Scenario.stuck_four Scenario.full_at_base)
  = [Send_MoveTo Scenario.base].
Proof.
  unfold run_agent_cycle, stuck_abort, stuck.
  change (pos_of Scenario.full_at_base) with (Scenario.at_x 370).
  cbn [tsunami_x_of entities filter truthy Scenario.full_at_base
       Scenario.stuck_four last_position stuck_cycles].
  geo_eval. cmp_eval. reflexivity.
Qed.

(** C6 fails as stated: a player that has not moved for four cycles and is
    observed again at the same place, full, 5 units from the base center,
    with the base at its cap, is sent to the base center by the stuck
    override; neither [Destroy] nor [Deposit] is requested that cycle, even
    by a server that answers every request. *)
Lemma stuck_override_precedes_deposit :
  ~ AsStated.full_at_cap_destroys_then_deposits Scenario.all_return
      (TryhardStrategy Scenario.tryhard1) Scenario.stuck_four
      Scenario.full_at_base.
Proof.
  unfold AsStated.full_at_cap_destroys_then_deposits. cbv zeta. intros H.
  destruct H as [lowest [rest [_ [_ H]]]].
  - reflexivity.
  - change (pos_of Scenario.full_at_base) with (Scenario.at_x 370).
    change (base_center_of (player_attributes Scenario.full_at_base))
      with (Scenario.at_x 375).
    geo_eval. lra.
  - unfold placed_of, base_max_of. simpl. lra.
  - rewrite stuck_four_aborts in H. discriminate.
Qed.

(** It also fails in a first cycle when the [Destroy] request raises: the
    exception ends the cycle and [Deposit] is not requested. *)
Lemma failed_destroy_precedes_no_deposit :
  ~ AsStated.full_at_cap_destroys_then_deposits Scenario.destroy_raises
      (TryhardStrategy Scenario.tryhard1) Scenario.first_cycle
      Scenario.full_at_base.
Proof.
  unfold AsStated.full_at_cap_destroys_then_deposits. cbv zeta. intros H.
  destruct H as [lowest [rest [_ [_ H]]]].
  - reflexivity.
  - change (pos_of Scenario.full_at_base) with (Scenario.at_x 370).
    change (base_center_of (player_attributes Scenario.full_at_base))
      with (Scenario.at_x 375).
    geo_eval. lra.
  - unfold placed_of, base_max_of. simpl. lra.
  - rewrite failed_destroy_skips_deposit in H. discriminate.
Qed.

(* ================================================================== *)
(** * Further properties of the decision code *)

(** ** The safety model *)

(** X1.  The player speed is the same function in the three policies; it
    grows strictly with the speed level. *)
Theorem player_speed_strictly_increasing (level1 level2 : R) :
  level1 < level2 ->
  Tryhard._player_speed level1 < Tryhard._player_speed level2 /\
  Gambler._player_speed level1 = Tryhard._player_speed level1 /\
  Farmer._player_speed level1 = Tryhard._player_speed level1.
Proof.
  intros H.
  unfold Tryhard._player_speed, Gambler._player_speed, Farmer._player_speed,
    PLAYER_SPEED_BASE, PLAYER_SPEED_PER_LEVEL.
  repeat split; lra.
Qed.

Lemma player_speed_strictly_increasing_witness :
  1 < 2 /\
  Tryhard._player_speed 1 < Tryhard._player_speed 2 /\
  Gambler._player_speed 1 = Tryhard._player_speed 1 /\
  Farmer._player_speed 1 = Tryhard._player_speed 1.
Proof.
  assert (H : 1 < 2) by lra.
  exact (conj H (player_speed_strictly_increasing 1 2 H)).
Defined.

(** X2.  The tiered base margin never grows with the speed level and stays
    between 3 and 6. *)
Theorem base_safety_margin_antitone (level1 level2 : R) :
  level1 <= level2 ->
  Tryhard._base_safety_margin level2 <= Tryhard._base_safety_margin level1 /\
  3 <= Tryhard._base_safety_margin level2 /\
  Tryhard._base_safety_margin level1 <= 6.
Proof.
  intros H. unfold Tryhard._base_safety_margin.
  destruct (geb level1 10) eqn:A1; destruct (geb level1 8) eqn:A2;
    destruct (geb level1 5) eqn:A3;
    destruct (geb level2 10) eqn:B1; destruct (geb level2 8) eqn:B2;
    destruct (geb level2 5) eqn:B3;
    repeat match goal with
    | E : geb _ _ = true |- _ => apply geb_true_iff in E
    | E : geb _ _ = false |- _ => apply geb_false_iff in E
    end; repeat split; lra.
Qed.

Lemma base_safety_margin_antitone_witness :
  4 <= 9 /\
  Tryhard._base_safety_margin 9 <= Tryhard._base_safety_margin 4 /\
  3 <= Tryhard._base_safety_margin 9 /\
  Tryhard._base_safety_margin 4 <= 6.
Proof.
  assert (H : 4 <= 9) by lra.
  exact (conj H (base_safety_margin_antitone 4 9 H)).
Defined.

Lemma farmer_safe_true (self : Farmer.Strategy) (b d : Position) (tx lvl : R) :
  Farmer.is_safe self b d tx lvl = Ok true <->
  Farmer._player_speed lvl <> 0 /\
  distance b d / Farmer._player_speed lvl
  < (px d - tx) / TSUNAMI_SPEED - Farmer.safety_modifier self * 3.
Proof.
  unfold Farmer.is_safe. cbv zeta.
  destruct (Req_dec_T (Farmer._player_speed lvl) 0) as [E|E].
  - rewrite E, div_raise. cbn [Py.bind]. split; [discriminate|tauto].
  - rewrite div_ok by assumption. cbn [Py.bind]. split.
    + intros H. injection H as H. apply ltb_true_iff in H. tauto.
    + intros [_ H]. f_equal. now apply ltb_true_iff.
Qed.

(** X3.  A hazard front farther from the base never turns a passed safety
    check into a failed one, in any of the three policies. *)
Theorem farther_hazard_keeps_checks_passed (tsunami_x tsunami_x' : R) :
  tsunami_x' <= tsunami_x ->
  (forall self player_pos brainrot_pos deposit_pos speed_level,
     Tryhard.can_reach_before_tsunami self player_pos brainrot_pos deposit_pos
       tsunami_x speed_level = Ok true ->
     Tryhard.can_reach_before_tsunami self player_pos brainrot_pos deposit_pos
       tsunami_x' speed_level = Ok true) /\
  (forall self brainrot_pos deposit_pos speed_level,
     Gambler.is_safe_enough self brainrot_pos deposit_pos tsunami_x speed_level
     = Ok true ->
     Gambler.is_safe_enough self brainrot_pos deposit_pos tsunami_x' speed_level
     = Ok true) /\
  (forall self brainrot_pos deposit_pos speed_level,
     Farmer.is_safe self brainrot_pos deposit_pos tsunami_x speed_level
     = Ok true ->
     Farmer.is_safe self brainrot_pos deposit_pos tsunami_x' speed_level
     = Ok true).
Proof.
  intros Hx.
  assert (Hmono : forall dx, (dx - tsunami_x) / TSUNAMI_SPEED
                             <= (dx - tsunami_x') / TSUNAMI_SPEED).
  { intros dx. unfold TSUNAMI_SPEED. lra. }
  split; [|split].
  - intros self p b d lvl H. apply can_reach_true in H. destruct H as [Hs H].
    rewrite can_reach_ok by assumption. f_equal. apply ltb_true_iff.
    specialize (Hmono (px d)). lra.
  - intros self b d lvl H. apply gambler_safe_true in H.
    apply gambler_safe_true. specialize (Hmono (px d)). split; [tauto|lra].
  - intros self b d lvl H. apply farmer_safe_true in H.
    apply farmer_safe_true. specialize (Hmono (px d)). split; [tauto|lra].
Qed.

Lemma farther_hazard_keeps_checks_passed_witness :
  -500 <= 225 /\
  Gambler.is_safe_enough Scenario.gambler1 (Scenario.at_x 343) Scenario.base
    (-500) 1 = Ok true.
Proof.
  assert (H : -500 <= 225) by lra.
  split; [exact H|].
  apply (proj1 (proj2 (farther_hazard_keeps_checks_passed 225 (-500) H))).
  unfold Scenario.base, Scenario.gambler1. py_eval. reflexivity.
Defined.

(** ** Exceptions of the policies *)

Lemma filterM_raise {A : Type} (p : A -> result bool) (l : list A) (e : Error) :
  filterM p l = Raise e -> exists x, In x l /\ p x = Raise e.
Proof.
  induction l as [|y l IH]; simpl; [discriminate|].
  destruct (p y) as [keep|e'] eqn:Hy; simpl.
  - destruct (filterM p l) as [rest|e'']; simpl; [discriminate|].
    intros H. destruct (IH H) as [x [Hx Hp]]. exists x. split; [now right|assumption].
  - intros H. injection H as <-. exists y. split; [now left|assumption].
Qed.

Lemma filterM_head_raise {A : Type} (p : A -> result bool) (x : A)
    (l : list A) (e : Error) :
  p x = Raise e -> filterM p (x :: l) = Raise e.
Proof. intros H. simpl. now rewrite H. Qed.

Lemma can_reach_cases (self : Tryhard.Strategy) (p b d : Position) (tx lvl : R) :
  (Tryhard._player_speed lvl <> 0 /\
   exists k, Tryhard.can_reach_before_tsunami self p b d tx lvl = Ok k) \/
  (Tryhard._player_speed lvl = 0 /\
   Tryhard.can_reach_before_tsunami self p b d tx lvl = Raise ZeroDivisionError).
Proof.
  destruct (Req_dec_T (Tryhard._player_speed lvl) 0) as [E|E].
  - right. split; [assumption|].
    unfold Tryhard.can_reach_before_tsunami. cbv zeta.
    now rewrite E, div_raise.
  - left. split; [assumption|]. rewrite can_reach_ok by assumption.
    eexists; reflexivity.
Qed.

Lemma gambler_safe_cases (self : Gambler.Strategy) (b d : Position) (tx lvl : R) :
  (Gambler._player_speed lvl <> 0 /\
   exists k, Gambler.is_safe_enough self b d tx lvl = Ok k) \/
  (Gambler._player_speed lvl = 0 /\
   Gambler.is_safe_enough self b d tx lvl = Raise ZeroDivisionError).
Proof.
  destruct (Req_dec_T (Gambler._player_speed lvl) 0) as [E|E].
  - right. split; [assumption|].
    unfold Gambler.is_safe_enough, Gambler._ticks_to_return. cbv zeta.
    now rewrite E, div_raise.
  - left. split; [assumption|]. now apply gambler_safe_ok.
Qed.

Lemma farmer_safe_cases (self : Farmer.Strategy) (b d : Position) (tx lvl : R) :
  (Farmer._player_speed lvl <> 0 /\
   exists k, Farmer.is_safe self b d tx lvl = Ok k) \/
  (Farmer._player_speed lvl = 0 /\
   Farmer.is_safe self b d tx lvl = Raise ZeroDivisionError).
Proof.
  unfold Farmer.is_safe. cbv zeta.
  destruct (Req_dec_T (Farmer._player_speed lvl) 0) as [E|E].
  - right. split; [assumption|]. now rewrite E, div_raise.
  - left. split; [assumption|]. rewrite div_ok by assumption.
    eexists; reflexivity.
Qed.

(** Once [reachable] is computed the rest of the Aggressive-Safe decision
    does not raise. *)
Lemma tryhard_find_target_ok_of_reach (self : Tryhard.Strategy) (pos : Position)
    (brainrots : list Entity) (tx : R) (base : Position) (lvl money : R)
    (attrs : Attrs) (reach : list Entity) :
  Tryhard.reachable self pos brainrots tx base lvl = Ok reach ->
  exists r, Tryhard.find_target self pos brainrots tx base lvl money attrs = Ok r.
Proof.
  intros Hr. unfold Tryhard.find_target. cbv zeta. rewrite Hr. cbn [Py.bind].
  destruct (gtb tx (-400) && negb (truthy reach)
            && ltb (distance pos base) 20); [eexists; reflexivity|].
  assert (Hnv : exists t, Tryhard._find_nearest_valuable pos
                            (Tryhard.valid brainrots) = Ok t).
  { destruct (Tryhard.valid brainrots) as [|c0 v] eqn:Hv.
    - unfold Tryhard._find_nearest_valuable. rewrite nearest_loop_nil.
      eexists; reflexivity.
    - destruct (find_nearest_valuable_spec pos (c0 :: v) c0 (or_introl eq_refl))
        as [b [Hf _]].
      rewrite Hf. eexists; reflexivity. }
  destruct Hnv as [t Ht].
  assert (Hagg : exists t',
            (if geb money Tryhard.AGGRESSIVE_THRESHOLD && gtb tx (px base)
                && ltb (distance pos base) 20
             then Tryhard._find_nearest_valuable pos (Tryhard.valid brainrots)
             else Ok None) = Ok t').
  { destruct (geb money Tryhard.AGGRESSIVE_THRESHOLD && gtb tx (px base)
              && ltb (distance pos base) 20); eexists; [exact Ht|reflexivity]. }
  destruct Hagg as [t' Ht']. rewrite Ht'. cbn [Py.bind].
  destruct t' as [[b r]|]; [eexists; reflexivity|].
  assert (Hf : exists u, Tryhard._furthest_by_rarity pos reach = Ok u).
  { unfold Tryhard._furthest_by_rarity. destruct reach as [|r0 reach].
    - rewrite furthest_loop_nil. eexists; reflexivity.
    - destruct (furthest_loop_spec pos (r0 :: reach) RARITY_ORDER r0
                  (or_introl eq_refl) (get_rarity_in_order r0))
        as [b [i [Hf _]]].
      rewrite Hf. eexists; reflexivity. }
  destruct Hf as [u Hu]. rewrite Hu. cbn [Py.bind].
  destruct u as [[b r]|]; [eexists; reflexivity|].
  destruct (Tryhard.valid brainrots) as [|c0 v]; cbn [truthy Py.min Py.bind];
    eexists; reflexivity.
Qed.

Lemma tryhard_raise_iff (self : Tryhard.Strategy) (pos : Position)
    (brainrots : list Entity) (tx : R) (base : Position) (lvl money : R)
    (attrs : Attrs) (e : Error) :
  Tryhard.find_target self pos brainrots tx base lvl money attrs = Raise e <->
  e = ZeroDivisionError /\ Tryhard._player_speed lvl = 0 /\
  Tryhard.valid brainrots <> [].
Proof.
  split.
  - intros H.
    destruct (Tryhard.reachable self pos brainrots tx base lvl) as [reach|e']
      eqn:Hr.
    + destruct (tryhard_find_target_ok_of_reach self pos brainrots tx base lvl
                  money attrs reach Hr) as [r Hok].
      rewrite Hok in H. discriminate.
    + assert (e' = e).
      { unfold Tryhard.find_target in H. cbv zeta in H. rewrite Hr in H.
        cbn [Py.bind] in H. now injection H. }
      subst e'. unfold Tryhard.reachable in Hr.
      destruct (filterM_raise _ _ _ Hr) as [x [Hx Hp]].
      destruct (can_reach_cases self pos (position x) base tx lvl)
        as [[_ [k Hk]]|[Hs Hz]]; [rewrite Hk in Hp; discriminate|].
      rewrite Hz in Hp. injection Hp as <-.
      repeat split; [assumption|]. intros E. rewrite E in Hx. destruct Hx.
  - intros [-> [Hs Hv]].
    unfold Tryhard.find_target, Tryhard.reachable. cbv zeta.
    destruct (Tryhard.valid brainrots) as [|c0 v]; [congruence|].
    destruct (can_reach_cases self pos (position c0) base tx lvl)
      as [[Hn _]|[_ Hz]]; [contradiction|].
    rewrite (filterM_head_raise
               (fun b => Tryhard.can_reach_before_tsunami self pos (position b)
                           base tx lvl) c0 v _ Hz).
    reflexivity.
Qed.

Lemma gambler_raise_iff (self : Gambler.Strategy) (pos : Position)
    (brainrots : list Entity) (tx : R) (base : Position) (lvl money : R)
    (attrs : Attrs) (e : Error) :
  Gambler.find_target self pos brainrots tx base lvl money attrs = Raise e <->
  e = ZeroDivisionError /\ Gambler._player_speed lvl = 0 /\
  Gambler.valid brainrots <> [].
Proof.
  unfold Gambler.find_target. cbv zeta.
  destruct (Gambler.valid brainrots) as [|c0 v] eqn:Hv.
  - cbn [truthy negb]. split; [discriminate|]. intros [_ [_ H]]. congruence.
  - cbn [truthy negb]. rewrite <- Hv.
    assert (Hc0 : In c0 (Gambler.valid brainrots)) by (rewrite Hv; now left).
    assert (Hne : Gambler.valid brainrots <> []) by (rewrite Hv; discriminate).
    destruct (best_of_spec _ c0 Hc0) as [b0 [Hbest [Hb0 _]]].
    rewrite Hbest. cbn [snd].
    destruct (min_spec (fun b => distance pos (position b))
                (filter (fun b => String.eqb (get_rarity b) (get_rarity b0))
                        (Gambler.valid brainrots)))
      as [t [Hmin _]].
    { intros E.
      assert (H : In b0 (filter (fun b => String.eqb (get_rarity b) (get_rarity b0))
                           (Gambler.valid brainrots)))
        by (apply filter_In; split; [assumption|apply String.eqb_refl]).
      rewrite E in H. destruct H. }
    rewrite Hmin. cbn [Py.bind].
    destruct (min_spec (fun b => distance pos (position b)) _ Hne)
      as [f [Hf _]].
    destruct (gambler_safe_cases self (position t) base tx lvl)
      as [[Hs [k Hk]]|[Hs Hz]].
    + rewrite Hk. cbn [Py.bind].
      destruct (gambler_safe_cases self (position f) base tx lvl)
        as [[_ [k' Hk']]|[Hs' _]]; [|contradiction].
      split; [|intros [_ [Hs0 _]]; contradiction].
      destruct k; cbn [negb]; [discriminate|].
      rewrite Hf. cbn [Py.bind]. rewrite Hk'. cbn [Py.bind].
      destruct k'; discriminate.
    + rewrite Hz. cbn [Py.bind]. split.
      * intros H. injection H as <-. repeat split; assumption.
      * intros [-> _]. reflexivity.
Qed.

Lemma farmer_raise_iff (self : Farmer.Strategy) (pos : Position)
    (brainrots : list Entity) (tx : R) (base : Position) (lvl money : R)
    (attrs : Attrs) (e : Error) :
  Farmer.find_target self pos brainrots tx base lvl money attrs = Raise e <->
  e = ZeroDivisionError /\ Farmer._player_speed lvl = 0 /\
  exists v, Farmer.valid self brainrots = Ok v /\ v <> [].
Proof.
  destruct (farmer_valid_ok self brainrots) as [v Hv].
  unfold Farmer.find_target. rewrite Hv. cbn [Py.bind].
  destruct v as [|c0 v].
  - cbn [truthy negb]. split; [discriminate|].
    intros [_ [_ [v' [Hv' Hne]]]]. congruence.
  - cbn [truthy negb].
    destruct (farmer_safe_cases self (position c0) base tx lvl)
      as [[Hs _]|[Hs Hz]].
    + split; [|intros [_ [Hs0 _]]; contradiction].
      erewrite (filterM_ok _
        (fun b => ltb (distance (position b) base / Farmer._player_speed lvl)
                      ((px base - tx) / TSUNAMI_SPEED
                       - Farmer.safety_modifier self * 3))).
      2:{ intros b _. unfold Farmer.is_safe. cbv zeta.
          rewrite div_ok by assumption. reflexivity. }
      cbn [Py.bind]. cbv zeta.
      match goal with
      | |- context [Py.min ?key ?l] =>
          destruct (min_spec key l) as [m [Hm _]]
      end.
      { destruct (truthy (filter _ (c0 :: v))) eqn:E;
          [now apply truthy_true_iff|discriminate]. }
      rewrite Hm. discriminate.
    + rewrite (filterM_head_raise
                 (fun b => Farmer.is_safe self (position b) base tx lvl)
                 c0 v _ Hz).
      cbn [Py.bind]. split.
      * intros H. injection H as <-. repeat split; try assumption.
        exists (c0 :: v). split; [reflexivity|discriminate].
      * intros [-> _]. reflexivity.
Qed.

(** X4.  No policy's [find_target] raises [ZeroDivisionError] at a speed
    level of 0 or more, nor when its filtered pool is empty.  The only
    divisors are the player speed, which is at least 10.5 from level 0 on,
    and the constant hazard speed; and with an empty pool no policy
    divides. *)
Theorem find_target_divides_by_zero_only_below_level_zero
    (strategy : Policy) (pos : Position) (brainrots : list Entity)
    (tsunami_x : R) (base_center : Position) (speed_level money : R)
    (attrs : Attrs) :
  0 <= speed_level \/ pool strategy brainrots = Ok [] ->
  find_target strategy pos brainrots tsunami_x base_center speed_level money
    attrs <> Raise ZeroDivisionError.
Proof.
  intros Hsafe Hraise.
  assert (H : PLAYER_SPEED_BASE + (speed_level - 1) * PLAYER_SPEED_PER_LEVEL
              = 0 /\
              exists v, pool strategy brainrots = Ok v /\ v <> []).
  { destruct strategy as [self|self|self]; cbn [find_target pool] in *.
    - apply tryhard_raise_iff in Hraise. destruct Hraise as [_ [Hs Hv]].
      split; [exact Hs|]. eexists; split; [reflexivity|assumption].
    - apply gambler_raise_iff in Hraise. destruct Hraise as [_ [Hs Hv]].
      split; [exact Hs|]. eexists; split; [reflexivity|assumption].
    - apply farmer_raise_iff in Hraise. destruct Hraise as [_ [Hs Hv]].
      split; [exact Hs|exact Hv]. }
  destruct H as [Hs [v [Hv Hne]]].
  destruct Hsafe as [Hlvl|Hempty].
  - unfold PLAYER_SPEED_BASE, PLAYER_SPEED_PER_LEVEL in Hs. lra.
  - rewrite Hempty in Hv. injection Hv as <-. now apply Hne.
Qed.

(** Scenario 1 at speed level 1. *)
Lemma find_target_divides_by_zero_only_below_level_zero_witness :
  (0 <= 1 \/
   pool (TryhardStrategy Scenario.tryhard1)
     [Scenario.legendary_far; Scenario.common_near] = Ok []) /\
  find_target (TryhardStrategy Scenario.tryhard1) (Scenario.at_x 340)
    [Scenario.legendary_far; Scenario.common_near] (-500) Scenario.base 1 0
    Scenario.no_attrs <> Raise ZeroDivisionError.
Proof.
  assert (H : 0 <= 1 \/
              pool (TryhardStrategy Scenario.tryhard1)
                [Scenario.legendary_far; Scenario.common_near] = Ok [])
    by (left; lra).
  exact (conj H (find_target_divides_by_zero_only_below_level_zero
                   (TryhardStrategy Scenario.tryhard1) (Scenario.at_x 340)
                   [Scenario.legendary_far; Scenario.common_near] (-500)
                   Scenario.base 1 0 Scenario.no_attrs H)).
Defined.

(** ** The decision rules of Aggressive-Safe *)

Lemma wait_rule_iff (tx : R) (reach : list Entity) (pos base : Position) :
  gtb tx (-400) && negb (truthy reach) && ltb (distance pos base) 20 = true
  <-> tx > -400 /\ reach = [] /\ distance pos base < 20.
Proof.
  rewrite !andb_true_iff, gtb_true_iff, ltb_true_iff, negb_true_iff,
    truthy_false_iff.
  tauto.
Qed.

Lemma nearest_loop_inv (pos : Position) (candidates : list Entity)
    (order : list string) (b : Entity) (r : string) :
  Tryhard.nearest_loop pos candidates order = Ok (Some (b, r)) ->
  In b candidates /\ get_rarity b = r.
Proof.
  induction order as [|rarity order IH]; simpl; [discriminate|].
  destruct (filter (fun b => String.eqb (get_rarity b) rarity) candidates)
    as [|g0 group] eqn:Hg; cbn [truthy]; [exact IH|].
  cbn [Py.min Py.bind]. intros H. injection H as <- <-.
  pose proof (min_from_In (fun b => distance pos (position b)) group g0) as Hin.
  rewrite <- Hg in Hin. apply filter_In in Hin. destruct Hin as [Hin Hr].
  apply String.eqb_eq in Hr. now split.
Qed.

Lemma furthest_loop_inv (pos : Position) (candidates : list Entity)
    (order : list string) (b : Entity) (r : string) :
  Tryhard.furthest_loop pos candidates order = Ok (Some (b, r)) ->
  In b candidates /\ get_rarity b = r.
Proof.
  induction order as [|rarity order IH]; simpl; [discriminate|].
  destruct (filter (fun b => String.eqb (get_rarity b) rarity) candidates)
    as [|g0 group] eqn:Hg; cbn [truthy]; [exact IH|].
  cbn [Py.max Py.bind]. intros H. injection H as <- <-.
  pose proof (max_from_In (fun b => distance pos (position b)) group g0) as Hin.
  rewrite <- Hg in Hin. apply filter_In in Hin. destruct Hin as [Hin Hr].
  apply String.eqb_eq in Hr. now split.
Qed.

Lemma min_In {A : Type} (key : A -> R) (l : list A) (m : A) :
  Py.min key l = Ok m -> In m l /\ forall x, In x l -> key m <= key x.
Proof.
  destruct l as [|x l]; [discriminate|]. intros H. injection H as <-.
  split; [apply min_from_In|apply min_from_le].
Qed.

(** Every answer of Aggressive-Safe is [Wait] or is built from a valid
    candidate and its rarity. *)
Lemma tryhard_find_target_inv (self : Tryhard.Strategy) (pos : Position)
    (brainrots : list Entity) (tx : R) (base : Position) (lvl money : R)
    (attrs : Attrs) (action : Action) :
  Tryhard.find_target self pos brainrots tx base lvl money attrs
  = Ok (Some action) ->
  action = Wait "waiting for wave reset" \/
  exists b ev,
    In b (Tryhard.valid brainrots) /\
    action = Tryhard._move_or_collect pos b (get_rarity b) ev.
Proof.
  unfold Tryhard.find_target. cbv zeta.
  destruct (Tryhard.reachable self pos brainrots tx base lvl) as [reach|e]
    eqn:Hr; cbn [Py.bind]; [|discriminate].
  destruct (gtb tx (-400) && negb (truthy reach)
            && ltb (distance pos base) 20).
  { intros H. injection H as <-. now left. }
  destruct (if geb money Tryhard.AGGRESSIVE_THRESHOLD && gtb tx (px base)
               && ltb (distance pos base) 20
            then Tryhard._find_nearest_valuable pos (Tryhard.valid brainrots)
            else Ok None) as [[[b r]|]|e] eqn:Ha; cbn [Py.bind];
    [| |discriminate].
  - intros H. injection H as <-. right.
    destruct (geb money Tryhard.AGGRESSIVE_THRESHOLD && gtb tx (px base)
              && ltb (distance pos base) 20); [|discriminate].
    apply nearest_loop_inv in Ha. destruct Ha as [Hin <-].
    exists b. eexists. split; [exact Hin|reflexivity].
  - destruct (Tryhard._furthest_by_rarity pos reach) as [[[b r]|]|e] eqn:Hf;
      cbn [Py.bind]; [| |discriminate].
    + intros H. injection H as <-. right.
      apply furthest_loop_inv in Hf. destruct Hf as [Hin <-].
      exists b. eexists. split; [|reflexivity].
      unfold Tryhard.reachable in Hr.
      now destruct (filterM_In _ _ _ _ Hr Hin).
    + destruct (truthy (Tryhard.valid brainrots)); [|discriminate].
      destruct (Py.min (fun b => distance pos (position b))
                  (Tryhard.valid brainrots)) as [n|e] eqn:Hm;
        cbn [Py.bind]; [|discriminate].
      intros H. injection H as <-. right.
      apply min_In in Hm. destruct Hm as [Hin _].
      exists n. eexists. split; [exact Hin|reflexivity].
Qed.

(** X5.  Aggressive-Safe answers [Wait] exactly when the hazard is above
    the activity threshold, no candidate is reachable and the player is less
    than 20 units from the base center; money, the valid candidates and the
    hazard being past the base make no difference. *)
Theorem tryhard_waits_iff_active_unreachable_near_base
    (self : Tryhard.Strategy) (pos : Position) (brainrots : list Entity)
    (tsunami_x : R) (base_center : Position) (speed_level money : R)
    (attrs : Attrs) (reach : list Entity) :
  Tryhard.reachable self pos brainrots tsunami_x base_center speed_level
    = Ok reach ->
  ((exists ev,
      Tryhard.find_target self pos brainrots tsunami_x base_center speed_level
        money attrs = Ok (Some (Wait ev)))
   <->
   tsunami_x > -400 /\ reach = [] /\ distance pos base_center < 20).
Proof.
  intros Hr. rewrite <- wait_rule_iff. split.
  - intros [ev H].
    destruct (gtb tsunami_x (-400) && negb (truthy reach)
              && ltb (distance pos base_center) 20) eqn:Hw; [reflexivity|].
    exfalso. revert H.
    unfold Tryhard.find_target. cbv zeta. rewrite Hr. cbn [Py.bind].
    rewrite Hw.
    destruct (if geb money Tryhard.AGGRESSIVE_THRESHOLD
                 && gtb tsunami_x (px base_center)
                 && ltb (distance pos base_center) 20
              then Tryhard._find_nearest_valuable pos (Tryhard.valid brainrots)
              else Ok None) as [[[b r]|]|e]; cbn [Py.bind]; try discriminate.
    + intros H. injection H as H. now apply move_or_collect_not_wait in H.
    + destruct (Tryhard._furthest_by_rarity pos reach) as [[[b r]|]|e];
        cbn [Py.bind]; try discriminate.
      * intros H. injection H as H. now apply move_or_collect_not_wait in H.
      * destruct (truthy (Tryhard.valid brainrots)); [|discriminate].
        destruct (Py.min (fun b => distance pos (position b))
                    (Tryhard.valid brainrots)) as [n|e];
          cbn [Py.bind]; [|discriminate].
        intros H. injection H as H. now apply move_or_collect_not_wait in H.
  - intros Hw. eexists.
    unfold Tryhard.find_target. cbv zeta. rewrite Hr. cbn [Py.bind].
    rewrite Hw. reflexivity.
Qed.

Lemma common_left_unreachable :
  Tryhard.reachable Scenario.tryhard1 (Scenario.at_x 370)
    [Scenario.common_left] 400 Scenario.base 1 = Ok [].
Proof.
  unfold Scenario.common_left, Scenario.base, Scenario.tryhard1.
  py_eval. reflexivity.
Qed.

Lemma tryhard_waits_iff_active_unreachable_near_base_witness :
  Tryhard.reachable Scenario.tryhard1 (Scenario.at_x 370)
    [Scenario.common_left] 400 Scenario.base 1 = Ok [] /\
  ((exists ev,
      Tryhard.find_target Scenario.tryhard1 (Scenario.at_x 370)
        [Scenario.common_left] 400 Scenario.base 1 3000 Scenario.no_attrs
      = Ok (Some (Wait ev)))
   <->
   400 > -400 /\ @nil Entity = [] /\
   distance (Scenario.at_x 370) Scenario.base < 20).
Proof.
  split; [exact common_left_unreachable|].
  exact (tryhard_waits_iff_active_unreachable_near_base Scenario.tryhard1
           (Scenario.at_x 370) [Scenario.common_left] 400 Scenario.base 1
           3000 Scenario.no_attrs [] common_left_unreachable).
Defined.

(** X6.  Aggressive-Safe, nothing reachable, neither the hazard-wait rule
    nor the aggressive rule applicable, some valid candidate: the target is
    a valid candidate nearest to the player, tagged as the risky fallback. *)
Theorem tryhard_falls_back_to_nearest_valid
    (self : Tryhard.Strategy) (pos : Position) (brainrots : list Entity)
    (tsunami_x : R) (base_center : Position) (speed_level money : R)
    (attrs : Attrs) :
  Tryhard.reachable self pos brainrots tsunami_x base_center speed_level
    = Ok [] ->
  tsunami_x <= -400 \/ 20 <= distance pos base_center ->
  money < 2500 \/ tsunami_x <= px base_center
    \/ 20 <= distance pos base_center ->
  Tryhard.valid brainrots <> [] ->
  exists nearest,
    In nearest (Tryhard.valid brainrots) /\
    (forall c, In c (Tryhard.valid brainrots) ->
       distance pos (position nearest) <= distance pos (position c)) /\
    Tryhard.find_target self pos brainrots tsunami_x base_center speed_level
      money attrs
    = Ok (Some (Tryhard._move_or_collect pos nearest (get_rarity nearest)
                  "risky nearest fallback")).
Proof.
  intros Hr Hnowait Hnoaggr Hv.
  destruct (min_spec (fun b => distance pos (position b)) _ Hv)
    as [m [Hm [Hin Hle]]].
  exists m. split; [assumption|]. split; [assumption|].
  unfold Tryhard.find_target. cbv zeta. rewrite Hr. cbn [Py.bind truthy negb].
  assert (Hw : gtb tsunami_x (-400) && true
               && ltb (distance pos base_center) 20 = false).
  { destruct Hnowait as [H|H].
    - now rewrite (proj2 (gtb_false_iff _ _) H).
    - rewrite (proj2 (ltb_false_iff _ _) H). apply andb_false_r. }
  rewrite Hw.
  assert (Ha : geb money Tryhard.AGGRESSIVE_THRESHOLD
               && gtb tsunami_x (px base_center)
               && ltb (distance pos base_center) 20 = false).
  { unfold Tryhard.AGGRESSIVE_THRESHOLD. destruct Hnoaggr as [H|[H|H]].
    - now rewrite (proj2 (geb_false_iff _ _) H).
    - rewrite (proj2 (gtb_false_iff _ _) H). now rewrite andb_false_r.
    - rewrite (proj2 (ltb_false_iff _ _) H). apply andb_false_r. }
  rewrite Ha. cbn [Py.bind].
  unfold Tryhard._furthest_by_rarity. rewrite furthest_loop_nil.
  cbn [Py.bind]. rewrite (proj2 (truthy_true_iff _) Hv).
  rewrite Hm. reflexivity.
Qed.

Lemma common_left_valid :
  Tryhard.valid [Scenario.common_left] = [Scenario.common_left].
Proof. unfold Scenario.common_left. py_eval. reflexivity. Qed.

Lemma common_left_unreachable_from_afar :
  Tryhard.reachable Scenario.tryhard1 (Scenario.at_x 300)
    [Scenario.common_left] 400 Scenario.base 1 = Ok [].
Proof.
  unfold Scenario.common_left, Scenario.base, Scenario.tryhard1.
  py_eval. reflexivity.
Qed.

Lemma tryhard_falls_back_to_nearest_valid_witness :
  (Tryhard.reachable Scenario.tryhard1 (Scenario.at_x 300)
     [Scenario.common_left] 400 Scenario.base 1 = Ok [] /\
   (400 <= -400 \/ 20 <= distance (Scenario.at_x 300) Scenario.base) /\
   (0 < 2500 \/ 400 <= px Scenario.base
    \/ 20 <= distance (Scenario.at_x 300) Scenario.base) /\
   Tryhard.valid [Scenario.common_left] <> []) /\
  exists nearest,
    In nearest (Tryhard.valid [Scenario.common_left]) /\
    (forall c, In c (Tryhard.valid [Scenario.common_left]) ->
       distance (Scenario.at_x 300) (position nearest)
       <= distance (Scenario.at_x 300) (position c)) /\
    Tryhard.find_target Scenario.tryhard1 (Scenario.at_x 300)
      [Scenario.common_left] 400 Scenario.base 1 0 Scenario.no_attrs
    = Ok (Some (Tryhard._move_or_collect (Scenario.at_x 300) nearest
                  (get_rarity nearest) "risky nearest fallback")).
Proof.
  assert (H2 : 400 <= -400 \/ 20 <= distance (Scenario.at_x 300) Scenario.base).
  { right. unfold Scenario.base. geo_eval. lra. }
  assert (H3 : 0 < 2500 \/ 400 <= px Scenario.base
               \/ 20 <= distance (Scenario.at_x 300) Scenario.base)
    by (left; lra).
  assert (H4 : Tryhard.valid [Scenario.common_left] <> [])
    by (rewrite common_left_valid; discriminate).
  split; [exact (conj common_left_unreachable_from_afar (conj H2 (conj H3 H4)))|].
  exact (tryhard_falls_back_to_nearest_valid Scenario.tryhard1
           (Scenario.at_x 300) [Scenario.common_left] 400 Scenario.base 1 0
           Scenario.no_attrs common_left_unreachable_from_afar H2 H3 H4).
Defined.

(** ** What the policies target *)

Lemma valid_spec (brainrots : list Entity) (b : Entity) :
  In b (Tryhard.valid brainrots) <->
  In b brainrots /\ py (position b) > -100 /\ px (position b) <= BASE_ZONE_X.
Proof.
  unfold Tryhard.valid, is_in_base_zone.
  rewrite filter_In, andb_true_iff, negb_true_iff, gtb_true_iff,
    gtb_false_iff.
  tauto.
Qed.

Lemma gambler_valid_eq (brainrots : list Entity) :
  Gambler.valid brainrots = Tryhard.valid brainrots.
Proof. reflexivity. Qed.

(** The three [_move_or_collect] methods are one function: [Collect] within
    5 units, [MoveTo] the candidate otherwise. *)
Lemma move_or_collect_cases (pos : Position) (b : Entity) (r ev : string) :
  (distance pos (position b) < 5 /\
   Tryhard._move_or_collect pos b r ev = Collect r ("collected " ++ r)) \/
  (5 <= distance pos (position b) /\
   Tryhard._move_or_collect pos b r ev = MoveTo (position b) r ev).
Proof.
  unfold Tryhard._move_or_collect. cbv zeta.
  destruct (ltb (distance pos (position b)) 5) eqn:E.
  - left. apply ltb_true_iff in E. now split.
  - right. apply ltb_false_iff in E. now split.
Qed.

(** Every answer of Risk-Seeking is built from a valid candidate that is the
    nearest of the best tier present, or the nearest of all that also passes
    the safety check. *)
Lemma gambler_find_target_inv (self : Gambler.Strategy) (pos : Position)
    (brainrots : list Entity) (tx : R) (base : Position) (lvl money : R)
    (attrs : Attrs) (action : Action) :
  Gambler.find_target self pos brainrots tx base lvl money attrs
  = Ok (Some action) ->
  exists b ev,
    In b (Gambler.valid brainrots) /\
    action = Gambler._move_or_collect pos b (get_rarity b) ev /\
    (((forall c, In c (Gambler.valid brainrots) ->
         (rarity_priority (get_rarity b) <= rarity_priority (get_rarity c))%Z) /\
      (forall c, In c (Gambler.valid brainrots) ->
         get_rarity c = get_rarity b ->
         distance pos (position b) <= distance pos (position c)))
     \/
     (Gambler.is_safe_enough self (position b) base tx lvl = Ok true /\
      forall c, In c (Gambler.valid brainrots) ->
        distance pos (position b) <= distance pos (position c))).
Proof.
  unfold Gambler.find_target. cbv zeta.
  destruct (Gambler.valid brainrots) as [|c0 v] eqn:Hv;
    cbn [truthy negb]; [discriminate|].
  rewrite <- Hv.
  assert (Hc0 : In c0 (Gambler.valid brainrots)) by (rewrite Hv; now left).
  destruct (best_of_spec _ c0 Hc0) as [b0 [Hbest [Hb0 Htop]]].
  rewrite Hbest. cbn [snd].
  destruct (Py.min (fun b => distance pos (position b))
              (filter (fun b => String.eqb (get_rarity b) (get_rarity b0))
                      (Gambler.valid brainrots))) as [t|e] eqn:Hmin;
    cbn [Py.bind]; [|discriminate].
  apply min_In in Hmin. destruct Hmin as [Ht Hnear].
  apply filter_In in Ht. destruct Ht as [Htv Htr]. apply String.eqb_eq in Htr.
  assert (Htier :
    (forall c, In c (Gambler.valid brainrots) ->
       (rarity_priority (get_rarity t) <= rarity_priority (get_rarity c))%Z) /\
    (forall c, In c (Gambler.valid brainrots) ->
       get_rarity c = get_rarity t ->
       distance pos (position t) <= distance pos (position c))).
  { split.
    - rewrite Htr. exact Htop.
    - intros c Hc Hr. apply Hnear. apply filter_In; split; [assumption|].
      rewrite Hr, Htr. apply String.eqb_refl. }
  destruct (Gambler.is_safe_enough self (position t) base tx lvl) as [k|e];
    cbn [Py.bind]; [|discriminate].
  destruct k; cbn [negb].
  - intros H. injection H as <-. exists t. eexists.
    split; [assumption|]. split; [now rewrite Htr|]. now left.
  - destruct (Py.min (fun b => distance pos (position b))
                (Gambler.valid brainrots)) as [f|e] eqn:Hf;
      cbn [Py.bind]; [|discriminate].
    apply min_In in Hf. destruct Hf as [Hfin Hfle].
    destruct (Gambler.is_safe_enough self (position f) base tx lvl) as [k'|e]
      eqn:Hk; cbn [Py.bind]; [|discriminate].
    destruct k'.
    + intros H. injection H as <-. exists f. eexists.
      split; [assumption|]. split; [reflexivity|]. right. now split.
    + intros H. injection H as <-. exists t. eexists.
      split; [assumption|]. split; [reflexivity|]. now left.
Qed.

(** X7.  Risk-Seeking never answers [Wait].  The candidate it targets is
    valid and is either the nearest candidate of the highest rarity tier
    present, or the nearest candidate of all, and then one that passes the
    safety check: the policy leaves the best tier only for a target it has
    checked. *)
Theorem gambler_leaves_best_tier_only_for_checked_target
    (self : Gambler.Strategy) (pos : Position) (brainrots : list Entity)
    (tsunami_x : R) (base_center : Position) (speed_level money : R)
    (attrs : Attrs) (action : Action) :
  Gambler.find_target self pos brainrots tsunami_x base_center speed_level
    money attrs = Ok (Some action) ->
  (forall ev, action <> Wait ev) /\
  exists b ev,
    In b (Gambler.valid brainrots) /\
    action = Gambler._move_or_collect pos b (get_rarity b) ev /\
    (((forall c, In c (Gambler.valid brainrots) ->
         (rarity_priority (get_rarity b) <= rarity_priority (get_rarity c))%Z) /\
      (forall c, In c (Gambler.valid brainrots) ->
         get_rarity c = get_rarity b ->
         distance pos (position b) <= distance pos (position c)))
     \/
     (Gambler.is_safe_enough self (position b) base_center tsunami_x
        speed_level = Ok true /\
      forall c, In c (Gambler.valid brainrots) ->
        distance pos (position b) <= distance pos (position c))).
Proof.
  intros H.
  destruct (gambler_find_target_inv _ _ _ _ _ _ _ _ _ H)
    as [b [ev [Hb [Hact Hsel]]]].
  split.
  - intros ev' E. rewrite Hact in E.
    change (Gambler._move_or_collect pos b (get_rarity b) ev)
      with (Tryhard._move_or_collect pos b (get_rarity b) ev) in E.
    now apply move_or_collect_not_wait in E.
  - exists b, ev. repeat split; assumption.
Qed.

Lemma gambler_leaves_best_tier_only_for_checked_target_witness :
  Gambler.find_target Scenario.gambler1 (Scenario.at_x 100)
    [Scenario.legendary_unsafe; Scenario.legendary_safe; Scenario.common_safe]
    (-500) Scenario.base 1 0 Scenario.no_attrs
  = Ok (Some (MoveTo (Scenario.at_x 105) "Common" "gambler fallback - nearest"))
  /\
  (forall ev,
     MoveTo (Scenario.at_x 105) "Common" "gambler fallback - nearest"
     <> Wait ev).
Proof.
  split; [exact gambler_falls_back_to_common|].
  exact (proj1 (gambler_leaves_best_tier_only_for_checked_target
                  Scenario.gambler1 (Scenario.at_x 100)
                  [Scenario.legendary_unsafe; Scenario.legendary_safe;
                   Scenario.common_safe]
                  (-500) Scenario.base 1 0 Scenario.no_attrs _
                  gambler_falls_back_to_common)).
Defined.

(** X8.  Whatever action a policy answers, it is [Wait] or it is aimed at an
    entity of the list it was given that is alive (y above -100) and outside
    the base zone (x at most 350): [Collect] when that candidate is less
    than 5 units from the player, [MoveTo] its position otherwise, with the
    candidate's own rarity. *)
Theorem policies_target_live_candidates_outside_base (strategy : Policy)
    (pos : Position) (brainrots : list Entity) (tsunami_x : R)
    (base_center : Position) (speed_level money : R) (attrs : Attrs)
    (action : Action) :
  find_target strategy pos brainrots tsunami_x base_center speed_level money
    attrs = Ok (Some action) ->
  action = Wait "waiting for wave reset" \/
  exists b,
    In b brainrots /\ py (position b) > -100 /\
    px (position b) <= BASE_ZONE_X /\
    ((distance pos (position b) < 5 /\
      action = Collect (get_rarity b) ("collected " ++ get_rarity b)) \/
     (5 <= distance pos (position b) /\
      exists ev, action = MoveTo (position b) (get_rarity b) ev)).
Proof.
  intros H.
  assert (Hsel : action = Wait "waiting for wave reset" \/
            exists b ev, In b (Tryhard.valid brainrots) /\
              action = Tryhard._move_or_collect pos b (get_rarity b) ev).
  { destruct strategy as [self|self|self]; cbn [find_target] in H.
    - now apply tryhard_find_target_inv in H.
    - right. destruct (gambler_find_target_inv _ _ _ _ _ _ _ _ _ H)
        as [b [ev [Hb [Hact _]]]].
      exists b, ev. split; [exact Hb|exact Hact].
    - right. destruct (farmer_find_target_some _ _ _ _ _ _ _ _ _ H)
        as [v [b [Hv [Hb Hact]]]].
      destruct (farmer_valid_spec self brainrots v b Hv Hb)
        as [Hin [Hy [Hz _]]].
      exists b. eexists. split; [|exact Hact].
      apply valid_spec. repeat split; try assumption.
      unfold is_in_base_zone in Hz. now apply gtb_false_iff in Hz. }
  destruct Hsel as [Hw|[b [ev [Hb Hact]]]]; [now left|right].
  apply valid_spec in Hb. destruct Hb as [Hin [Hy Hx]].
  exists b. repeat split; try assumption.
  destruct (move_or_collect_cases pos b (get_rarity b) ev) as [[Hd E]|[Hd E]];
    rewrite E in Hact.
  - left. now split.
  - right. split; [assumption|]. now exists ev.
Qed.

Lemma policies_target_live_candidates_outside_base_witness :
  find_target (FarmerStrategy Scenario.farmer1) (Scenario.at_x 340)
    [Scenario.legendary_in_zone; Scenario.common_beyond] (-500) Scenario.base
    1 0 Scenario.no_attrs
  = Ok (Some (MoveTo (Scenario.at_x 320) "Legendary"
                "farming Legendary in zone")) /\
  (MoveTo (Scenario.at_x 320) "Legendary" "farming Legendary in zone"
   = Wait "waiting for wave reset" \/
   exists b,
     In b [Scenario.legendary_in_zone; Scenario.common_beyond] /\
     py (position b) > -100 /\ px (position b) <= BASE_ZONE_X /\
     ((distance (Scenario.at_x 340) (position b) < 5 /\
       MoveTo (Scenario.at_x 320) "Legendary" "farming Legendary in zone"
       = Collect (get_rarity b) ("collected " ++ get_rarity b)) \/
      (5 <= distance (Scenario.at_x 340) (position b) /\
       exists ev,
         MoveTo (Scenario.at_x 320) "Legendary" "farming Legendary in zone"
         = MoveTo (position b) (get_rarity b) ev))).
Proof.
  split; [exact farmer_targets_legendary_in_zone|].
  exact (policies_target_live_candidates_outside_base
           (FarmerStrategy Scenario.farmer1) (Scenario.at_x 340)
           [Scenario.legendary_in_zone; Scenario.common_beyond] (-500)
           Scenario.base 1 0 Scenario.no_attrs _
           farmer_targets_legendary_in_zone).
Defined.

(** The rarity filter of Zone-Restricted, when it is on, is a plain filter
    on the priority. *)
Lemma farmer_valid_filter (self : Farmer.Strategy) (brainrots : list Entity) :
  (Farmer.min_rarity_priority self > 0)%Z ->
  Farmer.valid self brainrots
  = Ok (filter (fun b => (rarity_priority (get_rarity b)
                          >=? Farmer.min_rarity_priority self)%Z)
               (Farmer.in_zone self brainrots)).
Proof.
  intros Hm. unfold Farmer.valid.
  rewrite (proj2 (Z.gtb_lt _ _)) by lia.
  apply filterM_ok. intros b _. unfold Farmer.meets_rarity.
  destruct (get_rarity_index b) as [i [Hi _]].
  now rewrite Hi, (rarity_priority_index _ _ Hi).
Qed.

(** X9.  Zone-Restricted targets the nearest candidate among those of its
    filtered pool that pass the safety check; only when none passes does it
    target the nearest candidate of the whole pool. *)
Theorem farmer_targets_nearest_safe_else_nearest (self : Farmer.Strategy)
    (pos : Position) (brainrots : list Entity) (tsunami_x : R)
    (base_center : Position) (speed_level money : R) (attrs : Attrs)
    (action : Action) :
  Farmer.find_target self pos brainrots tsunami_x base_center speed_level
    money attrs = Ok (Some action) ->
  exists v b,
    Farmer.valid self brainrots = Ok v /\ In b v /\
    action = Farmer._move_or_collect pos b (get_rarity b)
               ("farming " ++ get_rarity b ++ " in zone") /\
    (forall c, In c v ->
       Farmer.is_safe self (position c) base_center tsunami_x speed_level
       = Ok true ->
       Farmer.is_safe self (position b) base_center tsunami_x speed_level
       = Ok true /\
       distance pos (position b) <= distance pos (position c)) /\
    ((forall c, In c v ->
        Farmer.is_safe self (position c) base_center tsunami_x speed_level
        <> Ok true) ->
     forall c, In c v -> distance pos (position b) <= distance pos (position c)).
Proof.
  unfold Farmer.find_target.
  destruct (Farmer.valid self brainrots) as [v|e]; cbn [Py.bind];
    [|discriminate].
  destruct (truthy v) eqn:Hv; cbn [negb]; [|discriminate].
  destruct (filterM (fun b => Farmer.is_safe self (position b) base_center
                                tsunami_x speed_level) v) as [safe|e] eqn:Hs;
    cbn [Py.bind]; [|discriminate].
  cbv zeta.
  destruct (Py.min (fun b => distance pos (position b))
              (if truthy safe then safe else v)) as [t|e] eqn:Hmin;
    cbn [Py.bind]; [|discriminate].
  intros H. injection H as <-.
  apply min_In in Hmin. destruct Hmin as [Hin Hle].
  exists v, t. split; [reflexivity|].
  destruct safe as [|s0 safe]; cbn [truthy] in Hin, Hle.
  - split; [assumption|]. split; [reflexivity|]. split.
    + intros c Hc Hsafe.
      pose proof (filterM_complete _ _ _ c Hs Hc Hsafe) as F. destruct F.
    + intros _ c Hc. now apply Hle.
  - destruct (filterM_In _ _ _ _ Hs Hin) as [Htv Htsafe].
    split; [assumption|]. split; [reflexivity|]. split.
    + intros c Hc Hsafe. split; [assumption|].
      apply Hle. exact (filterM_complete _ _ _ c Hs Hc Hsafe).
    + intros Hnone. exfalso. exact (Hnone t Htv Htsafe).
Qed.

Lemma farmer_targets_nearest_safe_else_nearest_witness :
  Farmer.find_target Scenario.farmer1 (Scenario.at_x 340)
    [Scenario.legendary_in_zone; Scenario.common_beyond] (-500) Scenario.base
    1 0 Scenario.no_attrs
  = Ok (Some (MoveTo (Scenario.at_x 320) "Legendary"
                "farming Legendary in zone")) /\
  exists v b,
    Farmer.valid Scenario.farmer1
      [Scenario.legendary_in_zone; Scenario.common_beyond] = Ok v /\
    In b v /\
    MoveTo (Scenario.at_x 320) "Legendary" "farming Legendary in zone"
    = Farmer._move_or_collect (Scenario.at_x 340) b (get_rarity b)
        ("farming " ++ get_rarity b ++ " in zone") /\
    (forall c, In c v ->
       Farmer.is_safe Scenario.farmer1 (position c) Scenario.base (-500) 1
       = Ok true ->
       Farmer.is_safe Scenario.farmer1 (position b) Scenario.base (-500) 1
       = Ok true /\
       distance (Scenario.at_x 340) (position b)
       <= distance (Scenario.at_x 340) (position c)) /\
    ((forall c, In c v ->
        Farmer.is_safe Scenario.farmer1 (position c) Scenario.base (-500) 1
        <> Ok true) ->
     forall c, In c v ->
       distance (Scenario.at_x 340) (position b)
       <= distance (Scenario.at_x 340) (position c)).
Proof.
  split; [exact farmer_targets_legendary_in_zone|].
  exact (farmer_targets_nearest_safe_else_nearest Scenario.farmer1
           (Scenario.at_x 340)
           [Scenario.legendary_in_zone; Scenario.common_beyond] (-500)
           Scenario.base 1 0 Scenario.no_attrs _
           farmer_targets_legendary_in_zone).
Defined.

(** X10.  A minimum rarity priority above 5, the index of Common, filters
    every candidate out: Zone-Restricted then answers [None] on every
    snapshot and never raises. *)
Theorem farmer_threshold_above_common_finds_nothing (self : Farmer.Strategy)
    (pos : Position) (brainrots : list Entity) (tsunami_x : R)
    (base_center : Position) (speed_level money : R) (attrs : Attrs) :
  (Farmer.min_rarity_priority self > 5)%Z ->
  Farmer.find_target self pos brainrots tsunami_x base_center speed_level
    money attrs = Ok None.
Proof.
  intros Hm. unfold Farmer.find_target.
  rewrite farmer_valid_filter by lia.
  rewrite filter_none.
  - reflexivity.
  - intros b _. pose proof (rarity_priority_lt_6 b).
    rewrite Z.geb_leb. apply Z.leb_gt. lia.
Qed.

Lemma farmer_threshold_above_common_finds_nothing_witness :
  (Farmer.min_rarity_priority (Farmer.mkStrategy 2 300 6) > 5)%Z /\
  Farmer.find_target (Farmer.mkStrategy 2 300 6) (Scenario.at_x 340)
    [Scenario.legendary_in_zone; Scenario.common_beyond] (-500) Scenario.base
    1 0 Scenario.no_attrs = Ok None.
Proof.
  assert (H : (Farmer.min_rarity_priority (Farmer.mkStrategy 2 300 6) > 5)%Z)
    by (simpl; lia).
  exact (conj H (farmer_threshold_above_common_finds_nothing
                   (Farmer.mkStrategy 2 300 6) (Scenario.at_x 340)
                   [Scenario.legendary_in_zone; Scenario.common_beyond] (-500)
                   Scenario.base 1 0 Scenario.no_attrs H)).
Defined.

Lemma rarity_priority_zero_iff_secret (b : Entity) :
  rarity_priority (get_rarity b) = 0%Z <-> get_rarity b = "Secret"%string.
Proof.
  pose proof (get_rarity_in_order b) as Hin.
  unfold RARITY_ORDER in Hin. simpl in Hin.
  destruct Hin as [E|[E|[E|[E|[E|[E|[]]]]]]]; rewrite <- E;
    split; intros H; try reflexivity; try discriminate.
Qed.

(** X11.  With a minimum rarity priority of 1 the rarity filter of
    Zone-Restricted drops the Secret candidates and keeps every other
    rarity, Common included. *)
Theorem farmer_threshold_one_drops_only_secret (self : Farmer.Strategy)
    (brainrots : list Entity) :
  Farmer.min_rarity_priority self = 1%Z ->
  exists v,
    Farmer.valid self brainrots = Ok v /\
    forall b, In b v <->
              In b (Farmer.in_zone self brainrots) /\
              get_rarity b <> "Secret"%string.
Proof.
  intros Hm. rewrite farmer_valid_filter by lia.
  eexists; split; [reflexivity|].
  intros b. rewrite filter_In, Hm, <- rarity_priority_zero_iff_secret.
  pose proof (rarity_priority_lt_6 b) as Hlt.
  destruct (get_rarity_index b) as [i [Hi _]].
  rewrite (rarity_priority_index _ _ Hi) in *.
  rewrite Z.geb_le. split; intros [H1 H2]; (split; [assumption|lia]).
Qed.

Lemma farmer_threshold_one_drops_only_secret_witness :
  Farmer.min_rarity_priority Scenario.farmer1 = 1%Z /\
  exists v,
    Farmer.valid Scenario.farmer1
      [Scenario.legendary_in_zone; Scenario.common_beyond] = Ok v /\
    forall b, In b v <->
              In b (Farmer.in_zone Scenario.farmer1
                      [Scenario.legendary_in_zone; Scenario.common_beyond]) /\
              get_rarity b <> "Secret"%string.
Proof.
  assert (H : Farmer.min_rarity_priority Scenario.farmer1 = 1%Z)
    by reflexivity.
  exact (conj H (farmer_threshold_one_drops_only_secret Scenario.farmer1
                   [Scenario.legendary_in_zone; Scenario.common_beyond] H)).
Defined.

(** ** One cycle of the state machine *)

Lemma destroy_lowest_value_cases (send_input : Input -> bool)
    (placed : list Placed) :
  (placed = [] /\ destroy_lowest_value send_input placed = ([], true)) \/
  (exists lowest,
     In lowest placed /\ (forall p, In p placed -> value lowest <= value p) /\
     destroy_lowest_value send_input placed
     = ([Send_Destroy (placed_index lowest)],
        send_input (Send_Destroy (placed_index lowest)))).
Proof.
  unfold destroy_lowest_value. destruct placed as [|p0 placed].
  - left. split; reflexivity.
  - right. cbn [truthy negb Py.min].
    exists (min_from value p0 placed).
    split; [apply min_from_In|]. split; [apply min_from_le|reflexivity].
Qed.

(** The hazard front of a snapshot never raises. *)
Lemma tsunami_x_of_total (es : list Entity) :
  exists tx, tsunami_x_of es = Ok tx.
Proof.
  unfold tsunami_x_of. cbv zeta.
  destruct (filter _ es) as [|w ws]; cbn [truthy map Py.min];
    eexists; reflexivity.
Qed.

(** What a policy answer is aimed at. *)
Lemma policy_target_cases (strategy : Policy)
    (pos : Position) (brainrots : list Entity) (tsunami_x : R)
    (base_center : Position) (speed_level money : R) (attrs : Attrs)
    (action : Action) :
  find_target strategy pos brainrots tsunami_x base_center speed_level money
    attrs = Ok (Some action) ->
  action = Wait "waiting for wave reset" \/
  exists b,
    In b brainrots /\ py (position b) > -100 /\
    px (position b) <= BASE_ZONE_X /\
    ((distance pos (position b) < 5 /\
      action = Collect (get_rarity b) ("collected " ++ get_rarity b)) \/
     (5 <= distance pos (position b) /\
      exists ev, action = MoveTo (position b) (get_rarity b) ev)).
Proof.
  intros H.
  assert (Hsel : action = Wait "waiting for wave reset" \/
            exists b ev, In b (Tryhard.valid brainrots) /\
              action = Tryhard._move_or_collect pos b (get_rarity b) ev).
  { destruct strategy as [self|self|self]; cbn [find_target] in H.
    - now apply tryhard_find_target_inv in H.
    - right. destruct (gambler_find_target_inv _ _ _ _ _ _ _ _ _ H)
        as [b [ev [Hb [Hact _]]]].
      exists b, ev. split; [exact Hb|exact Hact].
    - right. destruct (farmer_find_target_some _ _ _ _ _ _ _ _ _ H)
        as [v [b [Hv [Hb Hact]]]].
      destruct (farmer_valid_spec self brainrots v b Hv Hb)
        as [Hin [Hy [Hz _]]].
      exists b. eexists. split; [|exact Hact].
      apply valid_spec. repeat split; try assumption.
      unfold is_in_base_zone in Hz. now apply gtb_false_iff in Hz. }
  destruct Hsel as [Hw|[b [ev [Hb Hact]]]]; [now left|right].
  apply valid_spec in Hb. destruct Hb as [Hin [Hy Hx]].
  exists b. repeat split; try assumption.
  destruct (move_or_collect_cases pos b (get_rarity b) ev) as [[Hd E]|[Hd E]];
    rewrite E in Hact.
  - left. now split.
  - right. split; [assumption|]. now exists ev.
Qed.

(** The requests of the deposit step near the base: [Deposit] alone when
    nothing has to be destroyed, otherwise [Destroy] of a lowest-value placed
    resource, followed by [Deposit] when the [Destroy] request returns. *)
Lemma deposit_step_cases (send_input : Input -> bool) (attrs : Attrs) :
  let step :=
    let (destroyed, returned) :=
      if geb (INR (List.length (placed_of attrs))) (base_max_of attrs)
      then destroy_lowest_value send_input (placed_of attrs)
      else ([], true) in
    if returned then destroyed ++ [Send_Deposit] else destroyed in
  step = [Send_Deposit] \/
  exists lowest,
    In lowest (placed_of attrs) /\
    (forall p, In p (placed_of attrs) -> value lowest <= value p) /\
    INR (List.length (placed_of attrs)) >= base_max_of attrs /\
    step = if send_input (Send_Destroy (placed_index lowest))
           then [Send_Destroy (placed_index lowest); Send_Deposit]
           else [Send_Destroy (placed_index lowest)].
Proof.
  cbv zeta.
  destruct (geb (INR (List.length (placed_of attrs))) (base_max_of attrs))
    eqn:Hcap; [|now left].
  apply geb_true_iff in Hcap.
  destruct (destroy_lowest_value_cases send_input (placed_of attrs))
    as [[_ E]|[lowest [Hin [Hle E]]]]; rewrite E; [now left|right].
  exists lowest. split; [assumption|]. split; [assumption|].
  split; [assumption|].
  destruct (send_input (Send_Destroy (placed_index lowest))); reflexivity.
Qed.

(** The five ways a cycle can end, each with its guard and its requests. *)
Lemma run_agent_cycle_cases (send_input : Input -> bool) (strategy : Policy)
    (loop : Loop) (state : State) :
  let attrs := player_attributes state in
  let sent := snd (run_agent_cycle send_input strategy loop state) in
  (stuck_abort loop state = true /\
   sent = [Send_MoveTo (base_center_of attrs)])
  \/
  (stuck_abort loop state = false /\
   carrying_of attrs >= capacity_of attrs /\
   distance (pos_of state) (base_center_of attrs) < 20 /\
   (sent = [Send_Deposit] \/
    exists lowest,
      In lowest (placed_of attrs) /\
      (forall p, In p (placed_of attrs) -> value lowest <= value p) /\
      INR (List.length (placed_of attrs)) >= base_max_of attrs /\
      sent = if send_input (Send_Destroy (placed_index lowest))
             then [Send_Destroy (placed_index lowest); Send_Deposit]
             else [Send_Destroy (placed_index lowest)]))
  \/
  (stuck_abort loop state = false /\
   carrying_of attrs >= capacity_of attrs /\
   20 <= distance (pos_of state) (base_center_of attrs) /\
   sent = [Send_MoveTo (base_center_of attrs)])
  \/
  (stuck_abort loop state = false /\
   carrying_of attrs < capacity_of attrs /\
   upgrade_due strategy attrs = true /\
   sent = [if gtb (distance (pos_of state) SPEED_SHOP) 20
           then Send_MoveTo SPEED_SHOP else Send_BuySpeed])
  \/
  (stuck_abort loop state = false /\
   carrying_of attrs < capacity_of attrs /\
   upgrade_due strategy attrs = false /\
   exists tx,
     tsunami_x_of (entities state) = Ok tx /\
     sent = match find_target strategy (pos_of state) (brainrots_of state) tx
                    (base_center_of attrs) (speed_level_of attrs)
                    (money_of attrs) attrs with
            | Raise _ => []
            | Ok None => [Send_MoveTo (base_center_of attrs)]
            | Ok (Some (MoveTo target _ _)) => [Send_MoveTo target]
            | Ok (Some (Collect _ _)) => [Send_Collect]
            | Ok (Some (Wait _)) => []
            end).
Proof.
  cbv zeta.
  destruct (tsunami_x_of_total (entities state)) as [tx Htx].
  unfold run_agent_cycle. cbv zeta. rewrite Htx.
  destruct (stuck_abort loop state) eqn:Hs; [left; now split|right].
  destruct (geb (carrying_of (player_attributes state))
                (capacity_of (player_attributes state))) eqn:Hfull.
  - apply geb_true_iff in Hfull.
    destruct (ltb (distance (pos_of state)
                     (base_center_of (player_attributes state))) 20) eqn:Hn.
    + apply ltb_true_iff in Hn. left.
      split; [reflexivity|]. split; [assumption|]. split; [assumption|].
      pose proof (deposit_step_cases send_input (player_attributes state))
        as Hstep. cbv zeta in Hstep.
      destruct (if geb (INR (List.length (placed_of (player_attributes state))))
                       (base_max_of (player_attributes state))
                then destroy_lowest_value send_input
                       (placed_of (player_attributes state))
                else ([], true)) as [destroyed returned].
      destruct returned; exact Hstep.
    + apply ltb_false_iff in Hn. right. left. repeat split; assumption.
  - apply geb_false_iff in Hfull. right. right.
    destruct (upgrade_due strategy (player_attributes state)) eqn:Hu.
    + left. split; [reflexivity|]. split; [assumption|].
      split; [reflexivity|].
      destruct (gtb (distance (pos_of state) SPEED_SHOP) 20); reflexivity.
    + right. split; [reflexivity|]. split; [assumption|].
      split; [reflexivity|]. exists tx. split; [reflexivity|].
      destruct (find_target strategy (pos_of state) (brainrots_of state) tx
                  (base_center_of (player_attributes state))
                  (speed_level_of (player_attributes state))
                  (money_of (player_attributes state))
                  (player_attributes state)) as [[[ev|r ev|t r ev]|]|e];
        reflexivity.
Qed.

(** The requests of a cycle, without the guards. *)
Lemma run_agent_cycle_requests (send_input : Input -> bool)
    (strategy : Policy) (loop : Loop) (state : State) :
  let sent := snd (run_agent_cycle send_input strategy loop state) in
  sent = [] \/
  (exists i, sent = [i] /\ forall index, i <> Send_Destroy index) \/
  (exists index,
     send_input (Send_Destroy index) = true /\
     sent = [Send_Destroy index; Send_Deposit]) \/
  (exists index,
     send_input (Send_Destroy index) = false /\
     sent = [Send_Destroy index]).
Proof.
  cbv zeta.
  destruct (run_agent_cycle_cases send_input strategy loop state)
    as [[_ E]|[[_ [_ [_ [E|[l [_ [_ [_ E]]]]]]]]|[[_ [_ [_ E]]]|[[_ [_ [_ E]]]
        |[_ [_ [_ [tx [_ E]]]]]]]]]; rewrite E.
  - right. left. eexists. split; [reflexivity|discriminate].
  - right. left. eexists. split; [reflexivity|discriminate].
  - destruct (send_input (Send_Destroy (placed_index l))) eqn:Hl.
    + right. right. left. now exists (placed_index l).
    + right. right. right. now exists (placed_index l).
  - right. left. eexists. split; [reflexivity|discriminate].
  - right. left. eexists. split; [reflexivity|].
    destruct (gtb (distance (pos_of state) SPEED_SHOP) 20); discriminate.
  - destruct (find_target strategy (pos_of state) (brainrots_of state) tx
                (base_center_of (player_attributes state))
                (speed_level_of (player_attributes state))
                (money_of (player_attributes state))
                (player_attributes state)) as [[[ev|r ev|t r ev]|]|e].
    + now left.
    + right. left. eexists. split; [reflexivity|discriminate].
    + right. left. eexists. split; [reflexivity|discriminate].
    + right. left. eexists. split; [reflexivity|discriminate].
    + now left.
Qed.

(** X12.  A cycle of the state machine makes at most one request, except
    that a deposit may be preceded by one [Destroy].  The requests of a cycle
    are none, one request that is not [Destroy], [Destroy] followed by
    [Deposit] when the [Destroy] request returned, or [Destroy] alone when it
    raised.  No request follows one that raised. *)
Theorem cycle_sends_one_input_or_destroy_then_deposit
    (send_input : Input -> bool) (strategy : Policy) (loop : Loop)
    (state : State) :
  (snd (run_agent_cycle send_input strategy loop state) = [] \/
   (exists i,
      snd (run_agent_cycle send_input strategy loop state) = [i] /\
      forall index, i <> Send_Destroy index) \/
   (exists index,
      send_input (Send_Destroy index) = true /\
      snd (run_agent_cycle send_input strategy loop state)
      = [Send_Destroy index; Send_Deposit]) \/
   (exists index,
      send_input (Send_Destroy index) = false /\
      snd (run_agent_cycle send_input strategy loop state)
      = [Send_Destroy index])) /\
  (forall before i after,
     snd (run_agent_cycle send_input strategy loop state)
     = before ++ i :: after ->
     after <> [] -> send_input i = true).
Proof.
  pose proof (run_agent_cycle_requests send_input strategy loop state) as H.
  cbv zeta in H. split; [exact H|].
  intros before i after E Hafter.
  destruct H as [H|[[j [H _]]|[[index [Hret H]]|[index [_ H]]]]];
    rewrite H in E.
  - destruct before; discriminate.
  - destruct before as [|b0 before]; [injection E as _ <-; now elim Hafter|].
    destruct before; discriminate.
  - destruct before as [|b0 before].
    + injection E as <- _. exact Hret.
    + destruct before as [|b1 before];
        [injection E as _ _ <-; now elim Hafter|].
      destruct before; discriminate.
  - destruct before as [|b0 before]; [injection E as _ <-; now elim Hafter|].
    destruct before; discriminate.
Qed.

(** X13.  [BuySpeed] is sent only by a player that carries nothing, is below
    speed level 10, has at least the positive price of the next level and
    stands at most 20 units from the speed shop. *)
Theorem buy_speed_only_when_affordable_at_shop (send_input : Input -> bool)
    (strategy : Policy) (loop : Loop) (state : State) :
  In Send_BuySpeed (snd (run_agent_cycle send_input strategy loop state)) ->
  carrying_of (player_attributes state) = 0 /\
  speed_level_of (player_attributes state) < 10 /\
  next_speed_cost_of (player_attributes state) > 0 /\
  money_of (player_attributes state)
  >= next_speed_cost_of (player_attributes state) /\
  distance (pos_of state) SPEED_SHOP <= 20.
Proof.
  intros Hin.
  destruct (run_agent_cycle_cases send_input strategy loop state)
    as [[_ E]|[[_ [_ [_ [E|[l [_ [_ [_ E]]]]]]]]|[[_ [_ [_ E]]]|[[_ [_ [Hu E]]]
        |[_ [_ [_ [tx [_ E]]]]]]]]]; rewrite E in Hin.
  - destruct Hin as [H|[]]; discriminate.
  - destruct Hin as [H|[]]; discriminate.
  - exfalso. destruct (send_input (Send_Destroy (placed_index l)));
      simpl in Hin; intuition discriminate.
  - destruct Hin as [H|[]]; discriminate.
  - unfold upgrade_due in Hu.
    apply andb_true_iff in Hu. destruct Hu as [Hu H4].
    apply andb_true_iff in Hu. destruct Hu as [Hu H3].
    apply andb_true_iff in Hu. destruct Hu as [H1 H2].
    apply eqb_true_iff in H1. apply gtb_true_iff in H2.
    apply geb_true_iff in H3. apply ltb_true_iff in H4.
    assert (Ht : upgrade_threshold strategy = 1)
      by (destruct strategy; unfold upgrade_threshold,
            Tryhard.upgrade_threshold, Gambler.upgrade_threshold,
            Farmer.upgrade_threshold; lra).
    rewrite Ht in H3.
    destruct (gtb (distance (pos_of state) SPEED_SHOP) 20) eqn:Hg.
    + destruct Hin as [H|[]]; discriminate.
    + apply gtb_false_iff in Hg. repeat split; try assumption; lra.
  - exfalso.
    destruct (find_target strategy (pos_of state) (brainrots_of state) tx
                (base_center_of (player_attributes state))
                (speed_level_of (player_attributes state))
                (money_of (player_attributes state))
                (player_attributes state)) as [[[ev|r ev|t r ev]|]|e];
      simpl in Hin; try tauto; destruct Hin as [H|[]]; discriminate.
Qed.

Lemma distance_self (p : Position) : distance p p = 0.
Proof.
  unfold distance.
  replace ((px p - px p) ^ 2 + (py p - py p) ^ 2 + (pz p - pz p) ^ 2) with 0
    by ring.
  apply sqrt_0.
Qed.

Lemma at_shop_buys (send_input : Input -> bool) :
  snd (run_agent_cycle send_input (TryhardStrategy Scenario.tryhard1)
         Scenario.first_cycle Cases.at_shop) = [Send_BuySpeed].
Proof.
  unfold run_agent_cycle, stuck_abort, stuck, upgrade_due, carrying_of,
    capacity_of, money_of, speed_level_of, next_speed_cost_of,
    upgrade_threshold, Tryhard.upgrade_threshold.
  change (pos_of Cases.at_shop) with SPEED_SHOP.
  rewrite distance_self.
  cbn [tsunami_x_of entities filter truthy player_attributes get
       Cases.at_shop Cases.shopper_attrs CarriedCount CarryCapacity Money
       SpeedLevel NextSpeedCost Scenario.first_cycle last_position andb].
  cmp_eval. cbn [andb]. reflexivity.
Qed.

Lemma buy_speed_only_when_affordable_at_shop_witness :
  In Send_BuySpeed
     (snd (run_agent_cycle Scenario.all_return
             (TryhardStrategy Scenario.tryhard1)
             Scenario.first_cycle Cases.at_shop)) /\
  carrying_of (player_attributes Cases.at_shop) = 0 /\
  speed_level_of (player_attributes Cases.at_shop) < 10 /\
  next_speed_cost_of (player_attributes Cases.at_shop) > 0 /\
  money_of (player_attributes Cases.at_shop)
  >= next_speed_cost_of (player_attributes Cases.at_shop) /\
  distance (pos_of Cases.at_shop) SPEED_SHOP <= 20.
Proof.
  assert (H : In Send_BuySpeed
                (snd (run_agent_cycle Scenario.all_return
                        (TryhardStrategy Scenario.tryhard1)
                        Scenario.first_cycle Cases.at_shop)))
    by (rewrite at_shop_buys; now left).
  exact (conj H (buy_speed_only_when_affordable_at_shop Scenario.all_return
                   (TryhardStrategy Scenario.tryhard1) Scenario.first_cycle
                   Cases.at_shop H)).
Defined.

(** X14.  A player whose carried count has reached its capacity is not
    handed to the policy: the cycle is the same whatever the policy, and it
    sends only [Deposit], [Destroy] or [MoveTo] the base center. *)
Theorem full_player_cycle_ignores_policy (send_input : Input -> bool)
    (strategy strategy' : Policy) (loop : Loop) (state : State) :
  carrying_of (player_attributes state)
  >= capacity_of (player_attributes state) ->
  run_agent_cycle send_input strategy loop state
  = run_agent_cycle send_input strategy' loop state /\
  forall i, In i (snd (run_agent_cycle send_input strategy loop state)) ->
    i = Send_Deposit \/ (exists index, i = Send_Destroy index) \/
    i = Send_MoveTo (base_center_of (player_attributes state)).
Proof.
  intros Hfull. split.
  - unfold run_agent_cycle. cbv zeta.
    rewrite (proj2 (geb_true_iff _ _) Hfull). reflexivity.
  - intros i Hin.
    destruct (run_agent_cycle_cases send_input strategy loop state)
      as [[_ E]|[[_ [_ [_ [E|[l [_ [_ [_ E]]]]]]]]|[[_ [_ [_ E]]]|[[_ [Hlt _]]
          |[_ [Hlt _]]]]]]; try lra; rewrite E in Hin.
    + destruct Hin as [<-|[]]. now right; right.
    + destruct Hin as [<-|[]]. now left.
    + destruct (send_input (Send_Destroy (placed_index l))).
      * destruct Hin as [<-|[<-|[]]]; [right; left; now eexists|now left].
      * destruct Hin as [<-|[]]. right; left; now eexists.
    + destruct Hin as [<-|[]]. now right; right.
Qed.

Lemma full_player_cycle_ignores_policy_witness :
  carrying_of (player_attributes Scenario.full_at_base)
  >= capacity_of (player_attributes Scenario.full_at_base) /\
  run_agent_cycle Scenario.all_return (TryhardStrategy Scenario.tryhard1)
    Scenario.first_cycle Scenario.full_at_base
  = run_agent_cycle Scenario.all_return (GamblerStrategy Scenario.gambler1)
      Scenario.first_cycle Scenario.full_at_base.
Proof.
  assert (H : carrying_of (player_attributes Scenario.full_at_base)
              >= capacity_of (player_attributes Scenario.full_at_base))
    by (unfold carrying_of, capacity_of; simpl; lra).
  exact (conj H (proj1 (full_player_cycle_ignores_policy Scenario.all_return
                          (TryhardStrategy Scenario.tryhard1)
                          (GamblerStrategy Scenario.gambler1)
                          Scenario.first_cycle Scenario.full_at_base H))).
Defined.

Lemma brainrots_of_In (state : State) (b : Entity) :
  In b (brainrots_of state) ->
  In b (entities state) /\ get (IsBrainrot b) false = true.
Proof. unfold brainrots_of. intros H. now apply filter_In in H. Qed.

(** X15.  The state machine walks only to the base center, to the speed
    shop, or to an entity of the snapshot that is flagged as brainrot, alive
    and outside the base zone, at least 5 units away; it sends [Collect]
    only when such an entity is less than 5 units from the player. *)
Theorem cycle_moves_to_base_shop_or_live_brainrot
    (send_input : Input -> bool) (strategy : Policy) (loop : Loop)
    (state : State) :
  (forall target,
     In (Send_MoveTo target)
        (snd (run_agent_cycle send_input strategy loop state)) ->
     target = base_center_of (player_attributes state) \/
     target = SPEED_SHOP \/
     exists e,
       In e (entities state) /\ get (IsBrainrot e) false = true /\
       py (position e) > -100 /\ px (position e) <= BASE_ZONE_X /\
       target = position e /\ 5 <= distance (pos_of state) target) /\
  (In Send_Collect (snd (run_agent_cycle send_input strategy loop state)) ->
   exists e,
     In e (entities state) /\ get (IsBrainrot e) false = true /\
     py (position e) > -100 /\ px (position e) <= BASE_ZONE_X /\
     distance (pos_of state) (position e) < 5).
Proof.
  destruct (run_agent_cycle_cases send_input strategy loop state)
    as [[_ E]|[[_ [_ [_ [E|[l [_ [_ [_ E]]]]]]]]|[[_ [_ [_ E]]]|[[_ [_ [_ E]]]
        |[_ [_ [_ [tx [_ E]]]]]]]]]; rewrite E; clear E.
  - split.
    + intros t [H|[]]. injection H as <-. now left.
    + intros [H|[]]. discriminate.
  - split.
    + intros t [H|[]]. discriminate.
    + intros [H|[]]. discriminate.
  - destruct (send_input (Send_Destroy (placed_index l))); split.
    + intros t [H|[H|[]]]; discriminate.
    + intros [H|[H|[]]]; discriminate.
    + intros t [H|[]]; discriminate.
    + intros [H|[]]; discriminate.
  - split.
    + intros t [H|[]]. injection H as <-. now left.
    + intros [H|[]]. discriminate.
  - destruct (gtb (distance (pos_of state) SPEED_SHOP) 20); split.
    + intros t [H|[]]. injection H as <-. right. now left.
    + intros [H|[]]. discriminate.
    + intros t [H|[]]. discriminate.
    + intros [H|[]]. discriminate.
  - destruct (find_target strategy (pos_of state) (brainrots_of state) tx
                (base_center_of (player_attributes state))
                (speed_level_of (player_attributes state))
                (money_of (player_attributes state))
                (player_attributes state)) as [[action|]|e] eqn:Hf.
    + destruct (policy_target_cases _ _ _ _ _ _ _ _ _ Hf)
        as [->|[b [Hb [Hy [Hx [[Hd ->]|[Hd [ev ->]]]]]]]].
      * split; intros; simpl in *; tauto.
      * apply brainrots_of_In in Hb. destruct Hb as [Hb Hflag]. split.
        -- intros t [H|[]]. discriminate.
        -- intros _. exists b. repeat split; assumption.
      * apply brainrots_of_In in Hb. destruct Hb as [Hb Hflag]. split.
        -- intros t [H|[]]. injection H as <-. right. right.
           exists b. repeat split; assumption.
        -- intros [H|[]]. discriminate.
    + split.
      * intros t [H|[]]. injection H as <-. now left.
      * intros [H|[]]. discriminate.
    + split; intros; simpl in *; tauto.
Qed.

(** ** The stuck counter *)

Lemma cycle_loop_no_abort (send_input : Input -> bool) (strategy : Policy)
    (loop : Loop) (state : State) :
  stuck_abort loop state = false ->
  fst (run_agent_cycle send_input strategy loop state)
  = mkLoop (Some (pos_of state))
           (if stuck loop state then stuck_cycles loop + 1 else 0)%Z.
Proof.
  intros Hs.
  destruct (tsunami_x_of_total (entities state)) as [tx Htx].
  unfold run_agent_cycle. cbv zeta. rewrite Htx, Hs.
  repeat match goal with
  | |- context [if ?c then _ else _] =>
      lazymatch c with
      | stuck _ _ => fail
      | _ => destruct c
      end
  | |- context [match ?c with _ => _ end] =>
      lazymatch c with
      | stuck _ _ => fail
      | _ => destruct c
      end
  | |- context [let (_, _) := ?c in _] => destruct c
  end; reflexivity.
Qed.

(** The abort cycle: the counter is raised before the request and reset
    after it, so a request that raises leaves it raised. *)
Lemma cycle_abort (send_input : Input -> bool) (strategy : Policy)
    (loop : Loop) (state : State) :
  stuck_abort loop state = true ->
  run_agent_cycle send_input strategy loop state
  = (mkLoop (last_position loop)
            (if send_input
                  (Send_MoveTo (base_center_of (player_attributes state)))
             then 0 else stuck_cycles loop + 1)%Z,
     [Send_MoveTo (base_center_of (player_attributes state))]).
Proof.
  intros Hs.
  destruct (tsunami_x_of_total (entities state)) as [tx Htx].
  unfold run_agent_cycle. cbv zeta. now rewrite Htx, Hs.
Qed.

(** X16.  The stuck counter is never negative, and a cycle leaves it below
    the threshold 5 unless the cycle is a stuck abort whose [MoveTo] request
    raises: the abort raises the counter before the request and resets it
    after, so when the request raises the counter is left at its old value
    plus one, at or above the threshold, the last position is kept, and the
    only request of the cycle is that [MoveTo]. *)
Theorem stuck_counter_below_threshold_unless_abort_raises
    (send_input : Input -> bool) (strategy : Policy) (loop : Loop)
    (state : State) :
  (0 <= stuck_cycles loop)%Z ->
  ((stuck_abort loop state = false \/
    send_input (Send_MoveTo (base_center_of (player_attributes state)))
    = true) /\
   (0 <= stuck_cycles (fst (run_agent_cycle send_input strategy loop state))
    < STUCK_THRESHOLD)%Z)
  \/
  (stuck_abort loop state = true /\
   send_input (Send_MoveTo (base_center_of (player_attributes state)))
   = false /\
   (STUCK_THRESHOLD <= stuck_cycles loop + 1)%Z /\
   run_agent_cycle send_input strategy loop state
   = (mkLoop (last_position loop) (stuck_cycles loop + 1),
      [Send_MoveTo (base_center_of (player_attributes state))])).
Proof.
  intros Hinv.
  destruct (stuck_abort loop state) eqn:Hab.
  - rewrite (cycle_abort send_input strategy loop state Hab).
    destruct (send_input
                (Send_MoveTo (base_center_of (player_attributes state))))
      eqn:Hsend.
    + left. split; [now right|].
      cbn [fst stuck_cycles]. unfold STUCK_THRESHOLD. lia.
    + right. split; [reflexivity|]. split; [reflexivity|].
      split; [|reflexivity].
      unfold stuck_abort in Hab. apply andb_true_iff in Hab.
      destruct Hab as [_ Hab]. rewrite Z.geb_leb in Hab.
      now apply Z.leb_le in Hab.
  - left. split; [now left|].
    rewrite (cycle_loop_no_abort send_input strategy loop state Hab).
    cbn [stuck_cycles]. unfold stuck_abort in Hab.
    destruct (stuck loop state); cbn [andb] in Hab.
    + rewrite Z.geb_leb in Hab. apply Z.leb_gt in Hab. lia.
    + unfold STUCK_THRESHOLD. lia.
Qed.

Lemma stuck_four_still :
  stuck_abort Scenario.stuck_four Scenario.full_at_base = true.
Proof.
  unfold stuck_abort, stuck.
  change (pos_of Scenario.full_at_base) with (Scenario.at_x 370).
  cbn [Scenario.stuck_four last_position stuck_cycles].
  geo_eval. cmp_eval. reflexivity.
Qed.

(** A player that has not moved for four cycles, observed again at the same
    place while the server answers no [MoveTo]: the counter is left at 5. *)
Lemma stuck_counter_below_threshold_unless_abort_raises_witness :
  (0 <= stuck_cycles Scenario.stuck_four)%Z /\
  run_agent_cycle Scenario.move_raises (TryhardStrategy Scenario.tryhard1)
    Scenario.stuck_four Scenario.full_at_base
  = (mkLoop (Some (Scenario.at_x 370)) 5, [Send_MoveTo Scenario.base]).
Proof.
  assert (H : (0 <= stuck_cycles Scenario.stuck_four)%Z) by (simpl; lia).
  split; [exact H|].
  destruct (stuck_counter_below_threshold_unless_abort_raises
              Scenario.move_raises (TryhardStrategy Scenario.tryhard1)
              Scenario.stuck_four Scenario.full_at_base H)
    as [[[Hab|Hsend] _]|[_ [_ [_ E]]]].
  - rewrite stuck_four_still in Hab. discriminate.
  - discriminate.
  - exact E.
Defined.

(** ** The loop over successive observations *)

(** A cycle that finds the player less than 1 unit from the last recorded
    position, below the threshold: the counter goes up by one. *)
Lemma cycle_still (send_input : Input -> bool) (strategy : Policy)
    (p : Position) (n : Z) (state : State) :
  distance (pos_of state) p < 1 -> (n + 1 < STUCK_THRESHOLD)%Z ->
  exists sent,
    run_agent_cycle send_input strategy (mkLoop (Some p) n) state
    = (mkLoop (Some (pos_of state)) (n + 1), sent).
Proof.
  intros Hd Hn.
  assert (Hst : stuck (mkLoop (Some p) n) state = true).
  { unfold stuck. cbn [last_position]. apply ltb_true_iff. lra. }
  assert (Hab : stuck_abort (mkLoop (Some p) n) state = false).
  { unfold stuck_abort. rewrite Hst. cbn [andb stuck_cycles].
    rewrite Z.geb_leb. apply Z.leb_gt. exact Hn. }
  pose proof (cycle_loop_no_abort send_input strategy _ state Hab) as Hl.
  rewrite Hst in Hl. cbn [stuck_cycles] in Hl.
  destruct (run_agent_cycle send_input strategy (mkLoop (Some p) n) state)
    as [l sent].
  cbn [fst] in Hl. subst l. now exists sent.
Qed.

(** X17.  From the start of [run_agent], six observations in a row in which
    the player is each time less than 1 unit from the previous one, whatever
    the requests of the first five cycles do: the sixth cycle requests only
    [MoveTo] the base center and keeps the fifth position as the last one
    recorded; it leaves the counter at 0 when that request returns and at 5
    when it raises. *)
Theorem six_still_observations_abort_to_base (strategy : Policy)
    (s1 s2 s3 s4 s5 s6 : State) (a1 a2 a3 a4 a5 a6 : Input -> bool) :
  distance (pos_of s2) (pos_of s1) < 1 ->
  distance (pos_of s3) (pos_of s2) < 1 ->
  distance (pos_of s4) (pos_of s3) < 1 ->
  distance (pos_of s5) (pos_of s4) < 1 ->
  distance (pos_of s6) (pos_of s5) < 1 ->
  exists sent1 sent2 sent3 sent4 sent5,
    run_agent strategy
      [mkRound (Some s1) a1; mkRound (Some s2) a2; mkRound (Some s3) a3;
       mkRound (Some s4) a4; mkRound (Some s5) a5; mkRound (Some s6) a6]
    = (mkLoop (Some (pos_of s5))
         (if a6 (Send_MoveTo (base_center_of (player_attributes s6)))
          then 0 else 5)%Z,
       [sent1; sent2; sent3; sent4; sent5;
        [Send_MoveTo (base_center_of (player_attributes s6))]]).
Proof.
  intros H2 H3 H4 H5 H6.
  unfold run_agent. cbn [run_agent_from observed answered].
  assert (H1 : exists sent,
            run_agent_cycle a1 strategy (mkLoop None 0) s1
            = (mkLoop (Some (pos_of s1)) 0, sent)).
  { assert (Hab : stuck_abort (mkLoop None 0) s1 = false) by reflexivity.
    pose proof (cycle_loop_no_abort a1 strategy _ s1 Hab) as Hl.
    cbn [stuck last_position] in Hl.
    destruct (run_agent_cycle a1 strategy (mkLoop None 0) s1) as [l sent].
    cbn [fst] in Hl. subst l. now exists sent. }
  destruct H1 as [sent1 E1]. rewrite E1.
  destruct (cycle_still a2 strategy (pos_of s1) 0 s2 H2) as [sent2 E2];
    [unfold STUCK_THRESHOLD; lia|]. rewrite E2.
  destruct (cycle_still a3 strategy (pos_of s2) (0 + 1) s3 H3) as [sent3 E3];
    [unfold STUCK_THRESHOLD; lia|]. rewrite E3.
  destruct (cycle_still a4 strategy (pos_of s3) (0 + 1 + 1) s4 H4)
    as [sent4 E4]; [unfold STUCK_THRESHOLD; lia|]. rewrite E4.
  destruct (cycle_still a5 strategy (pos_of s4) (0 + 1 + 1 + 1) s5 H5)
    as [sent5 E5]; [unfold STUCK_THRESHOLD; lia|]. rewrite E5.
  rewrite cycle_abort.
  - exists sent1, sent2, sent3, sent4, sent5. reflexivity.
  - unfold stuck_abort, stuck. cbn [last_position stuck_cycles].
    rewrite (proj2 (ltb_true_iff _ _)) by lra. reflexivity.
Qed.

Lemma idle_still :
  distance (pos_of Cases.idle) (pos_of Cases.idle) < 1.
Proof. rewrite distance_self. lra. Qed.

(** A player that stays at x = 100 while the server answers no [MoveTo]:
    the sixth cycle leaves the counter at 5. *)
Lemma six_still_observations_abort_to_base_witness :
  distance (pos_of Cases.idle) (pos_of Cases.idle) < 1 /\
  exists sent1 sent2 sent3 sent4 sent5,
    run_agent (GamblerStrategy Scenario.gambler1)
      [Cases.idle_round; Cases.idle_round; Cases.idle_round;
       Cases.idle_round; Cases.idle_round; Cases.idle_round]
    = (mkLoop (Some (pos_of Cases.idle)) 5,
       [sent1; sent2; sent3; sent4; sent5;
        [Send_MoveTo (base_center_of (player_attributes Cases.idle))]]).
Proof.
  split; [exact idle_still|].
  exact (six_still_observations_abort_to_base
           (GamblerStrategy Scenario.gambler1)
           Cases.idle Cases.idle Cases.idle Cases.idle Cases.idle Cases.idle
           Scenario.move_raises Scenario.move_raises Scenario.move_raises
           Scenario.move_raises Scenario.move_raises Scenario.move_raises
           idle_still idle_still idle_still idle_still idle_still).
Defined.

(** A round in which [observe] raises changes nothing and requests nothing:
    the still cycles before and after it are counted together. *)
Lemma failed_observe_keeps_loop (strategy : Policy) (loop : Loop)
    (answered : Input -> bool) (rest : list Round) :
  run_agent_from strategy loop (mkRound None answered :: rest)
  = (fst (run_agent_from strategy loop rest),
     [] :: snd (run_agent_from strategy loop rest)).
Proof.
  cbn [run_agent_from observed].
  now destruct (run_agent_from strategy loop rest).
Qed.

(** ** The hazard front *)

(** X18.  The hazard front of a snapshot is computed without raising.  It
    is -500 when no entity is named [TsunamiWave...]; otherwise it is the x
    of one of those entities and no such entity has a smaller x. *)
Theorem hazard_front_is_least_wave_x (es : list Entity) :
  exists front,
    tsunami_x_of es = Ok front /\
    ((forall e, In e es ->
        String.prefix "TsunamiWave" (get (name e) EmptyString) = false) ->
     front = -500) /\
    (forall w, In w es ->
       String.prefix "TsunamiWave" (get (name w) EmptyString) = true ->
       front <= px (position w) /\
       exists w', In w' es /\
         String.prefix "TsunamiWave" (get (name w') EmptyString) = true /\
         front = px (position w')).
Proof.
  unfold tsunami_x_of. cbv zeta.
  set (waves := filter (fun e => String.prefix "TsunamiWave"
                                   (get (name e) EmptyString)) es).
  assert (Hw : forall w, In w waves <->
             In w es /\ String.prefix "TsunamiWave"
                          (get (name w) EmptyString) = true)
    by (intros w; apply filter_In).
  destruct waves as [|w0 ws] eqn:E.
  - exists (-500). cbn [truthy]. split; [reflexivity|]. split; [reflexivity|].
    intros w Hin Hp. exfalso. apply (proj2 (Hw w)); now split.
  - cbn [truthy].
    destruct (min_spec (fun x : R => x) (map (fun w => px (position w)) (w0 :: ws)))
      as [m [Hm [Hin Hle]]]; [discriminate|].
    exists m. split; [exact Hm|]. split.
    + intros Hnone. exfalso.
      destruct (proj1 (Hw w0) (or_introl eq_refl)) as [Hes Hp].
      rewrite (Hnone w0 Hes) in Hp. discriminate.
    + intros w Hes Hp. split.
      * apply Hle. apply in_map_iff. exists w. split; [reflexivity|].
        apply Hw. now split.
      * apply in_map_iff in Hin. destruct Hin as [w' [Hx Hw']].
        apply Hw in Hw'. destruct Hw' as [Hes' Hp'].
        exists w'. repeat split; try assumption. now symmetry.
Qed.

(** ** Rarity *)

Lemma in_order_nonempty (z : string) :
  In z RARITY_ORDER -> String.eqb z EmptyString = false.
Proof.
  unfold RARITY_ORDER. simpl.
  intros [E|[E|[E|[E|[E|[E|[]]]]]]]; rewrite <- E; reflexivity.
Qed.

(** X19.  A Zone attribute that names a rarity decides the rarity, whatever
    the color: the one under [attributes] first, the top-level one when the
    former is absent or empty. *)
Theorem get_rarity_prefers_zone (b : Entity) (z : string) :
  In z RARITY_ORDER ->
  (attr_Zone b = Some z -> get_rarity b = z) /\
  (attr_Zone b = None \/ attr_Zone b = Some EmptyString ->
   Zone b = Some z -> get_rarity b = z).
Proof.
  intros Hz.
  assert (Hres : or_else (attr_Zone b) (Zone b) = Some z -> get_rarity b = z).
  { intros E. unfold get_rarity. cbv zeta. rewrite E.
    rewrite (in_order_nonempty z Hz), (proj2 (contains_In z _) Hz).
    reflexivity. }
  split.
  - intros E. apply Hres. unfold or_else. rewrite E.
    now rewrite (in_order_nonempty z Hz).
  - intros [E|E] Ez; apply Hres; unfold or_else; rewrite E; exact Ez.
Qed.

Lemma get_rarity_prefers_zone_witness :
  In "Epic"%string RARITY_ORDER /\
  get_rarity (mkEntity None (Scenario.at_x 0) (Some true) (Some "Epic"%string)
                (Some "Common"%string) [1; 1; 1]) = "Epic"%string.
Proof.
  assert (H : In "Epic"%string RARITY_ORDER)
    by (unfold RARITY_ORDER; simpl; tauto).
  split; [exact H|].
  exact (proj1 (get_rarity_prefers_zone
                  (mkEntity None (Scenario.at_x 0) (Some true)
                     (Some "Epic"%string) (Some "Common"%string) [1; 1; 1])
                  "Epic"%string H) eq_refl).
Defined.

Lemma rarity_from_color (b : Entity) :
  (forall z, or_else (attr_Zone b) (Zone b) = Some z -> ~ In z RARITY_ORDER) ->
  get_rarity b = PlayTsunami.get_rarity b.
Proof.
  intros H. unfold get_rarity, PlayTsunami.get_rarity. cbv zeta.
  destruct (or_else (attr_Zone b) (Zone b)) as [z|]; [|reflexivity].
  destruct (contains z RARITY_ORDER) eqn:E.
  - apply contains_In in E. now apply (H z) in E.
  - now rewrite andb_false_r.
Qed.

(** X20.  When the Zone picked by [attributes.Zone or Zone] is not a rarity,
    the rarity is the color rarity of the single-agent bot; a non-empty
    [attributes.Zone] that is not a rarity hides the top-level Zone even if
    that one is a rarity. *)
Theorem get_rarity_falls_back_to_color (b : Entity) :
  (forall z, or_else (attr_Zone b) (Zone b) = Some z -> ~ In z RARITY_ORDER) ->
  get_rarity b = PlayTsunami.get_rarity b.
Proof. apply rarity_from_color. Qed.

Lemma get_rarity_falls_back_to_color_witness :
  (forall z,
     or_else (attr_Zone (mkEntity None (Scenario.at_x 0) (Some true)
                           (Some "Lava"%string) (Some "Secret"%string) []))
             (Zone (mkEntity None (Scenario.at_x 0) (Some true)
                      (Some "Lava"%string) (Some "Secret"%string) []))
     = Some z -> ~ In z RARITY_ORDER) /\
  get_rarity (mkEntity None (Scenario.at_x 0) (Some true) (Some "Lava"%string)
                (Some "Secret"%string) []) = "Common"%string.
Proof.
  assert (H : forall z,
     or_else (attr_Zone (mkEntity None (Scenario.at_x 0) (Some true)
                           (Some "Lava"%string) (Some "Secret"%string) []))
             (Zone (mkEntity None (Scenario.at_x 0) (Some true)
                      (Some "Lava"%string) (Some "Secret"%string) []))
     = Some z -> ~ In z RARITY_ORDER).
  { intros z E. injection E as <-. unfold RARITY_ORDER. simpl.
    intros [F|[F|[F|[F|[F|[F|[]]]]]]]; discriminate. }
  split; [exact H|].
  exact (get_rarity_falls_back_to_color _ H).
Defined.

(** X21.  The color fallback tolerates an error below 0.01 on each channel:
    a color that close to one of the five reference colors gets the rarity
    of that reference, and nothing else does; a color with fewer than three
    channels is Common. *)
Theorem color_within_tolerance_is_classified (brainrot : Entity) :
  (forall r g b rest, color brainrot = r :: g :: b :: rest ->
     (Rabs (r - 1.0) < 0.01 /\ Rabs (g - 1.0) < 0.01 /\ Rabs (b - 1.0) < 0.01
      <-> PlayTsunami.get_rarity brainrot = "Secret"%string) /\
     (Rabs (r - 1.0) < 0.01 /\ Rabs (g - 1.0) < 0.01
      /\ Rabs (b - 0.19607843) < 0.01
      <-> PlayTsunami.get_rarity brainrot = "Legendary"%string) /\
     (Rabs (r - 1.0) < 0.01 /\ Rabs (g - 0.5882353) < 0.01
      /\ Rabs (b - 0.19607843) < 0.01
      <-> PlayTsunami.get_rarity brainrot = "Epic"%string) /\
     (Rabs (r - 0.7058824) < 0.01 /\ Rabs (g - 0.39215687) < 0.01
      /\ Rabs (b - 1.0) < 0.01
      <-> PlayTsunami.get_rarity brainrot = "Rare"%string) /\
     (Rabs (r - 0.39215687) < 0.01 /\ Rabs (g - 0.5882353) < 0.01
      /\ Rabs (b - 1.0) < 0.01
      <-> PlayTsunami.get_rarity brainrot = "Uncommon"%string)) /\
  ((List.length (color brainrot) < 3)%nat ->
   PlayTsunami.get_rarity brainrot = "Common"%string).
Proof.
  split.
  - intros r g b rest Hc. unfold PlayTsunami.get_rarity. rewrite Hc.
    destruct (ltb (Rabs (r - 1.0)) 0.01 && ltb (Rabs (g - 1.0)) 0.01
              && ltb (Rabs (b - 1.0)) 0.01) eqn:C1;
    [|destruct (ltb (Rabs (r - 1.0)) 0.01 && ltb (Rabs (g - 1.0)) 0.01
                && ltb (Rabs (b - 0.19607843)) 0.01) eqn:C2;
      [|destruct (ltb (Rabs (r - 1.0)) 0.01 && ltb (Rabs (g - 0.5882353)) 0.01
                  && ltb (Rabs (b - 0.19607843)) 0.01) eqn:C3;
        [|destruct (ltb (Rabs (r - 0.7058824)) 0.01
                    && ltb (Rabs (g - 0.39215687)) 0.01
                    && ltb (Rabs (b - 1.0)) 0.01) eqn:C4;
          [|destruct (ltb (Rabs (r - 0.39215687)) 0.01
                      && ltb (Rabs (g - 0.5882353)) 0.01
                      && ltb (Rabs (b - 1.0)) 0.01) eqn:C5]]]];
    cbv iota;
    repeat match goal with
    | C : _ && _ = true |- _ =>
        apply andb_true_iff in C; destruct C
    end;
    repeat match goal with
    | E : ltb _ _ = true |- _ => apply ltb_true_iff in E
    end;
    repeat split; intros; try assumption; try reflexivity; try discriminate;
    exfalso;
    match goal with
    | Hside : _ /\ _ /\ _ |- _ => destruct Hside as [T1 [T2 T3]]
    end;
    first
      [ solve [ repeat match goal with
                | E : Rabs _ < _ |- _ => apply Rabs_def2 in E
                end; lra ]
      | solve [ rewrite ?(proj2 (ltb_true_iff _ _) T1),
                        ?(proj2 (ltb_true_iff _ _) T2),
                        ?(proj2 (ltb_true_iff _ _) T3) in *;
                cbn [andb] in *; congruence ] ].
  - intros Hlen. unfold PlayTsunami.get_rarity.
    destruct (color brainrot) as [|r [|g [|b rest]]]; try reflexivity.
    simpl in Hlen. lia.
Qed.

(** X22.  [rarity_priority] and indexing [RARITY_ORDER] are inverse of each
    other: a rarity of the order gets its index, below 6, that index leads
    back to it, and any other string gets 6. *)
Theorem rarity_priority_round_trip (rarity : string) :
  (In rarity RARITY_ORDER ->
   (0 <= rarity_priority rarity < 6)%Z /\
   nth_error RARITY_ORDER (Z.to_nat (rarity_priority rarity)) = Some rarity) /\
  (~ In rarity RARITY_ORDER -> rarity_priority rarity = 6%Z) /\
  (forall i, nth_error RARITY_ORDER i = Some rarity ->
             rarity_priority rarity = Z.of_nat i).
Proof.
  split; [|split].
  - unfold RARITY_ORDER. simpl.
    intros [E|[E|[E|[E|[E|[E|[]]]]]]]; rewrite <- E;
      (split; [vm_compute; split; [discriminate|reflexivity]|reflexivity]).
  - intros Hn. unfold rarity_priority.
    destruct (Py.index rarity RARITY_ORDER) as [i|] eqn:Hi; [|reflexivity].
    exfalso. apply Hn. clear Hn. revert i Hi.
    induction RARITY_ORDER as [|y l IH]; intros i Hi; [discriminate|].
    simpl in Hi. destruct (String.eqb y rarity) eqn:Ey.
    + apply String.eqb_eq in Ey. now left.
    + destruct (Py.index rarity l) as [j|]; [|discriminate].
      right. now apply (IH j).
  - intros i Hi. unfold RARITY_ORDER in Hi.
    do 6 (destruct i as [|i]; [injection Hi as <-; reflexivity|]).
    destruct i; discriminate.
Qed.

(** ** Distances *)

Lemma sum_sq_zero (a b c : R) : a ^ 2 + b ^ 2 + c ^ 2 = 0 -> a = 0 /\ b = 0 /\ c = 0.
Proof.
  intros H.
  assert (0 <= a ^ 2) by (apply pow2_ge_0).
  assert (0 <= b ^ 2) by (apply pow2_ge_0).
  assert (0 <= c ^ 2) by (apply pow2_ge_0).
  assert (Ha : a ^ 2 = 0) by lra.
  assert (Hb : b ^ 2 = 0) by lra.
  assert (Hcc : c ^ 2 = 0) by lra.
  repeat split; nra.
Qed.

(** X23.  The 3D distance is symmetric and is zero exactly between equal
    positions; the planar distance never exceeds it and equals it exactly
    when the two positions have the same y. *)
Theorem distance_and_planar_distance (pos1 pos2 : Position) :
  distance pos1 pos2 = distance pos2 pos1 /\
  (distance pos1 pos2 = 0 <-> pos1 = pos2) /\
  dist_xz pos1 pos2 <= distance pos1 pos2 /\
  (dist_xz pos1 pos2 = distance pos1 pos2 <-> py pos1 = py pos2).
Proof.
  destruct pos1 as [x1 y1 z1], pos2 as [x2 y2 z2].
  unfold distance, dist_xz. cbn [px py pz].
  assert (Hxz : 0 <= (x1 - x2) ^ 2 + (z1 - z2) ^ 2)
    by (pose proof (pow2_ge_0 (x1 - x2)); pose proof (pow2_ge_0 (z1 - z2)); lra).
  assert (Hy : 0 <= (y1 - y2) ^ 2) by apply pow2_ge_0.
  split; [|split; [|split]].
  - f_equal. ring.
  - split.
    + intros H. apply sqrt_eq_0 in H; [|lra].
      apply sum_sq_zero in H. destruct H as [Hx [Hyy Hz]].
      f_equal; lra.
    + intros H. injection H as -> -> ->.
      replace ((x2 - x2) ^ 2 + (y2 - y2) ^ 2 + (z2 - z2) ^ 2) with 0 by ring.
      apply sqrt_0.
  - apply sqrt_le_1_alt. lra.
  - split.
    + intros H. apply sqrt_inj in H; [|lra|lra].
      assert (E : (y1 - y2) ^ 2 = 0) by lra. nra.
    + intros ->. f_equal. ring.
Qed.

(** ** The chat log *)

Lemma chat_append_cases (maxlen : nat) (d : list ChatLog.Message)
    (x : ChatLog.Message) :
  ((List.length d < maxlen)%nat /\ ChatLog.append maxlen d x = d ++ [x]) \/
  ((maxlen <= List.length d)%nat /\ ChatLog.append maxlen d x = tl (d ++ [x])).
Proof.
  unfold ChatLog.append. cbv zeta. rewrite length_app. cbn [List.length].
  destruct (maxlen <? List.length d + 1)%nat eqn:E.
  - right. apply Nat.ltb_lt in E. split; [lia|reflexivity].
  - left. apply Nat.ltb_ge in E. split; [lia|reflexivity].
Qed.

(** X24.  [add] keeps the log within its bound: on a log of at most
    [maxlen] messages it appends the message and, when the log was full,
    drops the oldest one; the result has [min (len + 1) maxlen] messages, in
    the same order. *)
Theorem chat_log_add_stays_bounded (self : ChatLog.t) (streamer message : string) :
  (List.length (ChatLog._messages self) <= ChatLog.maxlen self)%nat ->
  ChatLog.maxlen (ChatLog.add self streamer message) = ChatLog.maxlen self /\
  List.length (ChatLog._messages (ChatLog.add self streamer message))
  = Nat.min (S (List.length (ChatLog._messages self))) (ChatLog.maxlen self) /\
  exists dropped,
    dropped ++ ChatLog._messages (ChatLog.add self streamer message)
    = ChatLog._messages self ++ [ChatLog.mkMessage streamer message] /\
    (List.length dropped <= 1)%nat.
Proof.
  intros Hinv. unfold ChatLog.add. cbn [ChatLog.maxlen ChatLog._messages].
  split; [reflexivity|].
  destruct (chat_append_cases (ChatLog.maxlen self) (ChatLog._messages self)
              (ChatLog.mkMessage streamer message)) as [[Hlt E]|[Hge E]];
    rewrite E.
  - split.
    + rewrite length_app. cbn [List.length]. lia.
    + exists []. split; [reflexivity|simpl; lia].
  - destruct (ChatLog._messages self) as [|m0 ms] eqn:Hm.
    + cbn [app tl List.length] in *. split; [lia|].
      exists [ChatLog.mkMessage streamer message]. split; [reflexivity|simpl; lia].
    + cbn [app tl]. split.
      * rewrite length_app. cbn [List.length] in *. lia.
      * exists [m0]. split; [reflexivity|simpl; lia].
Qed.

Lemma chat_log_add_stays_bounded_witness :
  (List.length (ChatLog._messages CHAT_LOG) <= ChatLog.maxlen CHAT_LOG)%nat /\
  List.length (ChatLog._messages (ChatLog.add CHAT_LOG "Ninja" "GGs")) = 1%nat.
Proof.
  assert (H : (List.length (ChatLog._messages CHAT_LOG)
               <= ChatLog.maxlen CHAT_LOG)%nat) by (simpl; lia).
  split; [exact H|].
  exact (proj1 (proj2 (chat_log_add_stays_bounded CHAT_LOG "Ninja" "GGs" H))).
Defined.

(** X25.  [recent(n)] with a positive [n] is the last [n] messages, or all
    of them when there are fewer; [recent(0)] is the whole log, not the
    empty list; a negative [n] drops the [-n] oldest messages. *)
Theorem chat_log_recent (self : ChatLog.t) (n : Z) :
  ((0 < n)%Z ->
   Z.of_nat (List.length (ChatLog.recent self n))
   = Z.min n (Z.of_nat (List.length (ChatLog._messages self))) /\
   exists older, older ++ ChatLog.recent self n = ChatLog._messages self) /\
  ChatLog.recent self 0 = ChatLog._messages self /\
  ((n < 0)%Z ->
   ChatLog.recent self n = skipn (Z.to_nat (- n)) (ChatLog._messages self)).
Proof.
  unfold ChatLog.recent, ChatLog.slice_from. cbv zeta.
  set (msgs := ChatLog._messages self).
  split; [|split].
  - intros Hn.
    destruct (Z.of_nat (List.length msgs) >=? n)%Z eqn:E.
    + rewrite Z.geb_leb in E. apply Z.leb_le in E.
      rewrite (proj2 (Z.ltb_lt (- n) 0)) by lia.
      rewrite Z.max_l by lia. split.
      * rewrite length_skipn. lia.
      * exists (firstn (Z.to_nat (Z.of_nat (List.length msgs) + - n)) msgs).
        apply firstn_skipn.
    + rewrite Z.geb_leb in E. apply Z.leb_gt in E. split; [lia|].
      now exists [].
  - cbn [Z.opp]. rewrite (proj2 (Z.geb_le _ 0)) by lia.
    rewrite Z.ltb_irrefl, Z.min_l by lia. reflexivity.
  - intros Hn. rewrite (proj2 (Z.geb_le _ n)) by lia.
    rewrite (proj2 (Z.ltb_ge (- n) 0)) by lia.
    destruct (Z.le_ge_cases (- n) (Z.of_nat (List.length msgs))) as [H|H].
    + now rewrite Z.min_l by lia.
    + rewrite Z.min_r by lia. rewrite Nat2Z.id.
      rewrite skipn_all. symmetry. apply skipn_all2. lia.
Qed.

(** X26.  With a positive bound, the message just added is the last one that
    [recent(n)] returns, for every positive [n]: [recent(1)] after [add] is
    that message alone. *)
Theorem chat_log_add_then_recent (self : ChatLog.t) (streamer message : string)
    (n : Z) :
  (0 < ChatLog.maxlen self)%nat -> (0 < n)%Z ->
  (exists earlier,
     ChatLog.recent (ChatLog.add self streamer message) n
     = earlier ++ [ChatLog.mkMessage streamer message]) /\
  ChatLog.recent (ChatLog.add self streamer message) 1
  = [ChatLog.mkMessage streamer message].
Proof.
  intros Hmax Hn.
  assert (Hend : exists pre,
            ChatLog._messages (ChatLog.add self streamer message)
            = pre ++ [ChatLog.mkMessage streamer message]).
  { unfold ChatLog.add. cbn [ChatLog._messages].
    destruct (chat_append_cases (ChatLog.maxlen self) (ChatLog._messages self)
                (ChatLog.mkMessage streamer message)) as [[_ E]|[Hge E]];
      rewrite E.
    - now eexists.
    - destruct (ChatLog._messages self) as [|m0 ms].
      + simpl in Hge. lia.
      + cbn [app tl]. now eexists. }
  destruct Hend as [pre Hpre].
  assert (Hrec : forall k, (0 < k)%Z ->
            exists earlier,
              ChatLog.recent (ChatLog.add self streamer message) k
              = earlier ++ [ChatLog.mkMessage streamer message] /\
              (k = 1%Z -> earlier = [])).
  { intros k Hk. unfold ChatLog.recent, ChatLog.slice_from. cbv zeta.
    rewrite Hpre. rewrite length_app. cbn [List.length].
    destruct (Z.of_nat (List.length pre + 1) >=? k)%Z eqn:E.
    - rewrite Z.geb_leb in E. apply Z.leb_le in E.
      rewrite (proj2 (Z.ltb_lt (- k) 0)) by lia.
      rewrite Z.max_l by lia.
      rewrite skipn_app.
      replace (Z.to_nat (Z.of_nat (List.length pre + 1) + - k) - List.length pre)%nat
        with 0%nat by lia.
      cbn [skipn]. eexists. split; [reflexivity|].
      intros ->. apply skipn_all2. lia.
    - rewrite Z.geb_leb in E. apply Z.leb_gt in E.
      exists pre. split; [reflexivity|]. intros ->. lia. }
  split.
  - destruct (Hrec n Hn) as [earlier [E _]]. now exists earlier.
  - destruct (Hrec 1%Z) as [earlier [E Hnil]]; [lia|].
    rewrite E, (Hnil eq_refl). reflexivity.
Qed.

Lemma chat_log_add_then_recent_witness :
  ((0 < ChatLog.maxlen CHAT_LOG)%nat /\ (0 < 5)%Z) /\
  ChatLog.recent (ChatLog.add CHAT_LOG "Ninja" "GGs") 1
  = [ChatLog.mkMessage "Ninja" "GGs"].
Proof.
  assert (H1 : (0 < ChatLog.maxlen CHAT_LOG)%nat) by (simpl; lia).
  assert (H2 : (0 < 5)%Z) by lia.
  split; [exact (conj H1 H2)|].
  exact (proj2 (chat_log_add_then_recent CHAT_LOG "Ninja" "GGs" 5 H1 H2)).
Defined.

(** ** The single-agent bot and Aggressive-Safe *)

Lemma play_can_reach_eq (self : Tryhard.Strategy) (p b d : Position)
    (tx lvl : R) :
  Tryhard.safety_modifier self = 1 ->
  PlayTsunami.can_reach_before_tsunami p b d tx lvl
  = Tryhard.can_reach_before_tsunami self p b d tx lvl.
Proof.
  intros Hsm.
  unfold PlayTsunami.can_reach_before_tsunami, Tryhard.can_reach_before_tsunami,
    Tryhard._player_speed, Tryhard._base_safety_margin, PLAYER_SPEED_BASE,
    PLAYER_SPEED_PER_LEVEL, TSUNAMI_SPEED.
  cbv zeta. rewrite Hsm, Rmult_1_r. reflexivity.
Qed.

(** X27.  The reachability test of the single-agent bot is the one of
    Aggressive-Safe with safety modifier 1: same answer on every input, same
    exception at zero speed. *)
Theorem play_tsunami_can_reach_is_tryhard_at_modifier_one
    (self : Tryhard.Strategy)
    (player_pos brainrot_pos deposit_pos : Position)
    (tsunami_x speed_level : R) :
  Tryhard.safety_modifier self = 1 ->
  PlayTsunami.can_reach_before_tsunami player_pos brainrot_pos deposit_pos
    tsunami_x speed_level
  = Tryhard.can_reach_before_tsunami self player_pos brainrot_pos deposit_pos
      tsunami_x speed_level.
Proof. apply play_can_reach_eq. Qed.

Lemma play_tsunami_can_reach_is_tryhard_at_modifier_one_witness :
  Tryhard.safety_modifier Scenario.tryhard1 = 1 /\
  PlayTsunami.can_reach_before_tsunami (Scenario.at_x 340) (Scenario.at_x 300)
    Scenario.base (-500) 1
  = Tryhard.can_reach_before_tsunami Scenario.tryhard1 (Scenario.at_x 340)
      (Scenario.at_x 300) Scenario.base (-500) 1.
Proof.
  assert (H : Tryhard.safety_modifier Scenario.tryhard1 = 1) by reflexivity.
  exact (conj H (play_tsunami_can_reach_is_tryhard_at_modifier_one
                   Scenario.tryhard1 (Scenario.at_x 340) (Scenario.at_x 300)
                   Scenario.base (-500) 1 H)).
Defined.

Lemma filterM_ext {A : Type} (p q : A -> result bool) (l : list A) :
  (forall x, In x l -> p x = q x) -> filterM p l = filterM q l.
Proof.
  induction l as [|x l IH]; intros H; simpl; [reflexivity|].
  rewrite (H x) by now left.
  rewrite IH by (intros y Hy; apply H; now right). reflexivity.
Qed.

Lemma play_furthest_loop_eq (pos : Position) (reach : list Entity)
    (order : list string) :
  (forall b, In b reach -> get_rarity b = PlayTsunami.get_rarity b) ->
  PlayTsunami.furthest_loop pos reach order
  = Tryhard.furthest_loop pos reach order.
Proof.
  intros Hr. induction order as [|rarity order IH]; simpl; [reflexivity|].
  rewrite (filter_ext_in
             (fun b => String.eqb (PlayTsunami.get_rarity b) rarity)
             (fun b => String.eqb (get_rarity b) rarity))
    by (intros b Hb; now rewrite (Hr b Hb)).
  now rewrite IH.
Qed.

(** X28.  Aggressive-Safe with safety modifier 1 extends the single-agent
    bot: on entities whose rarity comes from the color, whenever neither the
    hazard-wait rule nor the aggressive rule applies, it aims at the very
    candidate [find_furthest_reachable_brainrot] returns, with the same
    rarity, and answers [None] when the bot finds nothing.  The two
    hypotheses on the rules are the negations of their guards: the hazard
    is not active, or something is reachable, or the player is not near the
    base; and money is below the threshold, or the hazard is not past the
    base center, or the player is not near the base. *)
Theorem tryhard_extends_single_agent_bot (self : Tryhard.Strategy)
    (pos : Position) (brainrots : list Entity) (tsunami_x : R)
    (base_center : Position) (speed_level money : R) (attrs : Attrs)
    (reach : list Entity) (found : option (Entity * string)) :
  Tryhard.safety_modifier self = 1 ->
  (forall b, In b brainrots -> get_rarity b = PlayTsunami.get_rarity b) ->
  Tryhard.reachable self pos brainrots tsunami_x base_center speed_level
  = Ok reach ->
  tsunami_x <= -400 \/ reach <> [] \/ 20 <= distance pos base_center ->
  money < 2500 \/ tsunami_x <= px base_center
    \/ 20 <= distance pos base_center ->
  PlayTsunami.find_furthest_reachable_brainrot pos brainrots tsunami_x
    base_center speed_level = Ok found ->
  match found with
  | None =>
      Tryhard.find_target self pos brainrots tsunami_x base_center speed_level
        money attrs = Ok None
  | Some (b, rarity) =>
      exists ev,
        Tryhard.find_target self pos brainrots tsunami_x base_center
          speed_level money attrs
        = Ok (Some (Tryhard._move_or_collect pos b rarity ev))
  end.
Proof.
  intros Hsm Hcol Hr Hnowait Hnoaggr.
  unfold PlayTsunami.find_furthest_reachable_brainrot, Tryhard.find_target.
  cbv zeta.
  change (filter (fun b => gtb (py (position b)) (-100)
                           && negb (PlayTsunami.is_in_base_zone (position b)))
                 brainrots) with (Tryhard.valid brainrots).
  unfold Tryhard.reachable in Hr |- *.
  rewrite (filterM_ext
             (fun b => PlayTsunami.can_reach_before_tsunami pos (position b)
                         base_center tsunami_x speed_level)
             (fun b => Tryhard.can_reach_before_tsunami self pos (position b)
                         base_center tsunami_x speed_level))
    by (intros x _; now apply play_can_reach_eq).
  rewrite Hr. cbn [Py.bind].
  assert (Hw : gtb tsunami_x (-400) && negb (truthy reach)
               && ltb (distance pos base_center) 20 = false).
  { destruct Hnowait as [H|[H|H]].
    - now rewrite (proj2 (gtb_false_iff _ _) H).
    - rewrite (proj2 (truthy_true_iff _) H). cbn [negb].
      now rewrite andb_false_r.
    - rewrite (proj2 (ltb_false_iff _ _) H). apply andb_false_r. }
  rewrite Hw.
  assert (Ha : geb money Tryhard.AGGRESSIVE_THRESHOLD
               && gtb tsunami_x (px base_center)
               && ltb (distance pos base_center) 20 = false).
  { unfold Tryhard.AGGRESSIVE_THRESHOLD. destruct Hnoaggr as [H|[H|H]].
    - now rewrite (proj2 (geb_false_iff _ _) H).
    - rewrite (proj2 (gtb_false_iff _ _) H). now rewrite andb_false_r.
    - rewrite (proj2 (ltb_false_iff _ _) H). apply andb_false_r. }
  rewrite Ha. cbn [Py.bind].
  assert (Hsub : forall b, In b reach -> In b brainrots).
  { intros b Hb. destruct (filterM_In _ _ _ _ Hr Hb) as [Hv _].
    now apply valid_spec in Hv. }
  destruct reach as [|r0 reach].
  - cbn [truthy negb]. unfold Tryhard._furthest_by_rarity.
    rewrite furthest_loop_nil. cbn [Py.bind].
    destruct (Tryhard.valid brainrots) as [|v0 vs] eqn:Hv; cbn [truthy].
    + intros H. injection H as <-. reflexivity.
    + cbn [Py.min Py.bind]. intros H. injection H as <-.
      set (nearest := min_from (fun b => distance pos (position b)) v0 vs).
      assert (Hin : In nearest brainrots).
      { assert (Hn : In nearest (Tryhard.valid brainrots))
          by (rewrite Hv; apply min_from_In).
        now apply valid_spec in Hn. }
      rewrite <- (Hcol nearest Hin). eexists; reflexivity.
  - cbn [truthy negb].
    rewrite play_furthest_loop_eq
      by (intros b Hb; apply Hcol; now apply Hsub).
    unfold Tryhard._furthest_by_rarity.
    destruct (furthest_loop_spec pos (r0 :: reach) RARITY_ORDER r0
                (or_introl eq_refl) (get_rarity_in_order r0))
      as [b [i [Hf _]]].
    rewrite Hf. intros H. injection H as <-. cbn [Py.bind].
    eexists; reflexivity.
Qed.

Lemma colored_rarity (x : R) :
  get_rarity (Cases.colored x [1; 1; 0.19607843]) = "Legendary"%string.
Proof.
  unfold get_rarity, Cases.colored. cbn [attr_Zone Zone or_else color].
  cbv zeta.
  repeat match goal with
  | |- context [ltb (Rabs ?t) ?e] =>
      first [ rewrite (proj2 (ltb_true_iff (Rabs t) e))
                by (unfold Rabs; destruct (Rcase_abs _); lra)
            | rewrite (proj2 (ltb_false_iff (Rabs t) e))
                by (unfold Rabs; destruct (Rcase_abs _); lra) ]
  end.
  reflexivity.
Qed.

Lemma colored_position (x : R) (c : list R) :
  position (Cases.colored x c) = Scenario.at_x x.
Proof. reflexivity. Qed.

(** The hazard is active at x = -300 and the player stands on the base
    center at speed level 10: a Legendary 35 units away is reachable (about
    2.07 ticks against 13.5 - 3), so the hazard-wait rule does not apply
    although the player is near the base. *)
Lemma colored_reachable :
  Tryhard.reachable Scenario.tryhard1 Scenario.base
    [Cases.colored 340 [1; 1; 0.19607843]] (-300) Scenario.base 10
  = Ok [Cases.colored 340 [1; 1; 0.19607843]].
Proof.
  unfold Tryhard.reachable, Tryhard.valid, Tryhard.can_reach_before_tsunami,
    Tryhard._player_speed, Tryhard._base_safety_margin, is_in_base_zone,
    BASE_ZONE_X, PLAYER_SPEED_BASE, PLAYER_SPEED_PER_LEVEL, TSUNAMI_SPEED,
    Py.div, Scenario.base, Scenario.tryhard1.
  cbv zeta. cbn [filter]. rewrite ?colored_position. geo_eval. cmp_eval.
  cbn [andb negb filterM Py.bind Tryhard.safety_modifier].
  rewrite ?colored_position. geo_eval. cmp_eval.
  cbn [Py.bind]. cmp_eval. reflexivity.
Qed.

Lemma colored_found :
  PlayTsunami.find_furthest_reachable_brainrot Scenario.base
    [Cases.colored 340 [1; 1; 0.19607843]] (-300) Scenario.base 10
  = Ok (Some (Cases.colored 340 [1; 1; 0.19607843], "Legendary"%string)).
Proof.
  unfold PlayTsunami.find_furthest_reachable_brainrot,
    PlayTsunami.can_reach_before_tsunami, PlayTsunami.is_in_base_zone,
    Scenario.base, Py.div.
  cbv zeta. cbn [filter]. rewrite ?colored_position. geo_eval. cmp_eval.
  cbn [andb negb filterM Py.bind]. rewrite ?colored_position.
  geo_eval. cmp_eval.
  cbn [Py.bind]. cmp_eval. cbn [Py.bind truthy negb].
  unfold RARITY_ORDER. cbn [PlayTsunami.furthest_loop filter].
  assert (Hc : PlayTsunami.get_rarity (Cases.colored 340 [1; 1; 0.19607843])
               = "Legendary"%string).
  { rewrite <- rarity_from_color; [apply colored_rarity|].
    intros z E. discriminate. }
  rewrite Hc. str_eval. cbn [truthy Py.max max_from Py.bind].
  reflexivity.
Qed.

Lemma tryhard_extends_single_agent_bot_witness :
  (Tryhard.safety_modifier Scenario.tryhard1 = 1 /\
   (forall b, In b [Cases.colored 340 [1; 1; 0.19607843]] ->
      get_rarity b = PlayTsunami.get_rarity b) /\
   Tryhard.reachable Scenario.tryhard1 Scenario.base
     [Cases.colored 340 [1; 1; 0.19607843]] (-300) Scenario.base 10
   = Ok [Cases.colored 340 [1; 1; 0.19607843]] /\
   (-300 <= -400 \/ [Cases.colored 340 [1; 1; 0.19607843]] <> []
    \/ 20 <= distance Scenario.base Scenario.base) /\
   (0 < 2500 \/ -300 <= px Scenario.base
    \/ 20 <= distance Scenario.base Scenario.base) /\
   PlayTsunami.find_furthest_reachable_brainrot Scenario.base
     [Cases.colored 340 [1; 1; 0.19607843]] (-300) Scenario.base 10
   = Ok (Some (Cases.colored 340 [1; 1; 0.19607843], "Legendary"%string))) /\
  exists ev,
    Tryhard.find_target Scenario.tryhard1 Scenario.base
      [Cases.colored 340 [1; 1; 0.19607843]] (-300) Scenario.base 10 0
      Scenario.no_attrs
    = Ok (Some (Tryhard._move_or_collect Scenario.base
                  (Cases.colored 340 [1; 1; 0.19607843]) "Legendary" ev)).
Proof.
  assert (H1 : Tryhard.safety_modifier Scenario.tryhard1 = 1) by reflexivity.
  assert (H2 : forall b, In b [Cases.colored 340 [1; 1; 0.19607843]] ->
                 get_rarity b = PlayTsunami.get_rarity b).
  { intros b [<-|[]]. apply rarity_from_color.
    intros z E. discriminate. }
  assert (H3 : -300 <= -400 \/ [Cases.colored 340 [1; 1; 0.19607843]] <> []
               \/ 20 <= distance Scenario.base Scenario.base)
    by (right; left; discriminate).
  assert (H4 : 0 < 2500 \/ -300 <= px Scenario.base
               \/ 20 <= distance Scenario.base Scenario.base)
    by (left; lra).
  split;
    [exact (conj H1 (conj H2 (conj colored_reachable
                                   (conj H3 (conj H4 colored_found)))))|].
  exact (tryhard_extends_single_agent_bot Scenario.tryhard1 Scenario.base
           [Cases.colored 340 [1; 1; 0.19607843]] (-300) Scenario.base 10 0
           Scenario.no_attrs _ _ H1 H2 colored_reachable H3 H4 colored_found).
Defined.
